(** * PediBrief: the LLM response pipeline of [services/gemini]

    A shallow embedding of [processDischargeSummary] and [gradeQuizAnswer]:
    locating the generated text in the completion envelope, stripping
    markdown fences, the brace-counting scan for the JSON object, the
    coercion of the parsed object into a [PediatricSummary], the quiz
    sanitizer, and the keyword fallback of the grader.

    JavaScript strings are sequences of UTF-16 code units.  The model uses
    [string]; one [ascii] stands for one code unit in the range 0..255, so
    the model covers the strings whose code units are all below 256. *)

From Stdlib Require Import ZArith List String Ascii Bool Lia QArith Qminmax.
From Stdlib Require Import DecimalString.
From Stdlib Require Floats Uint63.
Import ListNotations.
Open Scope string_scope.
Open Scope Z_scope.
Set Warnings "-register-all".

(** ** Platform: strings *)

Module JS.

(** Code units matched by [\n] and [\r]: the line terminators below 256. *)
Definition isLineTerminator (c : ascii) : bool :=
  let n := N_of_ascii c in ((n =? 10) || (n =? 13))%N.

(** Code units matched by [\s] and removed by [trim]: TAB, LF, VT, FF, CR,
    SPACE and NO-BREAK SPACE are the ones below 256. *)
Definition isWhiteSpace (c : ascii) : bool :=
  let n := N_of_ascii c in
  (((9 <=? n) && (n <=? 13)) || (n =? 32) || (n =? 160))%N.

(** [toLowerCase] on one code unit below 256: A-Z and the Latin-1 capitals
    U+00C0..U+00DE (without the multiplication sign U+00D7) move up by 32. *)
Definition lowerChar (c : ascii) : ascii :=
  let n := N_of_ascii c in
  if (((65 <=? n) && (n <=? 90))
      || ((192 <=? n) && (n <=? 222) && negb (n =? 215)))%N
  then ascii_of_N (n + 32) else c.

Fixpoint toLowerCase (s : string) : string :=
  match s with
  | EmptyString => EmptyString
  | String c s' => String (lowerChar c) (toLowerCase s')
  end.

Fixpoint trimStart (s : string) : string :=
  match s with
  | EmptyString => EmptyString
  | String c s' => if isWhiteSpace c then trimStart s' else s
  end.

Fixpoint allWhiteSpace (s : string) : bool :=
  match s with
  | EmptyString => true
  | String c s' => isWhiteSpace c && allWhiteSpace s'
  end.

Fixpoint trimEnd (s : string) : string :=
  match s with
  | EmptyString => EmptyString
  | String c s' => if allWhiteSpace s then EmptyString else String c (trimEnd s')
  end.

Definition trim (s : string) : string := trimEnd (trimStart s).

(** [s.startsWith(p)] *)
Fixpoint startsWith (s p : string) : bool :=
  match p, s with
  | EmptyString, _ => true
  | String _ _, EmptyString => false
  | String a p', String b s' => Ascii.eqb a b && startsWith s' p'
  end.

(** [s.includes(p)] *)
Fixpoint includes (s p : string) : bool :=
  startsWith s p ||
  match s with
  | EmptyString => false
  | String _ s' => includes s' p
  end.

(** [s.indexOf(c)] for a one-character needle; [None] is [-1]. *)
Fixpoint indexOf (s : string) (c : ascii) : option nat :=
  match s with
  | EmptyString => None
  | String a s' =>
      if Ascii.eqb a c then Some O else option_map S (indexOf s' c)
  end.

Fixpoint drop (n : nat) (s : string) : string :=
  match n, s with
  | O, _ => s
  | S _, EmptyString => EmptyString
  | S n', String _ s' => drop n' s'
  end.

Fixpoint take (n : nat) (s : string) : string :=
  match n, s with
  | O, _ => EmptyString
  | S _, EmptyString => EmptyString
  | S n', String c s' => String c (take n' s')
  end.

(** [s.substring(a, b)] for [a <= b]. *)
Definition substring (a b : nat) (s : string) : string :=
  take (b - a) (drop a s).

(** [xs.join(sep)] *)
Fixpoint join (sep : string) (xs : list string) : string :=
  match xs with
  | [] => EmptyString
  | [x] => x
  | x :: rest => x ++ sep ++ join sep rest
  end.

(** [s.split(re)] for a regular expression [re = /[...]+/] that matches the
    non-empty runs of the code units accepted by [sep].  A run at the start
    or at the end of [s] leaves an empty first or last piece; the empty
    string splits into one empty piece. *)
Fixpoint splitRuns (sep : ascii -> bool) (afterSep : bool) (s : string)
  : list string :=
  match s with
  | EmptyString => [EmptyString]
  | String c s' =>
      if sep c then
        if afterSep then splitRuns sep true s'
        else EmptyString :: splitRuns sep true s'
      else
        match splitRuns sep false s' with
        | t :: ts => String c t :: ts
        | [] => [String c EmptyString]
        end
  end.

(** [s.split(c)] for a one-character string separator: every occurrence
    separates. *)
Fixpoint splitChar (c : ascii) (s : string) : list string :=
  match s with
  | EmptyString => [EmptyString]
  | String a s' =>
      if Ascii.eqb a c then EmptyString :: splitChar c s'
      else
        match splitChar c s' with
        | t :: ts => String a t :: ts
        | [] => [String a EmptyString]
        end
  end.

(** ** Platform: values *)

(** A number value.  No arithmetic is done on parsed numbers by this code,
    only integrality, range and identity tests, so an integral value is kept
    as its [Z], and a finite non-integral value is kept as the decimal text
    [Number::toString] gives it, which identifies it.  The integral doubles
    are the integers below 2^1024 in magnitude that 53 bits and a power of
    two write; where a text is made of an [Int z] whose [z] is none of
    them, it is the text of the double nearest to [z]. *)
Inductive number : Type :=
  | Int (z : Z)
  | NegZero
  | Frac (repr : string)
  | Infinite (negative : bool)
  | NaN.

Inductive value : Type :=
  | VUndefined
  | VNull
  | VBool (b : bool)
  | VNum (n : number)
  | VStr (s : string)
  | VArr (elems : list value)
  | VObj (members : list (string * value)).

(** [ToBoolean] *)
Definition truthy (v : value) : bool :=
  match v with
  | VUndefined | VNull => false
  | VBool b => b
  | VNum (Int z) => negb (z =? 0)
  | VNum NegZero | VNum NaN => false
  | VNum _ => true
  | VStr s => negb (String.eqb s EmptyString)
  | VArr _ | VObj _ => true
  end.

(** [a || b] *)
Definition or_else (a b : value) : value := if truthy a then a else b.

(** [a ?? b] *)
Definition nullish_or (a b : value) : value :=
  match a with
  | VUndefined | VNull => b
  | _ => a
  end.

Fixpoint lookup (k : string) (m : list (string * value)) : value :=
  match m with
  | [] => VUndefined
  | (k', v) :: m' => if String.eqb k k' then v else lookup k m'
  end.

(** [v.k] on a value that is neither [null] nor [undefined], for the
    property names this code reads ([length] and indices apart): an own
    member of an object, [undefined] on anything else.  The members of an
    object have distinct keys. *)
Definition prop (v : value) (k : string) : value :=
  match v with
  | VObj m => lookup k m
  | _ => VUndefined
  end.

Definition isArray (v : value) : bool :=
  match v with VArr _ => true | _ => false end.

Definition isNumber (v : value) : bool :=
  match v with VNum _ => true | _ => false end.

Definition Number_isNaN (v : value) : bool :=
  match v with VNum NaN => true | _ => false end.

(** [Number.isInteger(v)], with the integer it found. *)
Definition integerValue (v : value) : option Z :=
  match v with
  | VNum (Int z) => Some z
  | VNum NegZero => Some 0
  | _ => None
  end.

(** [a === b] against a string literal. *)
Definition isString (v : value) (lit : string) : bool :=
  match v with VStr s => String.eqb s lit | _ => false end.

(** SameValueZero, the equality of [Set].  Every array or object that
    [JSON.parse] builds is an object of its own, equal to itself only. *)
Definition sameValueZero (a b : value) : bool :=
  match a, b with
  | VUndefined, VUndefined | VNull, VNull => true
  | VBool x, VBool y => Bool.eqb x y
  | VStr x, VStr y => String.eqb x y
  | VNum x, VNum y =>
      match x, y with
      | Int p, Int q => p =? q
      | Int p, NegZero | NegZero, Int p => p =? 0
      | NegZero, NegZero | NaN, NaN => true
      | Frac p, Frac q => String.eqb p q
      | Infinite p, Infinite q => Bool.eqb p q
      | _, _ => false
      end
  | _, _ => false
  end.

(** [Array.from(new Set(xs))]: first occurrences in order; [Set] stores
    [-0] as [+0]. *)
Definition setKey (v : value) : value :=
  match v with VNum NegZero => VNum (Int 0) | _ => v end.

Fixpoint setAdd (seen : list value) (xs : list value) : list value :=
  match xs with
  | [] => seen
  | x :: xs' =>
      if existsb (sameValueZero (setKey x)) seen then setAdd seen xs'
      else setAdd (seen ++ [setKey x]) xs'
  end.

Definition Array_from_Set (xs : list value) : list value := setAdd [] xs.

(** [v.length] on a value that is neither [null] nor [undefined]. *)
Definition lengthOf (v : value) : value :=
  match v with
  | VArr l => VNum (Int (Z.of_nat (List.length l)))
  | VStr s => VNum (Int (Z.of_nat (String.length s)))
  | VObj m => lookup "length" m
  | _ => VUndefined
  end.

(** [v === 0] *)
Definition isZero (v : value) : bool :=
  match v with
  | VNum (Int z) => z =? 0
  | VNum NegZero => true
  | _ => false
  end.

(** ** Platform: numbers and their texts *)

(** The double nearest to a positive integer, ties going to the even
    mantissa of 53 bits. *)
Definition nearestDouble (z : Z) : Z :=
  let e := Z.log2 z - 52 in
  if e <=? 0 then z
  else
    let q := Z.shiftr z e in
    let r := z - Z.shiftl q e in
    let half := Z.shiftl 1 (e - 1) in
    let q' :=
      if r <? half then q
      else if half <? r then q + 1
      else if Z.even q then q else q + 1 in
    Z.shiftl q' e.

(** The decimal digits of a natural number. *)
Definition digitsOf (z : Z) : string :=
  NilZero.string_of_uint (N.to_uint (Z.to_N z)).

Fixpoint zeros (n : nat) : string :=
  match n with
  | O => EmptyString
  | S n' => String "0" (zeros n')
  end.

(** The shortest digits [s], [k] of them or more, for which
    [s * 10^(n - k)] rounds to the double [x] of [n] digits, with the [n]
    of the text: the nearer of the two candidates of a length when both
    round to [x], and [n + 1] when the digits are those of [10^n].  [fuel]
    counts the lengths still to try; the digits of [x] itself are found at
    the last. *)
Fixpoint shortest (fuel : nat) (x : Z) (n k : Z) : Z * Z :=
  match fuel with
  | O => (x, n)
  | S fuel' =>
      let p := 10 ^ (n - k) in
      let lo := (x / p) * p in
      let hi := lo + p in
      let okLo := nearestDouble lo =? x in
      let okHi := nearestDouble hi =? x in
      if okLo && (negb okHi || (x - lo <=? hi - x)) then (lo / p, n)
      else if okHi then
        (if hi =? 10 ^ n then (1, n + 1) else (hi / p, n))
      else shortest fuel' x n (k + 1)
  end.

(** [Number::toString] of a positive integral double: its digits up to
    2^53, the shortest digits that read back as the double beyond, followed
    by zeros up to 21 digits and in exponent form from 1e21. *)
Definition positiveText (x : Z) : string :=
  if x <? 2 ^ 53 then digitsOf x
  else
    let n0 := Z.of_nat (String.length (digitsOf x)) in
    let '(s, n) := shortest (Z.to_nat n0) x n0 1 in
    let d := digitsOf s in
    if n <=? 21 then d ++ zeros (Z.to_nat n - String.length d)
    else
      match d with
      | String c EmptyString => String c ("e+" ++ digitsOf (n - 1))
      | String c rest => String c ("." ++ rest ++ "e+" ++ digitsOf (n - 1))
      | EmptyString => EmptyString
      end.

(** [Number::toString] of an integral value; an integer that is no double
    stands for the double nearest to it. *)
Definition integerText (z : Z) : string :=
  if z =? 0 then "0"
  else if z <? 0 then "-" ++ positiveText (nearestDouble (- z))
  else positiveText (nearestDouble z).

(** The characters of the text of an integral value: the digits, the
    point, and the letter and the signs of an exponent. *)
Definition numeralChar (c : ascii) : bool :=
  existsb (Ascii.eqb c) (list_ascii_of_string "0123456789.e+-").

Fixpoint numeralText (s : string) : bool :=
  match s with
  | EmptyString => true
  | String c s' => numeralChar c && numeralText s'
  end.

(** [Number::toString] *)
Definition numberString (n : number) : string :=
  match n with
  | Int z => integerText z
  | NegZero => "0"
  | Frac r => r
  | Infinite false => "Infinity"
  | Infinite true => "-Infinity"
  | NaN => "NaN"
  end.

(** The value of a digit in a radix, for the radixes 2, 8, 10 and 16. *)
Definition digitIn (radix : Z) (c : ascii) : option Z :=
  let n := Z.of_N (N_of_ascii c) in
  let d :=
    if (48 <=? n) && (n <=? 57) then n - 48
    else if (97 <=? n) && (n <=? 102) then n - 87
    else if (65 <=? n) && (n <=? 70) then n - 55
    else radix in
  if d <? radix then Some d else None.

(** The digits a text begins with: their value after [acc], their number
    after [count], and the rest of the text. *)
Fixpoint readDigits (radix : Z) (s : string) (acc : Z) (count : nat)
  : Z * nat * string :=
  match s with
  | EmptyString => (acc, count, s)
  | String c s' =>
      match digitIn radix c with
      | Some d => readDigits radix s' (acc * radix + d) (S count)
      | None => (acc, count, s)
      end
  end.

(** The exponent part that ends a decimal literal, 0 when there is none;
    [None] when the text is no exponent part. *)
Definition exponentOf (s : string) : option Z :=
  match s with
  | EmptyString => Some 0
  | String c r =>
      if Ascii.eqb c "e" || Ascii.eqb c "E" then
        let '(negative, r') :=
          match r with
          | String "+" t => (false, t)
          | String "-" t => (true, t)
          | _ => (false, r)
          end in
        let '(e, n, rest) := readDigits 10 r' 0 0 in
        if (0 <? n)%nat && String.eqb rest EmptyString
        then Some (if negative then - e else e)
        else None
      else None
  end.

(** Does [m * 10^e] round to a double above 0?  It does unless it is at
    most half the least positive double, 2^-1075. *)
Definition roundsAboveZero (m e : Z) : bool :=
  (0 <? m) && ((0 <=? e) || (10 ^ (- e) <? m * 2 ^ 1075)).

(** [StringToNumber(s) > 0] for a text without sign: [Infinity], or digits
    with a point among, before or after them, and an exponent part. *)
Definition unsignedPositive (s : string) : bool :=
  if String.eqb s "Infinity" then true
  else
    let '(i, ni, r1) := readDigits 10 s 0 0 in
    let '(m, nf, r2) :=
      match r1 with
      | String "." r => readDigits 10 r i 0
      | _ => (i, O, r1)
      end in
    if (ni =? 0)%nat && (nf =? 0)%nat then false
    else
      match exponentOf r2 with
      | Some e => roundsAboveZero m (e - Z.of_nat nf)
      | None => false
      end.

(** The literals [0b...], [0o...] and [0x...], which take no sign. *)
Definition radixOf (c : ascii) : option Z :=
  if Ascii.eqb c "b" || Ascii.eqb c "B" then Some 2
  else if Ascii.eqb c "o" || Ascii.eqb c "O" then Some 8
  else if Ascii.eqb c "x" || Ascii.eqb c "X" then Some 16
  else None.

(** [StringToNumber(s) > 0]: white space around the literal is skipped;
    the empty text is 0, and a text that is no literal is [NaN]. *)
Definition textPositive (s : string) : bool :=
  match trim s with
  | String "-" _ => false
  | String "+" r => unsignedPositive r
  | String "0" (String c r) =>
      match radixOf c with
      | Some radix =>
          let '(v, n, rest) := readDigits radix r 0 0 in
          (0 <? n)%nat && String.eqb rest EmptyString && (0 <? v)
      | None => unsignedPositive (trim s)
      end
  | t => unsignedPositive t
  end.

Definition hasOwn (k : string) (m : list (string * value)) : bool :=
  existsb (fun kv => String.eqb k (fst kv)) m.

(** The texts joined with commas, when each of them is there. *)
Fixpoint joinTexts (xs : list (option string)) : option string :=
  match xs with
  | [] => Some EmptyString
  | [x] => x
  | x :: rest =>
      match x, joinTexts rest with
      | Some a, Some b => Some (a ++ "," ++ b)
      | _, _ => None
      end
  end.

(** [ToString]; [None] is the [TypeError] of an object with a member
    [toString] of its own, which is no function.  An array joins the texts
    of its elements with commas, [null] and [undefined] among them giving
    nothing. *)
Fixpoint textOf (v : value) : option string :=
  match v with
  | VUndefined => Some "undefined"
  | VNull => Some "null"
  | VBool true => Some "true"
  | VBool false => Some "false"
  | VNum n => Some (numberString n)
  | VStr s => Some s
  | VArr l =>
      joinTexts
        (map (fun x =>
                match x with
                | VUndefined | VNull => Some EmptyString
                | _ => textOf x
                end) l)
  | VObj m =>
      if hasOwn "toString" m then None else Some "[object Object]"
  end.

(** [v > 0]; [None] is the [TypeError] of a conversion.  A string is read
    as a numeric literal; an array or an object is converted to its text
    first, a member [valueOf] of its own, which is no function, being
    passed over. *)
Definition isPositive (v : value) : option bool :=
  match v with
  | VUndefined | VNull => Some false
  | VBool b => Some b
  | VNum (Int z) => Some (0 <? z)
  | VNum (Frac r) => Some (negb (startsWith r "-"))
  | VNum (Infinite neg) => Some (negb neg)
  | VNum _ => Some false
  | VStr s => Some (textPositive s)
  | VArr _ | VObj _ => option_map textPositive (textOf v)
  end.

(** [v[0]] on a value that is neither [null] nor [undefined]. *)
Definition first (v : value) : value :=
  match v with
  | VArr (x :: _) => x
  | VStr (String c _) => VStr (String c EmptyString)
  | VObj m => lookup "0" m
  | _ => VUndefined
  end.

(** ** Platform: [JSON.stringify] *)

Definition hexDigit (n : N) : ascii :=
  if (n <? 10)%N then ascii_of_N (48 + n) else ascii_of_N (87 + n).

(** One code unit inside a JSON string literal.  A string of this file has
    no escapes: a backslash in it is a backslash, followed here by the
    letter of the JSON escape. *)
Definition quoteChar (c : ascii) : string :=
  let n := N_of_ascii c in
  if (n =? 34)%N then String "092" (String "034" EmptyString)
  else if (n =? 92)%N then String "092" (String "092" EmptyString)
  else if (n =? 8)%N then "\b"
  else if (n =? 12)%N then "\f"
  else if (n =? 10)%N then "\n"
  else if (n =? 13)%N then "\r"
  else if (n =? 9)%N then "\t"
  else if (n <? 32)%N then
    "\u00" ++ String (hexDigit (n / 16)) (String (hexDigit (n mod 16)) EmptyString)
  else String c EmptyString.

Fixpoint quoteBody (s : string) : string :=
  match s with
  | EmptyString => EmptyString
  | String c s' => quoteChar c ++ quoteBody s'
  end.

Definition quote (s : string) : string :=
  String "034" (quoteBody s ++ String "034" EmptyString).

(** [Number::toString] as [JSON.stringify] uses it: a number that is not
    finite is written [null]. *)
Definition numberText (n : number) : string :=
  match n with
  | Int z => integerText z
  | NegZero => "0"
  | Frac r => r
  | Infinite _ | NaN => "null"
  end.

(** One member of an object: left out when it holds [undefined]. *)
Definition memberText (k : string) (v : value) (text : string) : list string :=
  match v with
  | VUndefined => []
  | _ => [quote k ++ ":" ++ text]
  end.

(** The text of a value in element position: [undefined] reads [null] in an
    array, and a member holding [undefined] is left out of an object. *)
Fixpoint stringify (v : value) : string :=
  match v with
  | VUndefined | VNull => "null"
  | VBool true => "true"
  | VBool false => "false"
  | VNum n => numberText n
  | VStr s => quote s
  | VArr l => "[" ++ join "," (map stringify l) ++ "]"
  | VObj m =>
      "{" ++ join ","
        (flat_map (fun '(k, v') => memberText k v' (stringify v')) m) ++ "}"
  end.

(** [JSON.stringify(v)]; [None] is the [undefined] it returns for
    [undefined]. *)
Definition JSON_stringify (v : value) : option string :=
  match v with
  | VUndefined => None
  | _ => Some (stringify v)
  end.

(** Turns every apostrophe into a double quote, to keep JSON texts readable
    in this file: a JSON text is written here with apostrophes around its
    strings. *)
Fixpoint dq (s : string) : string :=
  match s with
  | EmptyString => EmptyString
  | String c s' =>
      String (if Ascii.eqb c "039" then "034"%char else c) (dq s')
  end.

End JS.

(** ** The service [services/gemini] *)

Module Gemini.
Import JS.

(** The errors thrown inside [processDischargeSummary], one constructor per
    [throw] with the values its message quotes; [TypeError] is the error the
    platform raises for a property read on [null] or [undefined] and for a
    call of something that is not a function.  The enclosing [catch] throws
    each of them again, its message behind the words: Failed to process
    discharge summary. *)
Inductive error : Type :=
  | HttpError (status : Z) (errorData : string)
      (* Gemini API error: status - errorData *)
  | ApiError (detail : value)
      (* Gemini API error: data.error.message or the text of data.error *)
  | NoCandidates (data : value)
      (* No candidates in response. Full response: data *)
  | Truncated
      (* Response was truncated due to token limit. ... *)
  | NoContent (candidate : value)
      (* Candidate has no content. Candidate: candidate *)
  | NoParts (content : value)
      (* Content has no parts. Content: content (the grader only) *)
  | CouldNotExtract (data : value)
      (* Could not extract response text. Full response: data *)
  | NoJsonObject (responseText : string)
      (* No JSON object found in response. Response: first 300 characters *)
  | IncompleteJson (responseText : string)
      (* Incomplete JSON object in response. Response: first 300 characters *)
  | ParseFailure (responseText : string)
      (* Failed to parse JSON response: ... Response preview: ... *)
  | NetworkError
      (* the rejection of fetch *)
  | SyntaxError
      (* the error of response.json() and of a bare JSON.parse *)
  | TypeError.

Inductive result (A : Type) : Type :=
  | Ok (a : A)
  | Throw (e : error).
Arguments Ok {A} a.
Arguments Throw {A} e.

Definition bind {A B : Type} (r : result A) (k : A -> result B) : result B :=
  match r with
  | Ok a => k a
  | Throw e => Throw e
  end.

Notation "x <- r ;; k" := (bind r (fun x => k))
  (at level 61, r at next level, right associativity).

(** [v.k] where [v] may be [null] or [undefined]. *)
Definition get (v : value) (k : string) : result value :=
  match v with
  | VUndefined | VNull => Throw TypeError
  | _ => Ok (prop v k)
  end.

(** [v.trim()] *)
Definition callTrim (v : value) : result value :=
  match v with
  | VStr s => Ok (VStr (trim s))
  | _ => Throw TypeError
  end.

(** [JSON.stringify(v)] as a value. *)
Definition stringified (v : value) : value :=
  match JSON_stringify v with
  | Some s => VStr s
  | None => VUndefined
  end.

(** *** Locating the generated text (the completion client) *)

(** The choice of [responseText] when the content has parts. *)
Definition textOfParts (parts : value) : result value :=
  part <- Ok (first parts) ;;
  text <- get part "text" ;;
  if truthy text then callTrim text
  else
    let inlineData := prop part "inlineData" in
    if truthy inlineData then Ok (prop inlineData "data")
    else Ok (stringified part).

(** The choice of [responseText] when the content has no parts. *)
Definition textWithoutParts (data candidate : value) : result value :=
  let text := prop candidate "text" in
  if truthy text then callTrim text
  else
    let text' := prop data "text" in
    if truthy text' then callTrim text'
    else Ok (stringified data).

(** [parts && parts.length > 0] *)
Definition hasParts (parts : value) : result bool :=
  if truthy parts then
    match isPositive (lengthOf parts) with
    | Some positive => Ok positive
    | None => Throw TypeError
    end
  else Ok false.

(** [responseText], from the decoded body [data] of a response whose status
    was ok, up to the check that some text was found. *)
Definition responseTextOf (data : value) : result string :=
  err <- get data "error" ;;
  if truthy err then Throw (ApiError err) else
  let candidates := prop data "candidates" in
  if negb (truthy candidates) || isZero (lengthOf candidates)
  then Throw (NoCandidates data) else
  let candidate := first candidates in
  finishReason <- get candidate "finishReason" ;;
  if isString finishReason "MAX_TOKENS" then Throw Truncated else
  let content := prop candidate "content" in
  if negb (truthy content) then Throw (NoContent candidate) else
  let parts := prop content "parts" in
  withParts <- hasParts parts ;;
  responseText <-
    (if withParts
     then textOfParts parts
     else textWithoutParts data candidate) ;;
  if negb (truthy responseText) || isZero (lengthOf responseText)
  then Throw (CouldNotExtract data)
  else
    (* responseText.substring(0, 1000), for the log *)
    match responseText with
    | VStr s => Ok s
    | _ => Throw TypeError
    end.

(** *** Finding the JSON object in the text (the normalizer) *)

(** Does [s] begin with [p], letters compared without case? *)
Definition startsWithNoCase (s p : string) : bool :=
  startsWith (toLowerCase (take (String.length p) s)) p.

(** [s.replace(/^```json\s*/i, empty)] *)
Definition stripJsonFence (s : string) : string :=
  if startsWithNoCase s "```json" then trimStart (drop 7 s) else s.

(** [s.replace(/^```\s*/i, empty)] *)
Definition stripOpeningFence (s : string) : string :=
  if startsWith s "```" then trimStart (drop 3 s) else s.

Definition atLineEnd (s : string) : bool :=
  match s with
  | EmptyString => true
  | String c _ => isLineTerminator c
  end.

(** The match of [/\s*```$/m] that starts at the beginning of [s], when
    there is one: what follows it in [s]. *)
Definition closingFenceAt (s : string) : option string :=
  let r := trimStart s in
  if startsWith r "```" && atLineEnd (drop 3 r) then Some (drop 3 r) else None.

(** [s.replace(/\s*```$/m, empty)]: the leftmost match is removed. *)
Fixpoint stripClosingFence (s : string) : string :=
  match closingFenceAt s with
  | Some rest => rest
  | None =>
      match s with
      | EmptyString => EmptyString
      | String c s' => String c (stripClosingFence s')
      end
  end.

Definition stripFences (s : string) : string :=
  stripClosingFence (stripOpeningFence (stripClosingFence (stripJsonFence s))).

(** The loop that counts braces: [s] is the text from index [i] on.  The
    result is [lastBrace]; [None] is its initial [-1]. *)
Fixpoint scanBraces (s : string) (i : nat) (braceCount : Z) : option nat :=
  match s with
  | EmptyString => None
  | String c s' =>
      let braceCount := if Ascii.eqb c "{" then braceCount + 1 else braceCount in
      if Ascii.eqb c "}" then
        let braceCount := braceCount - 1 in
        if braceCount =? 0 then Some i else scanBraces s' (S i) braceCount
      else scanBraces s' (S i) braceCount
  end.

(** [jsonText], from [responseText]. *)
Definition extractJsonText (responseText : string) : result string :=
  let jsonText := stripFences responseText in
  match indexOf jsonText "{" with
  | None => Throw (NoJsonObject responseText)
  | Some firstBrace =>
      match scanBraces (drop firstBrace jsonText) firstBrace 0 with
      | None => Throw (IncompleteJson responseText)
      | Some lastBrace =>
          if (lastBrace <=? firstBrace)%nat
          then Throw (IncompleteJson responseText)
          else Ok (substring firstBrace (lastBrace + 1) jsonText)
      end
  end.

(** *** Coercion into the fixed schema *)

Record QuizQuestion : Type := mkQuizQuestion {
  id : value;
  question : value;
  options : list value;
  correctOptionIndexes : list value;
  category : value;
  explanation : value;
  weight : value
}.

(** The types of the interface are erased when the code runs: a field holds
    whatever value the parsed object had there.  [quizQuestions] is [None]
    while the property is absent. *)
Record PediatricSummary : Type := mkPediatricSummary {
  simpleExplanation : value;
  whatToDo : list value;
  whatNotToDo : list value;
  redFlags : list value;
  medications : list value;
  followUp : list value;
  expectedCourse : value;
  quizQuestions : option (list QuizQuestion)
}.

Definition defaultExplanation : string :=
  "The discharge summary was processed, but no explanation could be extracted.".

Definition defaultCourse : string :=
  "The discharge summary does not specify what to expect over the next few days.".

(** [Array.isArray(v) ? v : []] *)
Definition arrayOrEmpty (v : value) : list value :=
  match v with
  | VArr l => l
  | _ => []
  end.

(** The object literal [summary]. *)
Definition coerceSummary (parsed : value) : result PediatricSummary :=
  explanation <- get parsed "simpleExplanation" ;;
  Ok {| simpleExplanation := or_else explanation (VStr defaultExplanation);
        whatToDo := arrayOrEmpty (prop parsed "whatToDo");
        whatNotToDo := arrayOrEmpty (prop parsed "whatNotToDo");
        redFlags := arrayOrEmpty (prop parsed "redFlags");
        medications := arrayOrEmpty (prop parsed "medications");
        followUp := arrayOrEmpty (prop parsed "followUp");
        expectedCourse := or_else (prop parsed "expectedCourse") (VStr defaultCourse);
        quizQuestions := None |}.

(** *** The quiz sanitizer *)

Definition metaOptions : list string :=
  [ "all of the above";
    "none of the above";
    "all of the options above";
    "none of the options above";
    "a and b";
    "a and b only";
    "both a and b" ].

(** [xs.includes(t)] on an array of strings. *)
Definition listIncludes (xs : list string) (t : string) : bool :=
  existsb (String.eqb t) xs.

(** The callback that filters the options. *)
Definition keepOption (opt : value) : result bool :=
  if negb (truthy opt) then Ok false else
  match opt with
  | VStr s =>
      let t := toLowerCase (trim s) in
      if String.eqb t EmptyString then Ok false
      else Ok (negb (listIncludes metaOptions t))
  | _ => Throw TypeError
  end.

(** [xs.filter(f)] for a callback that can throw. *)
Fixpoint filterM {A : Type} (f : A -> result bool) (xs : list A)
  : result (list A) :=
  match xs with
  | [] => Ok []
  | x :: xs' =>
      keep <- f x ;;
      rest <- filterM f xs' ;;
      Ok (if keep then x :: rest else rest)
  end.

(** [xs.map(f)] for a callback that can throw. *)
Fixpoint mapM {A B : Type} (f : A -> result B) (xs : list A)
  : result (list B) :=
  match xs with
  | [] => Ok []
  | x :: xs' =>
      y <- f x ;;
      rest <- mapM f xs' ;;
      Ok (y :: rest)
  end.

(** The callback that filters the raw questions. *)
Definition wanted (q : value) : bool :=
  truthy q && truthy (prop q "question") && isArray (prop q "options")
  && (2 <=? Z.of_nat (List.length (arrayOrEmpty (prop q "options")))).

(** The callback that filters the correct indexes. *)
Definition validIndex (maxIndex : Z) (idx : value) : bool :=
  match integerValue idx with
  | Some z => (0 <=? z) && (z <=? maxIndex)
  | None => false
  end.

(** [v.filter(f)]: only an array has the method. *)
Definition callFilter (v : value) (f : value -> bool) : result (list value) :=
  match v with
  | VArr l => Ok (filter f l)
  | _ => Throw TypeError
  end.

(** [v.slice(0, n)]: strings and arrays have the method. *)
Definition callSlice (v : value) (n : nat) : result value :=
  match v with
  | VStr s => Ok (VStr (take n s))
  | VArr l => Ok (VArr (firstn n l))
  | _ => Throw TypeError
  end.

(** The [switch] on the category. *)
Definition defaultWeight (category : value) : Z :=
  if isString category "redFlag" then 30
  else if isString category "medication" then 25
  else if isString category "followUp" then 20
  else 15.

(** The callback that maps a raw question that passed [wanted]. *)
Definition sanitizeQuestion (q : value) : result QuizQuestion :=
  cleanedOptions <- filterM keepOption (arrayOrEmpty (prop q "options")) ;;
  let options := firstn 4 cleanedOptions in
  let maxIndex := Z.of_nat (List.length options) - 1 in
  indexes <- callFilter (or_else (prop q "correctOptionIndexes") (VArr []))
               (validIndex maxIndex) ;;
  let uniqueCorrectIndexes := Array_from_Set indexes in
  let weight := prop q "weight" in
  let weight :=
    if negb (isNumber weight) || Number_isNaN weight
    then VNum (Int (defaultWeight (prop q "category")))
    else weight in
  id <- (if truthy (prop q "id") then Ok (prop q "id")
         else callSlice (prop q "question") 32) ;;
  Ok {| id := id;
        question := prop q "question";
        options := options;
        correctOptionIndexes :=
          if (0 <? Z.of_nat (List.length uniqueCorrectIndexes))
          then uniqueCorrectIndexes else [VNum (Int 0)];
        category := nullish_or (prop q "category") (VStr "care");
        explanation := prop q "explanation";
        weight := weight |}.

Definition withQuiz (summary : PediatricSummary) (qs : list QuizQuestion)
  : PediatricSummary :=
  {| simpleExplanation := simpleExplanation summary;
     whatToDo := whatToDo summary;
     whatNotToDo := whatNotToDo summary;
     redFlags := redFlags summary;
     medications := medications summary;
     followUp := followUp summary;
     expectedCourse := expectedCourse summary;
     quizQuestions := Some qs |}.

(** From the parsed object to the summary that is returned. *)
Definition normalizeParsed (parsed : value) : result PediatricSummary :=
  summary <- coerceSummary parsed ;;
  match prop parsed "quizQuestions" with
  | VArr raw =>
      qs <- mapM sanitizeQuestion (filter wanted raw) ;;
      Ok (withQuiz summary qs)
  | _ => Ok summary
  end.

(** *** The keyword fallback of the grader *)

Record Grade : Type := mkGrade {
  isCorrect : value;
  feedback : value
}.

(** The code units accepted by the class of [/[;,\s]+/]. *)
Definition keywordSeparator (c : ascii) : bool :=
  Ascii.eqb c ";" || Ascii.eqb c "," || isWhiteSpace c.

Definition keywordsOf (correctAnswer : string) : list string :=
  splitRuns keywordSeparator false (toLowerCase correctAnswer).

Definition matchedKeywordsOf (correctAnswer userAnswer : string) : list string :=
  let answerLower := toLowerCase userAnswer in
  filter (fun kw => (3 <? String.length kw)%nat && includes answerLower kw)
         (keywordsOf correctAnswer).

(** [matchedKeywords.length >= Math.min(3, keywords.length / 3)].  The
    quotient is not rounded to an integer; a count compares with it as with
    the exact fraction. *)
Definition enoughKeywords (matched total : nat) : bool :=
  Qle_bool (Qmin 3 (inject_Z (Z.of_nat total) / 3)) (inject_Z (Z.of_nat matched)).

Definition fallbackGrade (correctAnswer userAnswer : string) : Grade :=
  let keywords := keywordsOf correctAnswer in
  let matchedKeywords := matchedKeywordsOf correctAnswer userAnswer in
  let isCorrect :=
    enoughKeywords (List.length matchedKeywords) (List.length keywords) in
  {| isCorrect := VBool isCorrect;
     feedback :=
       VStr (if isCorrect
             then "Great! You've correctly identified the key points."
             else "The key points to remember are: "
                  ++ join ", " (firstn 2 (splitChar ";" correctAnswer))
                  ++ ". Try to include these in your answer.") |}.

(** *** The two exported functions *)

(** What [fetch] delivered: a rejection, or a response with its [ok] flag,
    its status and the text of its body. *)
Inductive fetched : Type :=
  | NetworkFailure
  | Response (ok : bool) (status : Z) (body : string).

(** [s.replace(/\s*```$/, empty)], without the multiline flag: the fence has
    to end the text. *)
Fixpoint stripFinalFence (s : string) : string :=
  if String.eqb (trimStart s) "```" then EmptyString
  else
    match s with
    | EmptyString => EmptyString
    | String c s' => String c (stripFinalFence s')
    end.

(** The fences of the grader. *)
Definition stripGraderFences (jsonText : string) : string :=
  if startsWith jsonText "```json"
  then stripFinalFence (trimStart (drop 7 jsonText))
  else if startsWith jsonText "```"
  then stripFinalFence (trimStart (drop 3 jsonText))
  else jsonText.

Section Parser.

(** [JSON.parse], the parser of the platform; [None] is the [SyntaxError]
    it throws. *)
Variable JSON_parse : string -> option value.

(** [await response.json()], after the check of [response.ok]. *)
Definition bodyOf (response : fetched) : result value :=
  match response with
  | NetworkFailure => Throw NetworkError
  | Response ok status body =>
      if negb ok then Throw (HttpError status body)
      else
        match JSON_parse body with
        | Some data => Ok data
        | None => Throw SyntaxError
        end
  end.

(** The normalizer: from the raw text of the model to the summary. *)
Definition normalize (responseText : string) : result PediatricSummary :=
  jsonText <- extractJsonText responseText ;;
  match JSON_parse jsonText with
  | None => Throw (ParseFailure responseText)
  | Some parsed => normalizeParsed parsed
  end.

(** The body of the [try] of [processDischargeSummary]. *)
Definition processDischargeSummary (response : fetched)
  : result PediatricSummary :=
  data <- bodyOf response ;;
  responseText <- responseTextOf data ;;
  normalize responseText.

(** The body of the [try] of [gradeQuizAnswer]. *)
Definition gradeAttempt (response : fetched) : result Grade :=
  data <- bodyOf response ;;
  err <- get data "error" ;;
  if truthy err then Throw (ApiError err) else
  let candidates := prop data "candidates" in
  if negb (truthy candidates) || isZero (lengthOf candidates)
  then Throw (NoCandidates data) else
  let candidate := first candidates in
  content <- get candidate "content" ;;
  if negb (truthy content) then Throw (NoContent candidate) else
  let parts := prop content "parts" in
  if negb (truthy parts) || isZero (lengthOf parts)
  then Throw (NoParts content) else
  text <- get (first parts) "text" ;;
  responseText <-
    (if truthy text then callTrim text
     else
       let inlineData := prop (first parts) "inlineData" in
       if truthy inlineData then Ok (prop inlineData "data")
       else Ok (stringified data)) ;;
  match responseText with
  | VStr jsonText =>
      match JSON_parse (stripGraderFences jsonText) with
      | None => Throw SyntaxError
      | Some parsed =>
          verdict <- get parsed "isCorrect" ;;
          Ok {| isCorrect := nullish_or verdict (VBool false);
                feedback := or_else (prop parsed "feedback")
                                    (VStr "Thank you for your answer.") |}
      end
  | _ => Throw TypeError
  end.

(** [gradeQuizAnswer]: the [catch] answers with the keyword check. *)
Definition gradeQuizAnswer (response : fetched)
    (question correctAnswer userAnswer summaryContext : string) : Grade :=
  match gradeAttempt response with
  | Ok grade => grade
  | Throw _ => fallbackGrade correctAnswer userAnswer
  end.

End Parser.

(** *** Serializing a summary again *)

Definition questionValue (q : QuizQuestion) : value :=
  VObj [ ("id", id q);
         ("question", question q);
         ("options", VArr (options q));
         ("correctOptionIndexes", VArr (correctOptionIndexes q));
         ("category", category q);
         ("explanation", explanation q);
         ("weight", weight q) ].

(** The object [summary] as a value. *)
Definition summaryValue (s : PediatricSummary) : value :=
  VObj ([ ("simpleExplanation", simpleExplanation s);
          ("whatToDo", VArr (whatToDo s));
          ("whatNotToDo", VArr (whatNotToDo s));
          ("redFlags", VArr (redFlags s));
          ("medications", VArr (medications s));
          ("followUp", VArr (followUp s));
          ("expectedCourse", expectedCourse s) ]
        ++ match quizQuestions s with
           | Some qs => [("quizQuestions", VArr (map questionValue qs))]
           | None => []
           end).

(** [JSON.stringify(summary)] *)
Definition serialize (s : PediatricSummary) : string :=
  stringify (summaryValue s).

(** The value [JSON.parse] builds from [JSON.stringify(summary)] when every
    number in the summary is finite and is not [-0]: the same structure,
    without the members that hold [undefined]. *)
Definition questionRead (q : QuizQuestion) : value :=
  VObj ([ ("id", id q);
          ("question", question q);
          ("options", VArr (options q));
          ("correctOptionIndexes", VArr (correctOptionIndexes q));
          ("category", category q) ]
        ++ match explanation q with
           | VUndefined => []
           | e => [("explanation", e)]
           end
        ++ [("weight", weight q)]).

Definition summaryRead (s : PediatricSummary) : value :=
  VObj ([ ("simpleExplanation", simpleExplanation s);
          ("whatToDo", VArr (whatToDo s));
          ("whatNotToDo", VArr (whatNotToDo s));
          ("redFlags", VArr (redFlags s));
          ("medications", VArr (medications s));
          ("followUp", VArr (followUp s));
          ("expectedCourse", expectedCourse s) ]
        ++ match quizQuestions s with
           | Some qs => [("quizQuestions", VArr (map questionRead qs))]
           | None => []
           end).

(** *** Notions the statements use *)

Fixpoint noChar (c : ascii) (s : string) : bool :=
  match s with
  | EmptyString => true
  | String a s' => negb (Ascii.eqb a c) && noChar c s'
  end.

(** Braces counted with no regard to string literals: [nested d s] holds
    when, entered at depth [d], the text [s] never closes a brace it has not
    opened and ends at depth 0. *)
Fixpoint nested (d : nat) (s : string) : bool :=
  match s with
  | EmptyString => (d =? 0)%nat
  | String c s' =>
      if Ascii.eqb c "{" then nested (S d) s'
      else if Ascii.eqb c "}" then
        match d with
        | O => false
        | S d' => nested d' s'
        end
      else nested d s'
  end.

(** No brace at all in a text, and in the strings, keys and number texts of
    a value. *)
Definition noBrace (s : string) : bool := noChar "{" s && noChar "}" s.

Fixpoint braceFree (v : value) : bool :=
  match v with
  | VStr s => noBrace s
  | VNum (Frac r) => noBrace r
  | VArr l => forallb braceFree l
  | VObj m => forallb (fun '(k, v') => noBrace k && braceFree v') m
  | _ => true
  end.

(** No backtick in the strings, keys and number texts of a value. *)
Fixpoint tickFree (v : value) : bool :=
  match v with
  | VStr s => noChar "`" s
  | VNum (Frac r) => noChar "`" r
  | VArr l => forallb tickFree l
  | VObj m => forallb (fun '(k, v') => noChar "`" k && tickFree v') m
  | _ => true
  end.

(** A text that leaves the count of braces as it found it. *)
Definition neutral (a : string) : Prop :=
  forall (d : nat) (b : string), nested d (a ++ b) = nested d b.

(** An object text whose braces pair up: an opening brace, a nested inside,
    the closing brace. *)
Definition balancedObject (obj : string) : Prop :=
  exists inside, obj = "{" ++ inside ++ "}" /\ nested 0 inside = true.

(** The text between two fences: it holds no backtick and neither begins
    nor ends with white space. *)
Definition fenceBody (body : string) : Prop :=
  noChar "`" body = true /\ trimStart body = body /\ trimEnd body = body.

(** The text after a closing fence: it holds no backtick and is empty or
    begins a new line, so that the fence ends its line. *)
Definition fenceTail (tail : string) : Prop :=
  noChar "`" tail = true /\ atLineEnd tail = true.

(** [wrapped raw inner]: what the raw text is, and the text [inner] that is
    left of it once the fences are gone.  The raw text is [inner] as it
    stands and holds no backtick; or a [body] stands between an opening
    fence with the word json (in any case) and a closing fence; or between
    a plain opening fence, followed by white space, and a closing fence.
    The [tail] after the closing fence stays; so does the white space after
    a plain opening fence that ends its line. *)
Inductive wrapped : string -> string -> Prop :=
  | Bare (inner : string) :
      noChar "`" inner = true ->
      wrapped inner inner
  | Fenced (word gap body gap' tail : string) :
      toLowerCase word = "json" ->
      allWhiteSpace gap = true ->
      allWhiteSpace gap' = true ->
      fenceBody body -> fenceTail tail ->
      wrapped ("```" ++ word ++ gap ++ body ++ gap' ++ "```" ++ tail)
              (body ++ tail)
  | FencedLine (c : ascii) (gap body gap' tail : string) :
      isLineTerminator c = true ->
      allWhiteSpace gap = true ->
      allWhiteSpace gap' = true ->
      fenceBody body -> body <> EmptyString -> fenceTail tail ->
      wrapped ("```" ++ String c gap ++ body ++ gap' ++ "```" ++ tail)
              (String c gap ++ body ++ tail)
  | FencedSpace (c : ascii) (gap body gap' tail : string) :
      isWhiteSpace c = true ->
      isLineTerminator c = false ->
      allWhiteSpace gap = true ->
      allWhiteSpace gap' = true ->
      fenceBody body -> body <> EmptyString -> fenceTail tail ->
      wrapped ("```" ++ String c gap ++ body ++ gap' ++ "```" ++ tail)
              (body ++ tail).

(** The text goes on with a line break. *)
Definition lineBreakAt (s : string) : bool :=
  match s with
  | String c _ => isLineTerminator c
  | EmptyString => false
  end.

(** No three backticks of [s] are followed, in [s], by a line break: the
    pattern of the closing fence matches nowhere inside [s], whatever comes
    after a last character of [s] that is no backtick. *)
Fixpoint fenceFree (s : string) : bool :=
  match s with
  | EmptyString => true
  | String c s' =>
      negb (startsWith s "```" && lineBreakAt (drop 3 s)) && fenceFree s'
  end.

(** No line feed and no carriage return in a text, and in the number texts
    of a value. *)
Definition noBreak (s : string) : bool := noChar "010" s && noChar "013" s.

Fixpoint breakFree (v : value) : bool :=
  match v with
  | VNum (Frac r) => noChar "010" r && noChar "013" r
  | VArr l => forallb breakFree l
  | VObj m => forallb (fun '(k, v') => breakFree v') m
  | _ => true
  end.

(** The code units that end a token of the reference answer: the semicolon,
    the comma, and the white space TAB, LF, VT, FF, CR, SPACE and NO-BREAK
    SPACE. *)
Definition separators : list ascii :=
  [";"; ","; "009"; "010"; "011"; "012"; "013"; " "; "160"]%char.

Definition separator (c : ascii) : bool :=
  existsb (Ascii.eqb c) separators.

(** No code unit of [t] is a separator. *)
Fixpoint tokenText (t : string) : bool :=
  match t with
  | EmptyString => true
  | String c t' => negb (separator c) && tokenText t'
  end.

(** A non-empty run of separators. *)
Fixpoint separatorText (s : string) : bool :=
  match s with
  | EmptyString => true
  | String c s' => separator c && separatorText s'
  end.

Definition separatorRun (s : string) : bool :=
  negb (String.eqb s EmptyString) && separatorText s.

(** The text does not go on with a separator. *)
Definition startsToken (s : string) : bool :=
  match s with
  | EmptyString => true
  | String c _ => negb (separator c)
  end.

(** [tokenized s ts]: the tokens [ts] are the pieces of [s] between its
    maximal runs of separators, in their order; a run at the start or at
    the end of [s] leaves an empty first or last token. *)
Inductive tokenized : string -> list string -> Prop :=
  | tokenized_last (t : string) :
      tokenText t = true -> tokenized t [t]
  | tokenized_more (t run rest : string) (ts : list string) :
      tokenText t = true -> separatorRun run = true ->
      startsToken rest = true -> tokenized rest ts ->
      tokenized (t ++ run ++ rest) (t :: ts).

(** The round trip of the grader delivers the reply [t]: the response is ok,
    its body parses to an envelope without an error payload, and the first
    part of the content of its first candidate holds the text [t], which is
    not empty. *)
Definition delivers (JSON_parse : string -> option value)
    (response : fetched) (t : string) : Prop :=
  exists status body dm cm pm others rest,
    response = Response true status body
    /\ JSON_parse body = Some (VObj dm)
    /\ truthy (lookup "error" dm) = false
    /\ lookup "candidates" dm = VArr (VObj cm :: others)
    /\ truthy (lookup "content" cm) = true
    /\ prop (lookup "content" cm) "parts" = VArr (VObj pm :: rest)
    /\ lookup "text" pm = VStr t
    /\ t <> EmptyString.

(** The failures of the round trip that the statement names. *)
Inductive roundTripFails (JSON_parse : string -> option value)
  : fetched -> Prop :=
  | fails_network :
      roundTripFails JSON_parse NetworkFailure
  | fails_status (status : Z) (body : string) :
      roundTripFails JSON_parse (Response false status body)
  | fails_body (status : Z) (body : string) :
      JSON_parse body = None ->
      roundTripFails JSON_parse (Response true status body)
  | fails_error (status : Z) (body : string) (dm : list (string * value)) :
      JSON_parse body = Some (VObj dm) ->
      truthy (lookup "error" dm) = true ->
      roundTripFails JSON_parse (Response true status body)
  | fails_candidates (status : Z) (body : string)
      (dm : list (string * value)) :
      JSON_parse body = Some (VObj dm) ->
      truthy (lookup "error" dm) = false ->
      truthy (lookup "candidates" dm) = false
      \/ lookup "candidates" dm = VArr [] ->
      roundTripFails JSON_parse (Response true status body)
  | fails_content (status : Z) (body : string)
      (dm cm : list (string * value)) (others : list value) :
      JSON_parse body = Some (VObj dm) ->
      truthy (lookup "error" dm) = false ->
      lookup "candidates" dm = VArr (VObj cm :: others) ->
      truthy (lookup "content" cm) = false ->
      roundTripFails JSON_parse (Response true status body)
  | fails_parts (status : Z) (body : string)
      (dm cm : list (string * value)) (others : list value) :
      JSON_parse body = Some (VObj dm) ->
      truthy (lookup "error" dm) = false ->
      lookup "candidates" dm = VArr (VObj cm :: others) ->
      truthy (lookup "content" cm) = true ->
      truthy (prop (lookup "content" cm) "parts") = false
      \/ prop (lookup "content" cm) "parts" = VArr [] ->
      roundTripFails JSON_parse (Response true status body)
  | fails_reply (response : fetched) (t : string) :
      delivers JSON_parse response t ->
      JSON_parse (stripGraderFences (trim t)) = None ->
      roundTripFails JSON_parse response
  | fails_null (response : fetched) (t : string) :
      delivers JSON_parse response t ->
      JSON_parse (stripGraderFences (trim t)) = Some VNull ->
      roundTripFails JSON_parse response.

(** The separators a text begins with, and what follows them. *)
Fixpoint leadingRun (s : string) : string :=
  match s with
  | String c s' => if separator c then String c (leadingRun s') else EmptyString
  | EmptyString => EmptyString
  end.

Fixpoint afterRun (s : string) : string :=
  match s with
  | String c s' => if separator c then afterRun s' else s
  | EmptyString => EmptyString
  end.

(** The selected field holds no text: it is falsy, or its length is 0. *)
Definition holdsNoText (v : value) : bool :=
  negb (truthy v) || isZero (lengthOf v).

(** What the first part [pm] offers holds no text: a [text] of white space
    only, or, without a truthy [text], a truthy [inlineData] whose [data]
    holds no text. *)
Definition partWithoutText (pm : list (string * value)) : Prop :=
  (exists t, lookup "text" pm = VStr t /\ t <> EmptyString
             /\ trim t = EmptyString)
  \/ (truthy (lookup "text" pm) = false
      /\ truthy (lookup "inlineData" pm) = true
      /\ holdsNoText (prop (lookup "inlineData" pm) "data") = true).

(** Without parts: the [text] of the candidate, or without a truthy one the
    [text] of the response, is white space only. *)
Definition textWithoutText (dm cm : list (string * value)) : Prop :=
  (exists t, lookup "text" cm = VStr t /\ t <> EmptyString
             /\ trim t = EmptyString)
  \/ (truthy (lookup "text" cm) = false
      /\ exists t, lookup "text" dm = VStr t /\ t <> EmptyString
                   /\ trim t = EmptyString).

(** An option the sanitizer is meant to keep: a string that is not blank and
    whose trimmed, lower-cased text is none of the meta answers. *)
Definition survives (opt : value) : bool :=
  match opt with
  | VStr s =>
      negb (String.eqb (trim s) EmptyString)
      && negb (listIncludes metaOptions (toLowerCase (trim s)))
  | _ => false
  end.

(** [Subseq xs ys]: [xs] is [ys] with some elements left out, the others in
    their order. *)
Inductive Subseq {A : Type} : list A -> list A -> Prop :=
  | Subseq_nil : Subseq [] []
  | Subseq_skip x xs ys : Subseq xs ys -> Subseq xs (x :: ys)
  | Subseq_keep x xs ys : Subseq xs ys -> Subseq (x :: xs) (x :: ys).



(** The fields of the summary that come from arrays, by name. *)
Definition arrayField (name : string) (s : PediatricSummary) : list value :=
  if String.eqb name "whatToDo" then whatToDo s
  else if String.eqb name "whatNotToDo" then whatNotToDo s
  else if String.eqb name "redFlags" then redFlags s
  else if String.eqb name "medications" then medications s
  else followUp s.

Definition arrayFields : list string :=
  ["whatToDo"; "whatNotToDo"; "redFlags"; "medications"; "followUp"].

Definition isInt (v : value) : Prop := exists z, v = VNum (Int z).

(** What the sanitizer establishes of a question it returns. *)
Definition sanitized (q : QuizQuestion) : Prop :=
  truthy (question q) = true
  /\ truthy (id q) = true
  /\ Forall (fun opt => survives opt = true) (options q)
  /\ (List.length (options q) <= 4)%nat
  /\ NoDup (correctOptionIndexes q)
  /\ correctOptionIndexes q <> []
  /\ Forall (fun v => exists z, v = VNum (Int z)
               /\ 0 <= z <= Z.max 0 (Z.of_nat (List.length (options q)) - 1))
            (correctOptionIndexes q)
  /\ isNumber (weight q) = true
  /\ Number_isNaN (weight q) = false
  /\ nullish_or (category q) (VStr "care") = category q.

(** What the normalizer establishes of a summary it returns. *)
Definition normalized (s : PediatricSummary) : Prop :=
  truthy (simpleExplanation s) = true
  /\ truthy (expectedCourse s) = true
  /\ forall qs, quizQuestions s = Some qs -> Forall sanitized qs.

(** Every question of the summary has two options or more. *)
Definition twoOptionsEach (s : PediatricSummary) : Prop :=
  forall qs q, quizQuestions s = Some qs -> In q qs ->
               (2 <= List.length (options q))%nat.

End Gemini.

(** ** Sample inputs *)

Module Samples.
Import JS Gemini.

Definition newline : string := String "010" EmptyString.

(** An object with a closing brace inside a string value. *)
Definition braceValue : value := VObj [("a", VStr "}")].

(** A fenced response followed by a sentence, as in Example 3. *)
Definition fencedResponse : string :=
  "```json" ++ newline ++ dq "{'whatToDo':['Rest {at home}']}" ++ newline
  ++ "```" ++ newline ++ "That is the summary.".

(** Example 1: [whatToDo] is a string. *)
Definition stringWhatToDo : list (string * value) :=
  [ ("simpleExplanation", VStr "Your child had a fever.");
    ("whatToDo", VStr "Give paracetamol");
    ("redFlags", VArr [VStr "Trouble breathing"]) ].

(** Arrays whose elements are not what the interface expects. *)
Definition looseArrays : list (string * value) :=
  [ ("whatToDo", VArr [VNum (Int 42); VNull]);
    ("medications", VArr [VObj [("notes", VStr "with food")]]) ].

Definition rawQuestion (opts : list string) (indexes : list value) : value :=
  VObj [ ("question", VStr "When should you call the doctor?");
         ("options", VArr (map VStr opts));
         ("correctOptionIndexes", VArr indexes) ].

(** Example 2. *)
Definition metaQuestion : value :=
  rawQuestion ["Call the doctor"; "Go to ER"; "All of the above"]
              [VNum (Int 0); VNum (Int 1); VNum (Int 2)].

(** Two options, both of them meta answers. *)
Definition onlyMetaQuestion : value :=
  rawQuestion ["All of the above"; "None of the above"] [VNum (Int 0)].

(** A meta answer with a full stop. *)
Definition punctuatedQuestion : value :=
  rawQuestion ["Yes"; "No"; "All of the above."] [VNum (Int 0)].

(** Five options, two of them meta answers. *)
Definition fiveOptionQuestion : value :=
  rawQuestion ["Fever"; "Rash"; "All of the above"; "Cough"; "None of the above"]
              [VNum (Int 1)].


(** A repeated index and a negative zero. *)
Definition repeatedIndexQuestion : value :=
  rawQuestion ["Fever"; "Rash"; "Cough"]
              [VNum (Int 2); VNum NegZero; VNum (Int 2); VNum (Int 7)].

(** A response whose only part has neither text nor inline data. *)
Definition unknownPart : value := VObj [("foo", VNum (Int 1))].

Definition candidateOf (content : value) : list (string * value) :=
  [("content", content)].

Definition envelope (content : value) : list (string * value) :=
  [("candidates", VArr [VObj (candidateOf content)])].

Definition unknownPartContent : value := VObj [("parts", VArr [unknownPart])].

Definition unknownPartResponse : value := VObj (envelope unknownPartContent).

Definition noPartsContent : value := VObj [("role", VStr "model")].

Definition noPartsResponse : value := VObj (envelope noPartsContent).

(** A question that keeps one option only. *)
Definition oneLeftParsed : value :=
  VObj [("quizQuestions",
         VArr [VObj [("question", VStr "Is rest needed?");
                     ("options", VArr [VStr "Yes"; VStr "All of the above"])]])].

Definition oneLeftText : string :=
  dq "{'quizQuestions':[{'question':'Is rest needed?','options':['Yes','All of the above']}]}".

Definition oneLeftQuestion : QuizQuestion :=
  {| id := VStr "Is rest needed?";
     question := VStr "Is rest needed?";
     options := [VStr "Yes"];
     correctOptionIndexes := [VNum (Int 0)];
     category := VStr "care";
     explanation := VUndefined;
     weight := VNum (Int 15) |}.

Definition oneLeftSummary (qs : list QuizQuestion) : PediatricSummary :=
  {| simpleExplanation := VStr defaultExplanation;
     whatToDo := []; whatNotToDo := []; redFlags := [];
     medications := []; followUp := [];
     expectedCourse := VStr defaultCourse;
     quizQuestions := Some qs |}.

(** A parser that knows two texts and reads each as [JSON.parse] does. *)
Definition oneLeftParser (text : string) : option value :=
  if String.eqb text oneLeftText then Some oneLeftParsed
  else if String.eqb text (serialize (oneLeftSummary [oneLeftQuestion]))
  then Some (summaryRead (oneLeftSummary [oneLeftQuestion]))
  else None.

(** A summary with a two-option question, its text, and a parser that knows
    the text and its serialization. *)
Definition twoLeftText : string :=
  dq "{'redFlags':['Fever'],'quizQuestions':[{'question':'Is rest needed?','options':['Yes','No','All of the above'],'correctOptionIndexes':[0,2],'explanation':null,'weight':40}]}".

Definition twoLeftParsed : value :=
  VObj [("redFlags", VArr [VStr "Fever"]);
        ("quizQuestions",
         VArr [VObj [("question", VStr "Is rest needed?");
                     ("options", VArr [VStr "Yes"; VStr "No"; VStr "All of the above"]);
                     ("correctOptionIndexes", VArr [VNum (Int 0); VNum (Int 2)]);
                     ("explanation", VNull);
                     ("weight", VNum (Int 40))]])].

Definition twoLeftSummary : PediatricSummary :=
  {| simpleExplanation := VStr defaultExplanation;
     whatToDo := []; whatNotToDo := []; redFlags := [VStr "Fever"];
     medications := []; followUp := [];
     expectedCourse := VStr defaultCourse;
     quizQuestions :=
       Some [ {| id := VStr "Is rest needed?";
                 question := VStr "Is rest needed?";
                 options := [VStr "Yes"; VStr "No"];
                 correctOptionIndexes := [VNum (Int 0)];
                 category := VStr "care";
                 explanation := VNull;
                 weight := VNum (Int 40) |} ] |}.

Definition twoLeftParser (text : string) : option value :=
  if String.eqb text twoLeftText then Some twoLeftParsed
  else if String.eqb text (serialize twoLeftSummary)
  then Some (summaryRead twoLeftSummary)
  else None.

(** An object whose braces pair up in the order of the text, not in the
    order in which the summary is serialized. *)
Definition braceOrderText : string :=
  dq "{'whatToDo':['{'],'simpleExplanation':'}'}".

Definition braceOrderParsed : value :=
  VObj [("whatToDo", VArr [VStr "{"]); ("simpleExplanation", VStr "}")].

Definition braceOrderSummary : PediatricSummary :=
  {| simpleExplanation := VStr "}";
     whatToDo := [VStr "{"]; whatNotToDo := []; redFlags := [];
     medications := []; followUp := [];
     expectedCourse := VStr defaultCourse;
     quizQuestions := None |}.

(** A parser that knows one text, reads it as [JSON.parse] does, and rejects
    the others, among them a text that stops inside a string literal. *)
Definition braceOrderParser (text : string) : option value :=
  if String.eqb text braceOrderText then Some braceOrderParsed else None.

(** A parser that never succeeds. *)
Definition noParser (text : string) : option value := None.

(** A parser that knows the empty object. *)
Definition emptyObjectParser (text : string) : option value :=
  if String.eqb text "{}" then Some (VObj []) else None.

Definition referenceAnswer : string :=
  "avoid juice; avoid soda; avoid greasy food".

End Samples.

(** ** The input form [components/SummaryInput] *)

Module SummaryInput.
Import JS.

(** [handleSubmit]: the text typed is handed to [onSubmit] as it is, unless
    what is left of it without the white space around it is shorter than 50.
    [None] is the return with nothing submitted. *)
Definition handleSubmit (inputText : string) : option string :=
  if (String.length (trim inputText) <? 50)%nat then None else Some inputText.

End SummaryInput.

(** ** The page [pages/Index] *)

Module Index.
Import JS Gemini.

Inductive AppState : Type := landing | input | summary | quiz | export.

(** The state the page keeps with [useState]; the quiz answers are the
    values the quiz hands over. *)
Record state : Type := mkState {
  appState : AppState;
  shown : option PediatricSummary;
  isProcessing : bool;
  quizScore : value;
  quizAnswers : list value
}.

Definition initial : state :=
  {| appState := landing; shown := None; isProcessing := false;
     quizScore := VNum (Int 0); quizAnswers := [] |}.

Definition handleGetStarted (st : state) : state :=
  {| appState := input; shown := shown st; isProcessing := isProcessing st;
     quizScore := quizScore st; quizAnswers := quizAnswers st |}.

(** [handleSubmitSummary] up to its [await]. *)
Definition submitStarted (st : state) : state :=
  {| appState := appState st; shown := shown st; isProcessing := true;
     quizScore := quizScore st; quizAnswers := quizAnswers st |}.

(** [handleSubmitSummary] after its [await], by what
    [processDischargeSummary] did; the [finally] clears the flag. *)
Definition submitSettled (outcome : result PediatricSummary) (st : state)
  : state :=
  match outcome with
  | Ok summaryResult =>
      {| appState := summary; shown := Some summaryResult;
         isProcessing := false;
         quizScore := quizScore st; quizAnswers := quizAnswers st |}
  | Throw _ =>
      {| appState := appState st; shown := shown st; isProcessing := false;
         quizScore := quizScore st; quizAnswers := quizAnswers st |}
  end.

Definition handleStartQuiz (st : state) : state :=
  {| appState := quiz; shown := shown st; isProcessing := isProcessing st;
     quizScore := quizScore st; quizAnswers := quizAnswers st |}.

Definition handleQuizComplete (score : value) (answers : list value)
    (st : state) : state :=
  {| appState := export; shown := shown st; isProcessing := isProcessing st;
     quizScore := score; quizAnswers := answers |}.

Definition handleStartOver (st : state) : state :=
  {| appState := landing; shown := None; isProcessing := isProcessing st;
     quizScore := VNum (Int 0); quizAnswers := [] |}.

(** The components the page renders, by the guards of its markup. *)
Inductive component : Type :=
  | HeroAndInput | SummaryDisplay | Quiz | PDFExport.

Definition hasSummary (st : state) : bool :=
  match shown st with Some _ => true | None => false end.

Definition rendered (st : state) (c : component) : bool :=
  match c, appState st with
  | HeroAndInput, landing | HeroAndInput, input => true
  | SummaryDisplay, summary => hasSummary st
  | Quiz, quiz => hasSummary st
  | PDFExport, export => hasSummary st
  | _, _ => false
  end.

(** One step of the page.  A component calls the handler it was given only
    while it is rendered; the outcome of a submission arrives whenever it
    arrives; the updates that one handler makes are applied together. *)
Inductive step : state -> state -> Prop :=
  | GetStarted st :
      rendered st HeroAndInput = true -> step st (handleGetStarted st)
  | Submit st :
      rendered st HeroAndInput = true -> step st (submitStarted st)
  | Settle st outcome :
      step st (submitSettled outcome st)
  | StartQuiz st :
      rendered st SummaryDisplay = true -> step st (handleStartQuiz st)
  | QuizComplete st score answers :
      rendered st Quiz = true -> step st (handleQuizComplete score answers st)
  | StartOver st :
      rendered st PDFExport = true -> step st (handleStartOver st).

Inductive reachable : state -> Prop :=
  | reach_initial : reachable initial
  | reach_step st st' : reachable st -> step st st' -> reachable st'.

End Index.

(** ** The endpoint [api/send-doctor-email] *)

Module Email.
Import JS Gemini.

(** *** Platform: text, bytes and base64 *)

(** What a [catch] can receive: an [Error] with its message, a [TypeError]
    of the platform, whose message the platform words, or a value that is
    no [Error]. *)
Inductive thrown : Type :=
  | ErrorThrown (message : string)
  | TypeErrorThrown
  | ValueThrown.

Inductive outcome (A : Type) : Type :=
  | Returned (a : A)
  | Thrown (t : thrown).
Arguments Returned {A} a.
Arguments Thrown {A} t.

(** [Number::toString] inside a text. *)
Definition numberToText (n : number) : string :=
  match n with
  | Int z => integerText z
  | NegZero => "0"
  | Frac r => r
  | Infinite false => "Infinity"
  | Infinite true => "-Infinity"
  | NaN => "NaN"
  end.

(** [xs.join(sep)] for parts that can throw. *)
Fixpoint joinM (sep : string) (xs : list (outcome string)) : outcome string :=
  match xs with
  | [] => Returned EmptyString
  | x :: rest =>
      match x with
      | Thrown t => Thrown t
      | Returned a =>
          match rest with
          | [] => Returned a
          | _ =>
              match joinM sep rest with
              | Returned b => Returned (a ++ sep ++ b)
              | Thrown t => Thrown t
              end
          end
      end
  end.

Definition hasKey (k : string) (m : list (string * value)) : bool :=
  existsb (fun kv => String.eqb k (fst kv)) m.

(** [ToString], the conversion of a template literal.  An array joins the
    texts of its elements with commas, [null] and [undefined] among them
    giving nothing.  An object reads as the fixed text of
    [Object.prototype.toString], unless it has a member [toString] of its
    own: that member is no function, and the conversion throws. *)
Fixpoint toText (v : value) : outcome string :=
  match v with
  | VUndefined => Returned "undefined"
  | VNull => Returned "null"
  | VBool true => Returned "true"
  | VBool false => Returned "false"
  | VNum n => Returned (numberToText n)
  | VStr s => Returned s
  | VArr l =>
      joinM ","
        (map (fun x =>
                match x with
                | VUndefined | VNull => Returned EmptyString
                | _ => toText x
                end) l)
  | VObj m =>
      if hasKey "toString" m then Thrown TypeErrorThrown
      else Returned "[object Object]"
  end.

(** [Buffer.from(s)]: the bytes of the UTF-8 encoding, one byte for a code
    unit below 128 and two for one from 128 to 255. *)
Fixpoint utf8 (s : string) : list N :=
  match s with
  | EmptyString => []
  | String c s' =>
      let n := N_of_ascii c in
      if (n <? 128)%N then n :: utf8 s'
      else (192 + n / 64)%N :: (128 + n mod 64)%N :: utf8 s'
  end.

(** The base64 alphabet. *)
Definition base64Char (n : N) : ascii :=
  if (n <? 26)%N then ascii_of_N (65 + n)
  else if (n <? 52)%N then ascii_of_N (71 + n)
  else if (n <? 62)%N then ascii_of_N (n - 4)
  else if (n =? 62)%N then "+"%char
  else "/"%char.

(** [buffer.toString('base64')] *)
Fixpoint base64 (bytes : list N) : string :=
  match bytes with
  | [] => EmptyString
  | [a] =>
      String (base64Char (a / 4))
        (String (base64Char ((a mod 4) * 16)) "==")
  | [a; b] =>
      String (base64Char (a / 4))
        (String (base64Char ((a mod 4) * 16 + b / 16))
           (String (base64Char ((b mod 16) * 4)) "="))
  | a :: b :: c :: rest =>
      String (base64Char (a / 4))
        (String (base64Char ((a mod 4) * 16 + b / 16))
           (String (base64Char ((b mod 16) * 4 + c / 64))
              (String (base64Char (c mod 64)) (base64 rest))))
  end.

(** [s.replace(/x/g, y)] for single code units. *)
Fixpoint replaceAll (x y : ascii) (s : string) : string :=
  match s with
  | EmptyString => EmptyString
  | String c s' => String (if Ascii.eqb c x then y else c) (replaceAll x y s')
  end.

Fixpoint allEquals (s : string) : bool :=
  match s with
  | EmptyString => true
  | String c s' => Ascii.eqb c "=" && allEquals s'
  end.

(** [s.replace(/=+$/, empty)]: the run of equals signs that ends the text is
    removed. *)
Fixpoint stripPadding (s : string) : string :=
  match s with
  | EmptyString => EmptyString
  | String c s' => if allEquals s then EmptyString else String c (stripPadding s')
  end.

(** The encoding of the message in [sendEmailViaGmail]. *)
Definition encodeMessage (message : string) : string :=
  stripPadding (replaceAll "/" "_" (replaceAll "+" "-" (base64 (utf8 message)))).

(** *** The handler *)

(** The variables of [process.env] that the endpoint reads. *)
Record environment : Type := mkEnvironment {
  GMAIL_CLIENT_ID : option string;
  GMAIL_CLIENT_SECRET : option string;
  GMAIL_REFRESH_TOKEN : option string;
  GMAIL_USER_EMAIL : option string
}.

(** Is a variable set to a text that is not empty? *)
Definition isSet (v : option string) : bool :=
  match v with
  | Some (String _ _) => true
  | _ => false
  end.

Definition textOf (v : option string) : string :=
  match v with Some s => s | None => "undefined" end.

Record request : Type := mkRequest {
  method : string;
  body : value
}.

(** The message of a reply: a text, or the message of a [TypeError], which
    the platform words. *)
Inductive detail : Type :=
  | Text (s : string)
  | PlatformText.

Inductive content : Type :=
  | Message (d : detail)
  | Success (patientId emailId : value).

Record reply : Type := mkReply {
  status : Z;
  json : content
}.

(** [error instanceof Error ? error.message : fallback] *)
Definition messageOf (t : thrown) (fallback : string) : detail :=
  match t with
  | ErrorThrown m => Text m
  | TypeErrorThrown => PlatformText
  | ValueThrown => Text fallback
  end.

(** [v.includes('@')]: strings and arrays have the method. *)
Definition callIncludesAt (v : value) : outcome bool :=
  match v with
  | VStr s => Returned (includes s "@")
  | VArr l => Returned (existsb (sameValueZero (VStr "@")) l)
  | _ => Thrown TypeErrorThrown
  end.

Definition lf : string := String "010" EmptyString.

Section World.

(** The page that [createEmailTemplate] builds from the patient identifier,
    the score and the items of the quiz data; it is a text, or a throw on
    an item of the wrong shape. *)
Variable quizPage : value -> value -> list value -> outcome string.

(** [createEmailTemplate]: the quiz data are walked with [forEach], which
    only an array has; the summary is not read. *)
Definition createEmailTemplate (patientId quizScore quizData summary : value)
  : outcome string :=
  match quizData with
  | VArr items => quizPage patientId quizScore items
  | _ => Thrown TypeErrorThrown
  end.

(** The two calls into the Gmail client: the refresh of the access token,
    and the sending of an encoded message, which returns the [id] of the
    response. *)
Variable refreshAccessToken : outcome unit.
Variable gmailSend : string -> outcome value.

(** [sendEmailViaGmail]: what it returns or throws, and the encoded
    messages it handed to the Gmail client. *)
Definition sendEmailViaGmail (env : environment) (to : value)
    (subject htmlBody : string) : outcome value * list string :=
  if negb (isSet (GMAIL_REFRESH_TOKEN env))
  then (Thrown (ErrorThrown "GMAIL_REFRESH_TOKEN is not set"), [])
  else
    match refreshAccessToken with
    | Thrown t => (Thrown t, [])
    | Returned _ =>
        if negb (isSet (GMAIL_USER_EMAIL env))
        then (Thrown (ErrorThrown "GMAIL_USER_EMAIL is not set"), [])
        else
          match toText to with
          | Thrown t => (Thrown t, [])
          | Returned toLine =>
              let message :=
                join lf [ "To: " ++ toLine;
                          "From: " ++ textOf (GMAIL_USER_EMAIL env);
                          "Subject: " ++ subject;
                          "Content-Type: text/html; charset=utf-8";
                          EmptyString;
                          htmlBody ] in
              let encodedMessage := encodeMessage message in
              match gmailSend encodedMessage with
              | Thrown t => (Thrown t, [encodedMessage])
              | Returned sentId =>
                  (Returned (or_else sentId (VStr "unknown")), [encodedMessage])
              end
          end
    end.

(** [handler]: the reply, and the encoded messages handed to the Gmail
    client on the way. *)
Definition handler (env : environment) (req : request) : reply * list string :=
  if negb (String.eqb (method req) "POST")
  then ({| status := 405; json := Message (Text "Method not allowed") |}, [])
  else
    let internal (t : thrown) :=
      ({| status := 500;
          json := Message (messageOf t "Internal server error") |}, []) in
    match body req with
    | VUndefined | VNull => internal TypeErrorThrown
    | requestBody =>
        let doctorEmail := prop requestBody "doctorEmail" in
        let patientId := prop requestBody "patientId" in
        match (if negb (truthy doctorEmail) then Returned true
               else match callIncludesAt doctorEmail with
                    | Returned found => Returned (negb found)
                    | Thrown t => Thrown t
                    end) with
        | Thrown t => internal t
        | Returned true =>
            ({| status := 400;
                json := Message (Text "Valid doctor email is required") |}, [])
        | Returned false =>
            if negb (truthy patientId)
            then ({| status := 400;
                     json := Message (Text "Patient ID is required") |}, [])
            else if negb (isSet (GMAIL_CLIENT_ID env))
                    || negb (isSet (GMAIL_CLIENT_SECRET env))
                    || negb (isSet (GMAIL_REFRESH_TOKEN env))
            then ({| status := 500;
                     json := Message (Text
                       "Email service is not configured. Please set Gmail OAuth2 credentials.") |},
                  [])
            else
              match createEmailTemplate patientId (prop requestBody "quizScore")
                      (prop requestBody "quizData") (prop requestBody "summary")
              with
              | Thrown t => internal t
              | Returned emailHtml =>
                  let failed (t : thrown) (sent : list string) :=
                    ({| status := 500;
                        json := Message (messageOf t
                          "Failed to send email. Please try again later.") |},
                     sent) in
                  match toText patientId with
                  | Thrown t => failed t []
                  | Returned idText =>
                      match sendEmailViaGmail env doctorEmail
                              ("PediBrief Quiz Results - Patient ID: " ++ idText)
                              emailHtml
                      with
                      | (Returned emailId, sent) =>
                          ({| status := 200;
                              json := Success patientId emailId |}, sent)
                      | (Thrown t, sent) => failed t sent
                      end
                  end
              end
        end
    end.

End World.

(** *** Reading an encoded message back *)

(** The value of a code unit of the URL-safe base64 alphabet. *)
Definition base64Value (c : ascii) : N :=
  let n := N_of_ascii c in
  if ((65 <=? n) && (n <=? 90))%N then (n - 65)%N
  else if ((97 <=? n) && (n <=? 122))%N then (n - 71)%N
  else if ((48 <=? n) && (n <=? 57))%N then (n + 4)%N
  else if (n =? 45)%N then 62%N
  else 63%N.

(** The decoding of unpadded URL-safe base64, as a reader of the message
    does it: four code units give three bytes, three give two, two give
    one. *)
Fixpoint base64urlDecode (s : string) : list N :=
  match s with
  | String p (String q (String r (String t rest))) =>
      let a := base64Value p in let b := base64Value q in
      let c := base64Value r in let d := base64Value t in
      (a * 4 + b / 16)%N :: ((b mod 16) * 16 + c / 4)%N
        :: ((c mod 4) * 64 + d)%N :: base64urlDecode rest
  | String p (String q (String r EmptyString)) =>
      let a := base64Value p in let b := base64Value q in
      let c := base64Value r in
      [(a * 4 + b / 16)%N; ((b mod 16) * 16 + c / 4)%N]
  | String p (String q EmptyString) =>
      let a := base64Value p in let b := base64Value q in
      [(a * 4 + b / 16)%N]
  | _ => []
  end.

(** The code units of the URL-safe alphabet: letters, digits, the hyphen
    and the underscore. *)
Definition urlSafe (c : ascii) : bool :=
  let n := N_of_ascii c in
  (((65 <=? n) && (n <=? 90)) || ((97 <=? n) && (n <=? 122))
   || ((48 <=? n) && (n <=? 57)) || (n =? 45) || (n =? 95))%N.

Fixpoint allChars (f : ascii -> bool) (s : string) : bool :=
  match s with
  | EmptyString => true
  | String c s' => f c && allChars f s'
  end.

(** The code unit that stands for a six-bit value once the two replacements
    of [encodeMessage] are made. *)
Definition urlChar (n : N) : ascii :=
  let c := base64Char n in
  let c := if Ascii.eqb c "+" then "-"%char else c in
  if Ascii.eqb c "/" then "_"%char else c.

(** [encodeMessage] from the bytes on. *)
Definition base64url (bytes : list N) : string :=
  stripPadding (replaceAll "/" "_" (replaceAll "+" "-" (base64 bytes))).

(** The text of a message, by its header values and its page. *)
Definition messageText (toLine userEmail subject html : string) : string :=
  join lf [ "To: " ++ toLine; "From: " ++ userEmail; "Subject: " ++ subject;
            "Content-Type: text/html; charset=utf-8"; EmptyString; html ].

(** The subject the handler gives a message, by the text of the patient
    identifier. *)
Definition subjectOf (idText : string) : string :=
  "PediBrief Quiz Results - Patient ID: " ++ idText.

End Email.

(** ** The quiz [components/Quiz] *)

Module Quiz.
Import JS Email.
Local Open Scope Z_scope.

(** The questions of the component, whose weights are integers, and the
    answers it records, with the verdict and the feedback as the grader
    gave them. *)
Record QuizQuestion : Type := mkQuizQuestion {
  id : string;
  question : string;
  correctAnswer : string;
  weight : Z;
  category : string
}.

Record QuizAnswer : Type := mkQuizAnswer {
  questionId : string;
  answer : string;
  isCorrect : value;
  feedback : value
}.

(** Sequencing of steps that can throw. *)
Definition andThen {A B : Type} (r : outcome A) (k : A -> outcome B) : outcome B :=
  match r with
  | Returned a => k a
  | Thrown t => Thrown t
  end.

Local Notation "x <- r ;; k" := (andThen r (fun x => k))
  (at level 61, r at next level, right associativity).

(** [xs.join(sep)]: [null] and [undefined] give nothing, the other elements
    their text. *)
Definition callJoin (sep : string) (xs : list value) : outcome string :=
  joinM sep (map (fun x => match x with
                           | VUndefined | VNull => Returned EmptyString
                           | _ => toText x
                           end) xs).

(** [v.k], which throws on [null] and [undefined]. *)
Definition member (v : value) (k : string) : outcome value :=
  match v with
  | VUndefined | VNull => Thrown TypeErrorThrown
  | _ => Returned (prop v k)
  end.

Definition isEmpty {A : Type} (xs : list A) : bool :=
  match xs with [] => true | _ => false end.

(** [generateQuestions]: the questions are pushed in the order of the five
    tests; a text that cannot be built throws. *)
Definition generateQuestions (summary : Gemini.PediatricSummary)
  : outcome (list QuizQuestion) :=
  let questions := [] in
  questions <-
    (if isEmpty (Gemini.redFlags summary) then Returned questions
     else
       answer <- callJoin "; " (Gemini.redFlags summary) ;;
       Returned (questions ++
         [ {| id := "redFlag1";
              question := "What are the warning signs that should make you return to the ER immediately?";
              correctAnswer := answer;
              weight := 30;
              category := "redFlag" |} ])%list) ;;
  questions <-
    (if isEmpty (Gemini.medications summary) then Returned questions
     else
       let med := hd VUndefined (Gemini.medications summary) in
       name <- member med "name" ;;
       nameText <- toText name ;;
       dose <- member med "dose" ;;
       doseText <- toText dose ;;
       timing <- member med "timing" ;;
       timingText <- toText timing ;;
       Returned (questions ++
         [ {| id := "med1";
              question := dq "For the medication '" ++ nameText
                          ++ dq "', what is the dose and how often should it be given?";
              correctAnswer := doseText ++ ", " ++ timingText;
              weight := 25;
              category := "medication" |} ])%list) ;;
  questions <-
    (if isEmpty (Gemini.whatToDo summary) then Returned questions
     else
       answer <- callJoin "; " (firstn 3 (Gemini.whatToDo summary)) ;;
       Returned (questions ++
         [ {| id := "care1";
              question := "Name at least two things you should do to help your child recover.";
              correctAnswer := answer;
              weight := 20;
              category := "care" |} ])%list) ;;
  questions <-
    (if isEmpty (Gemini.whatNotToDo summary) then Returned questions
     else
       answer <- callJoin "; " (Gemini.whatNotToDo summary) ;;
       Returned (questions ++
         [ {| id := "avoid1";
              question := "What should you avoid doing while your child recovers?";
              correctAnswer := answer;
              weight := 15;
              category := "care" |} ])%list) ;;
  questions <-
    (if isEmpty (Gemini.followUp summary) then Returned questions
     else
       answer <- callJoin "; " (Gemini.followUp summary) ;;
       Returned (questions ++
         [ {| id := "followUp1";
              question := "What follow-up appointments or tasks do you need to complete?";
              correctAnswer := answer;
              weight := 10;
              category := "followUp" |} ])%list) ;;
  Returned questions.

(** The double that holds an integer; exact below 2^53. *)
Definition toFloat (z : Z) : PrimFloat.float :=
  match z with
  | Zneg _ => PrimFloat.opp (PrimFloat.of_uint63 (Uint63.of_Z (- z)))
  | _ => PrimFloat.of_uint63 (Uint63.of_Z z)
  end.

(** [Math.round]: the integer nearest to the double, the greater one of two
    that are equally near; a negative double that rounds to zero gives the
    negative zero. *)
Definition Math_round (x : PrimFloat.float) : number :=
  match FloatOps.Prim2SF x with
  | SpecFloat.S754_nan => NaN
  | SpecFloat.S754_infinity s => Infinite s
  | SpecFloat.S754_zero s => if s then NegZero else Int 0
  | SpecFloat.S754_finite s m e =>
      let n := if s then Z.neg m else Z.pos m in
      let r := match e with
               | Z.neg k => (2 * n + Z.pow_pos 2 k) / (2 * Z.pow_pos 2 k)
               | _ => n * 2 ^ e
               end in
      if (r =? 0) && s then NegZero else Int r
  end.

Definition totalWeight (questions : list QuizQuestion) : Z :=
  fold_left (fun sum q => sum + weight q) questions 0.

Definition earnedWeight (questions : list QuizQuestion)
    (answers : list QuizAnswer) : Z :=
  fold_left
    (fun sum a =>
       let q := find (fun q => String.eqb (id q) (questionId a)) questions in
       sum + (if truthy (isCorrect a)
              then match q with Some q => weight q | None => 0 end
              else 0))
    answers 0.

(** [calculateScore].  The two sums are sums of integers, exact in doubles
    below 2^53; the quotient, the product and the rounding are those of
    doubles. *)
Definition calculateScore (questions : list QuizQuestion)
    (answers : list QuizAnswer) : number :=
  Math_round
    (PrimFloat.mul
       (PrimFloat.div (toFloat (earnedWeight questions answers))
                      (toFloat (totalWeight questions)))
       (toFloat 100)).

(** Has a question an answer that was marked correct? *)
Definition credited (answers : list QuizAnswer) (q : QuizQuestion) : bool :=
  existsb (fun a => String.eqb (id q) (questionId a) && truthy (isCorrect a))
          answers.

(** The percentage, rounded half up, in exact arithmetic. *)
Definition exactPercent (earned total : Z) : Z :=
  (200 * earned + total) / (2 * total).

(** Do the five lists of a summary hold nothing? *)
Definition nothingToAsk (summary : Gemini.PediatricSummary) : bool :=
  isEmpty (Gemini.redFlags summary) && isEmpty (Gemini.medications summary)
  && isEmpty (Gemini.whatToDo summary) && isEmpty (Gemini.whatNotToDo summary)
  && isEmpty (Gemini.followUp summary).


(** *** Answering the questions *)

(** The state of the component; [shown] is its [feedback], [timer] the
    index that a running timeout will move on from. *)
Record state : Type := mkState {
  currentIndex : nat;
  answers : list QuizAnswer;
  currentAnswer : string;
  shown : option Gemini.Grade;
  retryCount : nat;
  timer : option nat
}.

Definition initial : state :=
  {| currentIndex := 0; answers := []; currentAnswer := EmptyString;
     shown := None; retryCount := 0; timer := None |}.

Definition isComplete (questions : list QuizQuestion) (st : state) : bool :=
  (List.length questions <=? currentIndex st)%nat.

(** The guard of the button that offers another try. *)
Definition tryAgainShown (st : state) : bool :=
  match shown st with
  | Some result =>
      negb (truthy (Gemini.isCorrect result)) && (retryCount st <? 1)%nat
  | None => false
  end.

Definition setCurrentAnswer (text : string) (st : state) : state :=
  {| currentIndex := currentIndex st; answers := answers st;
     currentAnswer := text; shown := shown st;
     retryCount := retryCount st; timer := timer st |}.

(** [handleSubmitAnswer], from the click to the end of its continuation,
    for the grade that came back. *)
Definition handleSubmitAnswer (questions : list QuizQuestion)
    (result : Gemini.Grade) (st : state) : state :=
  if String.eqb (trim (currentAnswer st)) EmptyString then st
  else
    match nth_error questions (currentIndex st) with
    | None => st
    | Some currentQuestion =>
        if truthy (Gemini.isCorrect result) || (1 <=? retryCount st)%nat
        then {| currentIndex := currentIndex st;
                answers := answers st ++
                  [ {| questionId := id currentQuestion;
                       answer := currentAnswer st;
                       isCorrect := Gemini.isCorrect result;
                       feedback := Gemini.feedback result |} ];
                currentAnswer := currentAnswer st;
                shown := Some result;
                retryCount := retryCount st;
                timer := Some (currentIndex st) |}
        else {| currentIndex := currentIndex st; answers := answers st;
                currentAnswer := currentAnswer st;
                shown := Some result;
                retryCount := retryCount st + 1;
                timer := timer st |}
    end.

(** The function that the timeout runs. *)
Definition moveOn (index : nat) (st : state) : state :=
  {| currentIndex := index + 1; answers := answers st;
     currentAnswer := EmptyString; shown := None;
     retryCount := 0; timer := None |}.

(** The click on the button that offers another try. *)
Definition tryAgain (st : state) : state :=
  {| currentIndex := currentIndex st; answers := answers st;
     currentAnswer := EmptyString; shown := None;
     retryCount := retryCount st; timer := timer st |}.

(** One step of a patient run: an answer is submitted only when no grading
    and no timeout is under way. *)
Inductive patientStep (questions : list QuizQuestion) : state -> state -> Prop :=
  | Typed st text :
      isComplete questions st = false ->
      patientStep questions st (setCurrentAnswer text st)
  | Submitted st result :
      isComplete questions st = false ->
      tryAgainShown st = false ->
      timer st = None ->
      patientStep questions st (handleSubmitAnswer questions result st)
  | TimedOut st index :
      timer st = Some index ->
      patientStep questions st (moveOn index st)
  | TriedAgain st :
      isComplete questions st = false ->
      tryAgainShown st = true ->
      patientStep questions st (tryAgain st).

Inductive reachable (questions : list QuizQuestion) : state -> Prop :=
  | reach_initial : reachable questions initial
  | reach_step st st' :
      reachable questions st -> patientStep questions st st' ->
      reachable questions st'.

(** The number of questions that have their answer. *)
Definition answered (st : state) : nat :=
  match timer st with
  | Some _ => currentIndex st + 1
  | None => currentIndex st
  end.

(** What holds of every state of a patient run. *)
Definition invariant (questions : list QuizQuestion) (st : state) : Prop :=
  (answered st <= List.length questions)%nat
  /\ map questionId (answers st) = map id (firstn (answered st) questions)
  /\ (retryCount st <= 1)%nat
  /\ tryAgainShown st = false
  /\ (forall index, timer st = Some index -> index = currentIndex st).

(** *** Notions for the score *)

(** The sum of [f] over a list. *)
Fixpoint total {A : Type} (f : A -> Z) (l : list A) : Z :=
  match l with
  | [] => 0
  | x :: l' => f x + total f l'
  end.

(** What one answer adds to the earned weight. *)
Definition credit (questions : list QuizQuestion) (a : QuizAnswer) : Z :=
  if truthy (isCorrect a)
  then match find (fun q => String.eqb (id q) (questionId a)) questions with
       | Some q => weight q
       | None => 0
       end
  else 0.

(** The identifiers and weights of the questions a summary gives rise to. *)
Definition sections (summary : Gemini.PediatricSummary) : list (string * Z) :=
  ((if isEmpty (Gemini.redFlags summary) then [] else [("redFlag1", 30)])
   ++ (if isEmpty (Gemini.medications summary) then [] else [("med1", 25)])
   ++ (if isEmpty (Gemini.whatToDo summary) then [] else [("care1", 20)])
   ++ (if isEmpty (Gemini.whatNotToDo summary) then [] else [("avoid1", 15)])
   ++ (if isEmpty (Gemini.followUp summary) then [] else [("followUp1", 10)]))%list.

Definition ofFive (w : Z) : Prop :=
  w = 30 \/ w = 25 \/ w = 20 \/ w = 15 \/ w = 10.

(** Is the rounded percentage of the doubles the exact one? *)
Definition percentOk (earned total : Z) : bool :=
  match Math_round
          (PrimFloat.mul (PrimFloat.div (toFloat earned) (toFloat total))
                         (toFloat 100)) with
  | Int z => z =? exactPercent earned total
  | _ => false
  end.

End Quiz.

(** ** More sample inputs *)

Module Cases.
Import JS Gemini Samples.

(** A response whose first part holds a text with white space around it. *)
Definition textPart : list (string * value) := [("text", VStr " {} ")].

Definition textContent : value := VObj [("parts", VArr [VObj textPart])].

Definition membersOf (v : value) : list (string * value) :=
  match v with VObj m => m | _ => [] end.

Definition twoLeftQuestion : QuizQuestion :=
  {| id := VStr "Is rest needed?";
     question := VStr "Is rest needed?";
     options := [VStr "Yes"; VStr "No"];
     correctOptionIndexes := [VNum (Int 0)];
     category := VStr "care";
     explanation := VNull;
     weight := VNum (Int 40) |}.

(** A question of the category redFlag with no weight and no identifier. *)
Definition redFlagQuestion : value :=
  VObj [ ("question", VStr "When should you call the doctor?");
         ("options", VArr [VStr "At once"; VStr "Never"]);
         ("category", VStr "redFlag") ].

(** Two questions that differ behind their first 32 characters. *)
Definition common32 : string := "When should you call the doctor?".

Definition longQuestion (tail : string) : value :=
  VObj [ ("question", VStr (common32 ++ tail));
         ("options", VArr [VStr "At once"; VStr "Never"]) ].


Definition shortAnswer : string := "avoid juice and soda".


(** A text of 63 characters. *)
Definition typedSummary : string :=
  "The child was treated for a fever and sent home after two days.".

(** The page after a summary arrived and the quiz was started. *)
Definition quizState : Index.state :=
  Index.handleStartQuiz
    (Index.submitSettled (Ok twoLeftSummary)
       (Index.submitStarted (Index.handleGetStarted Index.initial))).

(** A reply of the grader in a fence, the response that carries it, and a
    parser that knows the two texts. *)
Definition verdictText : string :=
  dq "{'isCorrect':true,'feedback':'Well done.'}".

Definition fencedVerdict : string :=
  "```json" ++ newline ++ verdictText ++ newline ++ "```".

Definition verdictPart : list (string * value) :=
  [("text", VStr fencedVerdict)].

Definition verdictContent : value := VObj [("parts", VArr [VObj verdictPart])].

Definition verdictBody : string := stringify (VObj (envelope verdictContent)).

Definition verdictMembers : list (string * value) :=
  [("isCorrect", VBool true); ("feedback", VStr "Well done.")].

Definition verdictParser (text : string) : option value :=
  if String.eqb text verdictBody then Some (VObj (envelope verdictContent))
  else if String.eqb text verdictText then Some (VObj verdictMembers)
  else None.

(** A request to the endpoint, an environment with every variable set, one
    without the address of the sender, and a world in which the template is
    built and Gmail accepts the message. *)
Definition goodRequest : Email.request :=
  {| Email.method := "POST";
     Email.body := VObj [ ("doctorEmail", VStr "dr.lee@example.org");
                          ("patientId", VStr "P-7");
                          ("quizScore", VNum (Int 80));
                          ("quizData", VArr []);
                          ("summary", VObj []) ] |}.

(** A request that names the doctor and the patient and nothing else. *)
Definition bareRequest : Email.request :=
  {| Email.method := "POST";
     Email.body := VObj [ ("doctorEmail", VStr "dr.lee@example.org");
                          ("patientId", VStr "P-7") ] |}.

Definition fullEnvironment : Email.environment :=
  {| Email.GMAIL_CLIENT_ID := Some "client";
     Email.GMAIL_CLIENT_SECRET := Some "secret";
     Email.GMAIL_REFRESH_TOKEN := Some "token";
     Email.GMAIL_USER_EMAIL := Some "ward@example.org" |}.

Definition noSenderEnvironment : Email.environment :=
  {| Email.GMAIL_CLIENT_ID := Some "client";
     Email.GMAIL_CLIENT_SECRET := Some "secret";
     Email.GMAIL_REFRESH_TOKEN := Some "token";
     Email.GMAIL_USER_EMAIL := None |}.

Definition plainTemplate (patientId quizScore : value) (items : list value)
  : Email.outcome string :=
  Email.Returned "<p>Quiz results</p>".

Definition acceptingGmail (raw : string) : Email.outcome value :=
  Email.Returned (VStr "18c2f0").

Definition goodMessage : string :=
  Email.messageText "dr.lee@example.org" "ward@example.org"
    (Email.subjectOf "P-7") "<p>Quiz results</p>".

(** A summary with something in each of its five lists, and the answers of
    a patient to its five questions, the first and the third marked
    correct. *)
Definition fullSummary : PediatricSummary :=
  {| simpleExplanation := VStr "Your child had a stomach bug.";
     whatToDo := [VStr "Give small sips of fluid"; VStr "Let her rest"];
     whatNotToDo := [VStr "No fruit juice"];
     redFlags := [VStr "Blood in the stool"; VStr "No urine for 8 hours"];
     medications := [VObj [ ("name", VStr "Paracetamol");
                            ("dose", VStr "15 mg/kg");
                            ("timing", VStr "every 6 hours") ]];
     followUp := [VStr "Primary care visit in 2-3 days"];
     expectedCourse := VStr defaultCourse;
     quizQuestions := None |}.

Definition answerTo (questionId : string) (verdict : bool) : Quiz.QuizAnswer :=
  {| Quiz.questionId := questionId; Quiz.answer := "I think so";
     Quiz.isCorrect := VBool verdict; Quiz.feedback := VStr "Noted." |}.

Definition fullAnswers : list Quiz.QuizAnswer :=
  [ answerTo "redFlag1" true; answerTo "med1" false; answerTo "care1" true;
    answerTo "avoid1" false; answerTo "followUp1" false ].

(** A parsed object whose only medication is [null]. *)
Definition nullMedication : list (string * value) :=
  [("medications", VArr [VNull])].

(** A grade that marks an answer correct, and the state of the quiz about
    [fullSummary] after one answer was typed, graded so and recorded. *)
Definition goodGrade : Grade :=
  {| isCorrect := VBool true; feedback := VStr "Well done." |}.

Definition firstQuestion : Quiz.QuizQuestion :=
  {| Quiz.id := "redFlag1";
     Quiz.question := "What are the warning signs that should make you return to the ER immediately?";
     Quiz.correctAnswer := "Blood in the stool; No urine for 8 hours";
     Quiz.weight := 30;
     Quiz.category := "redFlag" |}.

Definition oneAnswered : Quiz.state :=
  Quiz.moveOn 0
    (Quiz.handleSubmitAnswer [firstQuestion] goodGrade
       (Quiz.setCurrentAnswer "Blood in the stool" Quiz.initial)).

(** The quiz about [twoLeftSummary], which has one question, after its
    answer was typed, marked correct and recorded. *)
Definition feverQuestion : Quiz.QuizQuestion :=
  {| Quiz.id := "redFlag1";
     Quiz.question := "What are the warning signs that should make you return to the ER immediately?";
     Quiz.correctAnswer := "Fever";
     Quiz.weight := 30;
     Quiz.category := "redFlag" |}.

Definition feverAnswered : Quiz.state :=
  Quiz.moveOn 0
    (Quiz.handleSubmitAnswer [feverQuestion] goodGrade
       (Quiz.setCurrentAnswer "A fever" Quiz.initial)).

(** A fenced response with a sentence and a word in backticks before the
    fence. *)
Definition prefacedResponse : string :=
  "Here is the `summary` you asked for:" ++ newline
  ++ "```json" ++ newline ++ dq "{'whatToDo':['Rest {at home}']}" ++ newline
  ++ "```".




(** A reply of the grader that parses and has none of the members asked
    for. *)
Definition bareContent : value :=
  VObj [("parts", VArr [VObj [("text", VStr "{}")]])].

Definition bareBody : string := stringify (VObj (envelope bareContent)).

Definition bareParser (text : string) : option value :=
  if String.eqb text bareBody then Some (VObj (envelope bareContent))
  else if String.eqb text "{}" then Some (VObj [])
  else None.

(** A first part whose text is white space, and one whose inline data has
    no data. *)
Definition blankPartContent : value :=
  VObj [("parts", VArr [VObj [("text", VStr "  ")]])].

Definition dataLessContent : value :=
  VObj [("parts", VArr [VObj [("inlineData",
                               VObj [("mimeType", VStr "text/plain")])]])].

End Cases.

(** * Properties *)

Module StringFacts.
Import JS Gemini.

Lemma drop_app_length (a b : string) : drop (String.length a) (a ++ b) = b.
Proof. induction a as [|c a IH]; simpl; auto. Qed.

Lemma take_app_length (a b : string) : take (String.length a) (a ++ b) = a.
Proof. induction a as [|c a IH]; simpl; [destruct b|]; congruence. Qed.

Lemma app_assoc (a b c : string) : (a ++ b) ++ c = a ++ (b ++ c).
Proof. induction a as [|x a IH]; simpl; congruence. Qed.

Lemma app_empty_r (a : string) : a ++ EmptyString = a.
Proof. induction a as [|x a IH]; simpl; congruence. Qed.

Lemma length_app (a b : string) :
  String.length (a ++ b) = (String.length a + String.length b)%nat.
Proof. induction a as [|x a IH]; simpl; congruence. Qed.

Lemma noChar_app (c : ascii) (a b : string) :
  noChar c (a ++ b) = noChar c a && noChar c b.
Proof.
  induction a as [|x a IH]; simpl; auto.
  rewrite IH. now rewrite andb_assoc.
Qed.

Lemma noChar_trimStart (c : ascii) (s : string) :
  noChar c s = true -> noChar c (trimStart s) = true.
Proof.
  induction s as [|x s IH]; simpl; auto.
  intros H. destruct (isWhiteSpace x); simpl; auto.
  apply andb_prop in H. tauto.
Qed.

Lemma indexOf_app (c : ascii) (pre rest : string) :
  noChar c pre = true ->
  indexOf (pre ++ String c rest) c = Some (String.length pre).
Proof.
  induction pre as [|x pre IH]; simpl.
  - now rewrite Ascii.eqb_refl.
  - intros H. apply andb_prop in H. destruct H as [Hx Hp].
    destruct (Ascii.eqb x c); [discriminate|].
    now rewrite (IH Hp).
Qed.

Lemma startsWith_noChar (s p : string) (c : ascii) :
  noChar c s = true -> startsWith s (String c p) = false.
Proof.
  destruct s as [|x s]; simpl; auto.
  intros H. apply andb_prop in H. destruct H as [Hx _].
  rewrite Ascii.eqb_sym. now destruct (Ascii.eqb x c).
Qed.

Lemma trimStart_white (gap rest : string) :
  allWhiteSpace gap = true -> trimStart (gap ++ rest) = trimStart rest.
Proof.
  induction gap as [|x gap IH]; simpl; auto.
  intros H. apply andb_prop in H. destruct H as [Hx Hg].
  now rewrite Hx, IH.
Qed.

Lemma trimStart_app (b rest : string) :
  allWhiteSpace b = false -> trimStart (b ++ rest) = trimStart b ++ rest.
Proof.
  induction b as [|x b IH]; simpl; [discriminate|].
  destruct (isWhiteSpace x); simpl; auto.
Qed.

Lemma trimStart_nonempty (b : string) :
  allWhiteSpace b = false -> trimStart b <> EmptyString.
Proof.
  induction b as [|x b IH]; simpl; [discriminate|].
  destruct (isWhiteSpace x) eqn:E; simpl; auto. discriminate.
Qed.

Lemma numeralText_app (a b : string) :
  numeralText (a ++ b) = numeralText a && numeralText b.
Proof.
  induction a as [|c a IH]; simpl; [reflexivity|].
  now rewrite IH, andb_assoc.
Qed.

Lemma digits_numeral (d : Decimal.uint) :
  numeralText (NilEmpty.string_of_uint d) = true.
Proof. induction d; simpl; auto. Qed.

Lemma digitsOf_numeral (z : Z) : numeralText (digitsOf z) = true.
Proof.
  unfold digitsOf, NilZero.string_of_uint.
  destruct (N.to_uint (Z.to_N z)) as [|d|d|d|d|d|d|d|d|d|d];
    try reflexivity; apply (digits_numeral (_ d)).
Qed.

Lemma zeros_numeral (n : nat) : numeralText (zeros n) = true.
Proof. induction n as [|n IH]; simpl; auto. Qed.

Lemma positiveText_numeral (x : Z) : numeralText (positiveText x) = true.
Proof.
  unfold positiveText. destruct (x <? 2 ^ 53); [apply digitsOf_numeral|].
  destruct (shortest _ _ _ _) as [s n].
  pose proof (digitsOf_numeral s) as Hd.
  pose proof (digitsOf_numeral (n - 1)) as He.
  destruct (n <=? 21).
  - now rewrite numeralText_app, Hd, zeros_numeral.
  - destruct (digitsOf s) as [|c rest]; [reflexivity|].
    cbn [numeralText] in Hd. apply andb_prop in Hd. destruct Hd as [Hc Hr].
    destruct rest as [|c' rest].
    + cbn [numeralText]. rewrite Hc.
      change ("e+" ++ digitsOf (n - 1))
        with (String "e" (String "+" (digitsOf (n - 1)))).
      cbn [numeralText]. now rewrite He.
    + cbn [numeralText]. rewrite Hc.
      change ("." ++ String c' rest ++ "e+" ++ digitsOf (n - 1))
        with (String "." (String c' rest ++ "e+" ++ digitsOf (n - 1))).
      cbn [numeralText]. rewrite !numeralText_app, Hr.
      change (numeralText "e+") with true. now rewrite He.
Qed.

Lemma integerText_numeral (z : Z) : numeralText (integerText z) = true.
Proof.
  unfold integerText. destruct (z =? 0); [reflexivity|].
  destruct (z <? 0); [|apply positiveText_numeral].
  change ("-" ++ positiveText (nearestDouble (- z)))
    with (String "-" (positiveText (nearestDouble (- z)))).
  cbn [numeralText]. now rewrite positiveText_numeral.
Qed.

(** The texts of some integral values: up to 2^53 every digit is written,
    beyond it the shortest digits that read back as the double, and the
    exponent form starts at 1e21. *)
Example integerText_examples :
  map integerText
      [0; -42; 2 ^ 53 + 1; 2 ^ 60; 10 ^ 21 - 1; 10 ^ 21; - 10 ^ 23;
       123 * 10 ^ 20]
  = ["0"; "-42"; "9007199254740992"; "1152921504606847000";
     "1e+21"; "1e+21"; "-1e+23"; "1.23e+22"].
Proof. vm_compute. reflexivity. Qed.

(** Texts compared with 0 as numbers. *)
Example textPositive_examples :
  map textPositive ["1"; " 12 "; "0x10"; ".5"; "5e-324"; "Infinity"]
  = [true; true; true; true; true; true]
  /\ map textPositive [""; "-1"; "0"; "1e-400"; "one"; "1,2"]
     = [false; false; false; false; false; false].
Proof. split; vm_compute; reflexivity. Qed.

(** A character that is none of a numeral is in no numeral. *)
Lemma numeral_noChar (c : ascii) (s : string) :
  numeralChar c = false -> numeralText s = true -> noChar c s = true.
Proof.
  intros Hc. induction s as [|a s IH]; [reflexivity|].
  cbn [numeralText noChar]. intros H. apply andb_prop in H.
  destruct H as [Ha Hs]. rewrite (IH Hs), andb_true_r.
  destruct (Ascii.eqb a c) eqn:E; [|reflexivity].
  apply Ascii.eqb_eq in E. congruence.
Qed.

End StringFacts.

Module ExtractionFacts.
Import JS Gemini StringFacts.

Lemma closingFenceAt_noFence (s : string) :
  noChar "`" s = true -> closingFenceAt s = None.
Proof.
  intros H. unfold closingFenceAt.
  now rewrite (startsWith_noChar _ _ _ (noChar_trimStart _ _ H)).
Qed.

Lemma stripClosingFence_noFence (s : string) :
  noChar "`" s = true -> stripClosingFence s = s.
Proof.
  induction s as [|x s IH]; intros H.
  - reflexivity.
  - simpl. rewrite (closingFenceAt_noFence _ H).
    simpl in H. apply andb_prop in H. destruct H as [_ H].
    now rewrite (IH H).
Qed.

Lemma stripOpeningFence_noFence (s : string) :
  noChar "`" s = true -> stripOpeningFence s = s.
Proof.
  intros H. unfold stripOpeningFence.
  now rewrite (startsWith_noChar _ _ _ H).
Qed.

Lemma stripJsonFence_noFence (s : string) :
  noChar "`" s = true -> stripJsonFence s = s.
Proof.
  intros H. unfold stripJsonFence, startsWithNoCase.
  destruct s as [|x s]; [reflexivity|].
  simpl in H. apply andb_prop in H. destruct H as [Hx _].
  simpl. unfold lowerChar.
  destruct x as [[] [] [] [] [] [] [] []]; try reflexivity; discriminate.
Qed.

Lemma stripFences_noFence (s : string) :
  noChar "`" s = true -> stripFences s = s.
Proof.
  intros H. unfold stripFences.
  rewrite (stripJsonFence_noFence _ H), (stripClosingFence_noFence _ H).
  rewrite (stripOpeningFence_noFence _ H).
  apply stripClosingFence_noFence, H.
Qed.

Lemma stripJsonFence_fenced (word rest : string) :
  toLowerCase word = "json" ->
  stripJsonFence ("```" ++ word ++ rest) = trimStart rest.
Proof.
  intros Hw.
  destruct word as [|a [|b [|c [|d [|e w]]]]]; try discriminate.
  simpl in Hw. injection Hw as Ha Hb Hc Hd.
  unfold stripJsonFence, startsWithNoCase. simpl.
  now rewrite Ha, Hb, Hc, Hd.
Qed.

Lemma closingFenceAt_bare (tail : string) :
  atLineEnd tail = true -> closingFenceAt ("```" ++ tail) = Some tail.
Proof.
  intros Ht. unfold closingFenceAt.
  change (trimStart ("```" ++ tail)) with ("```" ++ tail).
  change (drop 3 ("```" ++ tail)) with tail.
  rewrite Ht. now destruct tail.
Qed.

Lemma closingFenceAt_fence (gap tail : string) :
  allWhiteSpace gap = true -> atLineEnd tail = true ->
  closingFenceAt (gap ++ "```" ++ tail) = Some tail.
Proof.
  intros Hg Ht. rewrite <- (closingFenceAt_bare _ Ht).
  unfold closingFenceAt. now rewrite (trimStart_white _ _ Hg).
Qed.

Lemma closingFenceAt_inside (b rest : string) :
  noChar "`" b = true -> allWhiteSpace b = false ->
  closingFenceAt (b ++ rest) = None.
Proof.
  intros Hb Hw. unfold closingFenceAt.
  rewrite (trimStart_app _ _ Hw).
  pose proof (trimStart_nonempty _ Hw) as Hne.
  pose proof (noChar_trimStart _ _ Hb) as Hn.
  destruct (trimStart b) as [|x t]; [congruence|].
  simpl in Hn. apply andb_prop in Hn. destruct Hn as [Hx _].
  change (startsWith (String x t ++ rest) "```")
    with (Ascii.eqb "`" x && startsWith (t ++ rest) "``").
  rewrite Ascii.eqb_sym. now destruct (Ascii.eqb x "`").
Qed.

Lemma stripClosingFence_unfold (s : string) :
  stripClosingFence s =
  match closingFenceAt s with
  | Some rest => rest
  | None =>
      match s with
      | EmptyString => EmptyString
      | String c s' => String c (stripClosingFence s')
      end
  end.
Proof. destruct s; reflexivity. Qed.

Lemma stripClosingFence_step (c : ascii) (s : string) :
  closingFenceAt (String c s) = None ->
  stripClosingFence (String c s) = String c (stripClosingFence s).
Proof. intros H. now rewrite stripClosingFence_unfold, H. Qed.

Lemma stripClosingFence_fenced (body gap tail : string) :
  noChar "`" body = true -> trimEnd body = body ->
  allWhiteSpace gap = true -> atLineEnd tail = true ->
  stripClosingFence (body ++ gap ++ "```" ++ tail) = body ++ tail.
Proof.
  intros Hb He Hg Ht. induction body as [|x body IH].
  - change (stripClosingFence (gap ++ "```" ++ tail) = tail).
    now rewrite stripClosingFence_unfold, (closingFenceAt_fence _ _ Hg Ht).
  - assert (Hw : allWhiteSpace (String x body) = false).
    { simpl in He. simpl.
      destruct (isWhiteSpace x && allWhiteSpace body); [discriminate|reflexivity]. }
    rewrite stripClosingFence_unfold, (closingFenceAt_inside _ _ Hb Hw).
    change ((String x body) ++ gap ++ "```" ++ tail)
      with (String x (body ++ gap ++ "```" ++ tail)).
    change ((String x body) ++ tail) with (String x (body ++ tail)).
    simpl in Hb. apply andb_prop in Hb. destruct Hb as [_ Hb].
    simpl in He. simpl in Hw. rewrite Hw in He. injection He as He.
    now rewrite (IH Hb He).
Qed.

Lemma trimStart_body (body rest : string) :
  trimStart body = body -> body <> EmptyString ->
  trimStart (body ++ rest) = body ++ rest.
Proof.
  destruct body as [|x body]; [congruence|].
  simpl. destruct (isWhiteSpace x) eqn:E; auto.
  intros H _. exfalso.
  assert (Hl : forall t, (String.length (trimStart t) <= String.length t)%nat).
  { induction t as [|y t IHt]; simpl; auto.
    destruct (isWhiteSpace y); simpl; lia. }
  specialize (Hl body). rewrite H in Hl. simpl in Hl. lia.
Qed.

Lemma white_not_backtick (c : ascii) :
  isWhiteSpace c = true -> Ascii.eqb "`" c = false.
Proof.
  destruct c as [[] [] [] [] [] [] [] []]; try reflexivity; discriminate.
Qed.

Lemma white_not_j (c : ascii) :
  isWhiteSpace c = true -> Ascii.eqb "j" (lowerChar c) = false.
Proof.
  destruct c as [[] [] [] [] [] [] [] []]; try reflexivity; discriminate.
Qed.

Lemma lineTerminator_white (c : ascii) :
  isLineTerminator c = true -> isWhiteSpace c = true.
Proof.
  destruct c as [[] [] [] [] [] [] [] []]; try reflexivity; discriminate.
Qed.

Lemma startsWith_body (body rest : string) (p : string) :
  noChar "`" body = true -> body <> EmptyString ->
  startsWith (body ++ rest) (String "`" p) = false.
Proof.
  destruct body as [|x body]; [congruence|].
  intros H _. simpl in H. apply andb_prop in H. destruct H as [Hx _].
  change (startsWith (String x body ++ rest) (String "`" p))
    with (Ascii.eqb "`" x && startsWith (body ++ rest) p).
  rewrite Ascii.eqb_sym. now destruct (Ascii.eqb x "`").
Qed.

(** The closing fence is found behind white space and a body. *)
Lemma stripClosingFence_gap (gap body gap' tail : string) :
  allWhiteSpace gap = true -> allWhiteSpace gap' = true ->
  fenceBody body -> body <> EmptyString -> fenceTail tail ->
  stripClosingFence (gap ++ body ++ gap' ++ "```" ++ tail)
  = gap ++ body ++ tail.
Proof.
  intros Hg Hg' (Hb & Hs & He) Hne (Ht & Hl).
  induction gap as [|g gap IH].
  - change (stripClosingFence (body ++ gap' ++ "```" ++ tail) = body ++ tail).
    apply stripClosingFence_fenced; assumption.
  - simpl in Hg. apply andb_prop in Hg. destruct Hg as [Hgw Hg].
    rewrite stripClosingFence_unfold.
    assert (Hnone : closingFenceAt
                      (String g gap ++ body ++ gap' ++ "```" ++ tail) = None).
    { unfold closingFenceAt.
      change (String g gap ++ body ++ gap' ++ "```" ++ tail)
        with (String g (gap ++ body ++ gap' ++ "```" ++ tail)).
      cbn [trimStart]. rewrite Hgw, (trimStart_white _ _ Hg).
      rewrite (trimStart_body _ _ Hs Hne).
      now rewrite (startsWith_body _ _ _ Hb Hne). }
    rewrite Hnone.
    change (String g gap ++ body ++ gap' ++ "```" ++ tail)
      with (String g (gap ++ body ++ gap' ++ "```" ++ tail)).
    change (String g gap ++ body ++ tail) with (String g (gap ++ body ++ tail)).
    cbv iota. now rewrite (IH Hg).
Qed.

Lemma stripJsonFence_plain (c : ascii) (gap rest : string) :
  isWhiteSpace c = true ->
  stripJsonFence ("```" ++ String c gap ++ rest)
  = "```" ++ String c gap ++ rest.
Proof.
  intros Hc. unfold stripJsonFence, startsWithNoCase.
  change (startsWith (toLowerCase (take (String.length "```json")
                                        ("```" ++ String c gap ++ rest)))
                     "```json")
    with (Ascii.eqb "j" (lowerChar c)
          && startsWith (toLowerCase (take 3 (gap ++ rest))) "son").
  now rewrite (white_not_j _ Hc).
Qed.

(** What the four replacements leave of a wrapped text. *)
Lemma stripFences_wrapped (raw inner : string) :
  wrapped raw inner -> stripFences raw = inner.
Proof.
  intros [inner' H
         | word gap body gap' tail Hw Hg Hg' (Hb & Hs & He) (Ht & Hl)
         | c gap body gap' tail Hc Hg Hg' Hbody Hne Htail
         | c gap body gap' tail Hc Hnl Hg Hg' Hbody Hne Htail].
  - now apply stripFences_noFence.
  - unfold stripFences.
    rewrite (stripJsonFence_fenced _ _ Hw), (trimStart_white _ _ Hg).
    assert (Hin : noChar "`" (body ++ tail) = true)
      by (rewrite noChar_app, Hb, Ht; reflexivity).
    destruct body as [|x body].
    + change (EmptyString ++ gap' ++ "```" ++ tail) with (gap' ++ "```" ++ tail).
      change (EmptyString ++ tail) with tail.
      rewrite (trimStart_white _ _ Hg').
      change (trimStart ("```" ++ tail)) with ("```" ++ tail).
      rewrite (stripClosingFence_unfold ("```" ++ tail)), (closingFenceAt_bare _ Hl).
      rewrite (stripOpeningFence_noFence _ Ht).
      now apply stripClosingFence_noFence.
    + rewrite (trimStart_body _ _ Hs) by discriminate.
      rewrite (stripClosingFence_fenced _ _ _ Hb He Hg' Hl).
      rewrite (stripOpeningFence_noFence _ Hin).
      now apply stripClosingFence_noFence.
  - pose proof (lineTerminator_white _ Hc) as Hw.
    unfold stripFences. rewrite (stripJsonFence_plain _ _ _ Hw).
    rewrite (stripClosingFence_unfold ("```" ++ _)).
    rewrite closingFenceAt_bare by exact Hc.
    assert (Ho : stripOpeningFence
                   (String c gap ++ body ++ gap' ++ "```" ++ tail)
                 = String c gap ++ body ++ gap' ++ "```" ++ tail).
    { unfold stripOpeningFence.
      change (startsWith (String c gap ++ body ++ gap' ++ "```" ++ tail) "```")
        with (Ascii.eqb "`" c
              && startsWith (gap ++ body ++ gap' ++ "```" ++ tail) "``").
      now rewrite (white_not_backtick _ Hw). }
    rewrite Ho. apply stripClosingFence_gap; auto.
    simpl. now rewrite Hw.
  - unfold stripFences. rewrite (stripJsonFence_plain _ _ _ Hc).
    destruct Hbody as (Hb & Hs & He). destruct Htail as (Ht & Hl).
    assert (Hgap : allWhiteSpace (String c gap) = true)
      by (simpl; now rewrite Hc).
    assert (Hin : noChar "`" (body ++ tail) = true)
      by (rewrite noChar_app, Hb, Ht; reflexivity).
    set (rest := String c gap ++ body ++ gap' ++ "```" ++ tail).
    assert (H3 : closingFenceAt ("```" ++ rest) = None).
    { unfold closingFenceAt.
      change (trimStart ("```" ++ rest)) with ("```" ++ rest).
      change (drop 3 ("```" ++ rest)) with rest.
      unfold rest at 2.
      change (atLineEnd (String c gap ++ body ++ gap' ++ "```" ++ tail))
        with (isLineTerminator c).
      now rewrite Hnl, andb_false_r. }
    assert (H2 : closingFenceAt ("``" ++ rest) = None).
    { unfold closingFenceAt.
      change (trimStart ("``" ++ rest)) with ("``" ++ rest).
      unfold rest.
      change (startsWith ("``" ++ String c gap ++ body ++ gap' ++ "```" ++ tail)
                         "```")
        with (Ascii.eqb "`" c
              && startsWith (gap ++ body ++ gap' ++ "```" ++ tail) EmptyString).
      now rewrite (white_not_backtick _ Hc). }
    assert (H1 : closingFenceAt ("`" ++ rest) = None).
    { unfold closingFenceAt.
      change (trimStart ("`" ++ rest)) with ("`" ++ rest).
      unfold rest.
      change (startsWith ("`" ++ String c gap ++ body ++ gap' ++ "```" ++ tail)
                         "```")
        with (Ascii.eqb "`" c
              && startsWith (gap ++ body ++ gap' ++ "```" ++ tail) "`").
      now rewrite (white_not_backtick _ Hc). }
    assert (Hstrip : stripClosingFence ("```" ++ rest)
                     = "```" ++ stripClosingFence rest).
    { change (stripClosingFence (String "`" ("``" ++ rest))
              = String "`" ("``" ++ stripClosingFence rest)).
      rewrite (stripClosingFence_step "`" ("``" ++ rest) H3). f_equal.
      change (stripClosingFence (String "`" ("`" ++ rest))
              = String "`" ("`" ++ stripClosingFence rest)).
      rewrite (stripClosingFence_step "`" ("`" ++ rest) H2). f_equal.
      exact (stripClosingFence_step "`" rest H1). }
    rewrite Hstrip. unfold rest.
    rewrite (stripClosingFence_gap (String c gap) body gap' tail);
      auto; [|repeat split; assumption|split; assumption].
    unfold stripOpeningFence.
    change (startsWith ("```" ++ String c gap ++ body ++ tail) "```")
      with (startsWith (String c gap ++ body ++ tail) EmptyString).
    change (drop 3 ("```" ++ String c gap ++ body ++ tail))
      with (String c gap ++ body ++ tail).
    assert (Hst : startsWith (String c gap ++ body ++ tail) EmptyString = true)
      by reflexivity.
    rewrite Hst, (trimStart_white _ _ Hgap), (trimStart_body _ _ Hs Hne).
    now apply stripClosingFence_noFence.
Qed.

Lemma scanBraces_nested (inside post : string) :
  forall (d i : nat),
    nested d inside = true ->
    scanBraces (inside ++ "}" ++ post) i (Z.of_nat (S d))
    = Some (i + String.length inside)%nat.
Proof.
  induction inside as [|c inside IH]; intros d i H.
  - simpl in H. apply Nat.eqb_eq in H. subst d. simpl.
    f_equal. lia.
  - simpl in H.
    change ((String c inside) ++ "}" ++ post)
      with (String c (inside ++ "}" ++ post)).
    cbn [scanBraces].
    destruct (Ascii.eqb c "{") eqn:Eo.
    + apply Ascii.eqb_eq in Eo. subst c.
      change (Ascii.eqb "{" "}") with false. cbv iota.
      replace (Z.of_nat (S d) + 1) with (Z.of_nat (S (S d))) by lia.
      rewrite (IH _ _ H). f_equal. simpl. lia.
    + destruct (Ascii.eqb c "}") eqn:Ec.
      * destruct d as [|d']; [discriminate|].
        replace (Z.of_nat (S (S d')) - 1) with (Z.of_nat (S d')) by lia.
        assert (Hz : (Z.of_nat (S d') =? 0) = false) by (apply Z.eqb_neq; lia).
        rewrite Hz, (IH _ _ H). f_equal. simpl. lia.
      * rewrite (IH _ _ H). f_equal. simpl. lia.
Qed.

(** The scan on a text that needs no stripping: the first brace opens an
    object whose braces pair up. *)
Lemma extract_after_strip (text pre obj post : string) :
  stripFences text = pre ++ obj ++ post ->
  noChar "{" pre = true -> balancedObject obj ->
  extractJsonText text = Ok obj.
Proof.
  intros Hs Hp (inside & -> & Hn).
  unfold extractJsonText. rewrite Hs.
  change (pre ++ ("{" ++ inside ++ "}") ++ post)
    with (pre ++ String "{" ((inside ++ "}") ++ post)).
  rewrite (indexOf_app _ _ _ Hp), drop_app_length.
  cbn [scanBraces]. change (Ascii.eqb "{" "{") with true.
  change (Ascii.eqb "{" "}") with false. cbv iota.
  rewrite app_assoc.
  change (0 + 1) with (Z.of_nat 1).
  rewrite (scanBraces_nested _ _ _ _ Hn).
  assert (Hlt : (S (String.length pre) + String.length inside
                 <=? String.length pre)%nat = false)
    by (apply Nat.leb_gt; lia).
  rewrite Hlt. f_equal. unfold substring. rewrite drop_app_length.
  replace (S (String.length pre) + String.length inside + 1 - String.length pre)%nat
    with (String.length ("{" ++ inside ++ "}")).
  - change (String "{" (inside ++ "}" ++ post))
      with ("{" ++ (inside ++ "}" ++ post)).
    rewrite <- (app_assoc inside "}" post), <- (app_assoc "{" _ post).
    apply take_app_length.
  - change (String.length ("{" ++ inside ++ "}"))
      with (S (String.length (inside ++ "}"))).
    rewrite length_app. change (String.length "}") with 1%nat. lia.
Qed.

(** *** Serialized objects with no brace in their strings pair up *)

Lemma neutral_empty : neutral EmptyString.
Proof. intros d b. reflexivity. Qed.

Lemma neutral_app (a b : string) : neutral a -> neutral b -> neutral (a ++ b).
Proof. intros Ha Hb d c. now rewrite app_assoc, Ha, Hb. Qed.

Lemma neutral_noBrace (a : string) : noBrace a = true -> neutral a.
Proof.
  unfold noBrace. intros H d b. apply andb_prop in H. destruct H as [Ho Hc].
  induction a as [|x a IH]; [reflexivity|].
  simpl in Ho, Hc. apply andb_prop in Ho. apply andb_prop in Hc.
  destruct Ho as [Ho Ho']. destruct Hc as [Hc Hc'].
  change (String x a ++ b) with (String x (a ++ b)). cbn [nested].
  apply negb_true_iff in Ho. apply negb_true_iff in Hc.
  rewrite Ho, Hc. auto.
Qed.

Lemma neutral_braces (a : string) : neutral a -> neutral ("{" ++ a ++ "}").
Proof.
  intros Ha d b.
  change (("{" ++ a ++ "}") ++ b) with (String "{" ((a ++ "}") ++ b)).
  cbn [nested]. change (Ascii.eqb "{" "{") with true. cbv iota.
  now rewrite app_assoc, Ha.
Qed.

Lemma neutral_join (sep : string) (xs : list string) :
  neutral sep -> Forall neutral xs -> neutral (join sep xs).
Proof.
  intros Hs H. induction H as [|x xs Hx Hxs IH]; [apply neutral_empty|].
  destruct xs as [|y ys]; [exact Hx|].
  change (join sep (x :: y :: ys)) with (x ++ sep ++ join sep (y :: ys)).
  auto using neutral_app.
Qed.

Lemma quoteChar_noBrace (c : ascii) :
  noBrace (String c EmptyString) = true -> noBrace (quoteChar c) = true.
Proof.
  destruct c as [[] [] [] [] [] [] [] []]; try reflexivity; discriminate.
Qed.

Lemma noBrace_app (a b : string) :
  noBrace (a ++ b) = noBrace a && noBrace b.
Proof.
  unfold noBrace. rewrite !noChar_app.
  destruct (noChar "{" a), (noChar "{" b), (noChar "}" a), (noChar "}" b);
    reflexivity.
Qed.

Lemma quote_noBrace (s : string) : noBrace s = true -> noBrace (quote s) = true.
Proof.
  intros H. unfold quote.
  change (String "034" (quoteBody s ++ String "034" EmptyString))
    with (String "034" EmptyString ++ quoteBody s ++ String "034" EmptyString).
  rewrite !noBrace_app.
  assert (Hb : noBrace (quoteBody s) = true).
  { induction s as [|c s IH]; [reflexivity|].
    change (String c s) with (String c EmptyString ++ s) in H.
    rewrite noBrace_app in H. apply andb_prop in H. destruct H as [Hc Hs].
    cbn [quoteBody]. now rewrite noBrace_app, (quoteChar_noBrace _ Hc), (IH Hs). }
  now rewrite Hb.
Qed.

Lemma digits_noBrace (d : Decimal.uint) :
  noBrace (NilEmpty.string_of_uint d) = true.
Proof. induction d; simpl; auto. Qed.

Lemma numberText_noBrace (n : number) :
  braceFree (VNum n) = true -> noBrace (numberText n) = true.
Proof.
  destruct n as [z| |r|neg|]; try reflexivity; [|auto].
  intros _. unfold numberText, noBrace.
  now rewrite !numeral_noChar by (reflexivity || apply integerText_numeral).
Qed.

(** Induction on values, through the lists they hold. *)
Lemma value_induction (P : value -> Prop) :
  P VUndefined -> P VNull -> (forall b, P (VBool b)) ->
  (forall n, P (VNum n)) -> (forall s, P (VStr s)) ->
  (forall l, Forall P l -> P (VArr l)) ->
  (forall m, Forall (fun kv => P (snd kv)) m -> P (VObj m)) ->
  forall v, P v.
Proof.
  intros Hu Hn Hb Hnum Hs Ha Ho. fix IH 1.
  intros [| |b|n|s|l|m];
    [exact Hu | exact Hn | apply Hb | apply Hnum | apply Hs | | ].
  - apply Ha. induction l as [|x l IHl]; constructor; [apply IH | apply IHl].
  - apply Ho. induction m as [|[k x] m IHm]; constructor; [apply IH | apply IHm].
Qed.

Lemma member_neutral (k t : string) (x : value) :
  noBrace k = true -> neutral (stringify x) ->
  In t (memberText k x (stringify x)) -> neutral t.
Proof.
  intros Hk Hx Ht.
  assert (Hm : neutral (quote k ++ ":" ++ stringify x)).
  { apply neutral_app; [apply neutral_noBrace, quote_noBrace, Hk|].
    apply neutral_app; [now apply neutral_noBrace | exact Hx]. }
  unfold memberText in Ht.
  destruct x; try (destruct Ht as [<-|[]]; exact Hm). destruct Ht.
Qed.

Lemma stringify_neutral (v : value) :
  braceFree v = true -> neutral (stringify v).
Proof.
  induction v as [| |b|n|s|l IH|m IH] using value_induction; intros H.
  - now apply neutral_noBrace.
  - now apply neutral_noBrace.
  - destruct b; now apply neutral_noBrace.
  - apply neutral_noBrace. now apply numberText_noBrace.
  - apply neutral_noBrace. now apply quote_noBrace.
  - cbn [stringify].
    apply neutral_app; [now apply neutral_noBrace|]. apply neutral_app;
      [|now apply neutral_noBrace].
    apply neutral_join; [now apply neutral_noBrace|].
    cbn [braceFree] in H. rewrite forallb_forall in H.
    rewrite Forall_forall in IH. apply Forall_forall.
    intros t Ht. apply in_map_iff in Ht. destruct Ht as (x & <- & Hx). auto.
  - cbn [stringify]. apply neutral_braces.
    apply neutral_join; [now apply neutral_noBrace|].
    cbn [braceFree] in H. rewrite forallb_forall in H.
    rewrite Forall_forall in IH. apply Forall_forall.
    intros t Ht. apply in_flat_map in Ht. destruct Ht as ([k x] & Hin & Ht).
    specialize (H _ Hin). cbn in H. apply andb_prop in H. destruct H as [Hk Hx].
    specialize (IH _ Hin Hx). cbn [snd] in IH.
    exact (member_neutral k t x Hk IH Ht).
Qed.

Lemma members_neutral (m : list (string * value)) :
  braceFree (VObj m) = true ->
  neutral (join "," (flat_map (fun '(k, v') =>
                       memberText k v' (stringify v')) m)).
Proof.
  intros H. apply neutral_join; [now apply neutral_noBrace|].
  cbn [braceFree] in H. rewrite forallb_forall in H.
  apply Forall_forall.
  intros t Ht. apply in_flat_map in Ht. destruct Ht as ([k x] & Hin & Ht).
  specialize (H _ Hin). cbn in H. apply andb_prop in H. destruct H as [Hk Hx].
  exact (member_neutral k t x Hk (stringify_neutral x Hx) Ht).
Qed.

(** The text of an object that holds no brace in its strings, keys and
    number texts is an object text whose braces pair up. *)
Lemma stringify_balanced (m : list (string * value)) :
  braceFree (VObj m) = true -> balancedObject (stringify (VObj m)).
Proof.
  intros H. pose proof (members_neutral m H 0%nat EmptyString) as Hn.
  rewrite app_empty_r in Hn.
  eexists. split; [reflexivity|]. exact Hn.
Qed.

(** Hence the object is extracted whole from any wrapping the fences and
    the scan allow. *)
Lemma extract_serialized_object (raw pre post : string)
    (m : list (string * value)) :
  wrapped raw (pre ++ stringify (VObj m) ++ post) ->
  noChar "{" pre = true ->
  braceFree (VObj m) = true ->
  extractJsonText raw = Ok (stringify (VObj m)).
Proof.
  intros Hw Hp Hb.
  apply (extract_after_strip raw pre _ post); auto.
  - now apply stripFences_wrapped.
  - now apply stringify_balanced.
Qed.

(** *** Serialized values with no backtick in their strings have none *)

Lemma noChar_join (c : ascii) (sep : string) (xs : list string) :
  noChar c sep = true -> Forall (fun x => noChar c x = true) xs ->
  noChar c (join sep xs) = true.
Proof.
  intros Hs H. induction H as [|x xs Hx Hxs IH]; [reflexivity|].
  destruct xs as [|y ys]; [exact Hx|].
  change (join sep (x :: y :: ys)) with (x ++ sep ++ join sep (y :: ys)).
  now rewrite !noChar_app, Hx, Hs, IH.
Qed.

Lemma quoteChar_noTick (c : ascii) :
  noChar "`" (String c EmptyString) = true -> noChar "`" (quoteChar c) = true.
Proof.
  destruct c as [[] [] [] [] [] [] [] []]; try reflexivity; discriminate.
Qed.

Lemma quote_noTick (s : string) :
  noChar "`" s = true -> noChar "`" (quote s) = true.
Proof.
  intros H. unfold quote.
  change (String "034" (quoteBody s ++ String "034" EmptyString))
    with (String "034" EmptyString ++ quoteBody s ++ String "034" EmptyString).
  rewrite !noChar_app.
  assert (Hb : noChar "`" (quoteBody s) = true).
  { induction s as [|c s IH]; [reflexivity|].
    change (String c s) with (String c EmptyString ++ s) in H.
    rewrite noChar_app in H. apply andb_prop in H. destruct H as [Hc Hs].
    cbn [quoteBody]. now rewrite noChar_app, (quoteChar_noTick _ Hc), (IH Hs). }
  now rewrite Hb.
Qed.

Lemma digits_noTick (d : Decimal.uint) :
  noChar "`" (NilEmpty.string_of_uint d) = true.
Proof. induction d; simpl; auto. Qed.

Lemma numberText_noTick (n : number) :
  tickFree (VNum n) = true -> noChar "`" (numberText n) = true.
Proof.
  destruct n as [z| |r|neg|]; try reflexivity; [|auto].
  intros _. unfold numberText.
  apply numeral_noChar; [reflexivity | apply integerText_numeral].
Qed.

Lemma stringify_noTick (v : value) :
  tickFree v = true -> noChar "`" (stringify v) = true.
Proof.
  induction v as [| |b|n|s|l IH|m IH] using value_induction; intros H.
  - reflexivity.
  - reflexivity.
  - now destruct b.
  - now apply numberText_noTick.
  - now apply quote_noTick.
  - cbn [stringify]. rewrite !noChar_app.
    rewrite noChar_join; [reflexivity|reflexivity|].
    cbn [tickFree] in H. rewrite forallb_forall in H.
    rewrite Forall_forall in IH. apply Forall_forall.
    intros t Ht. apply in_map_iff in Ht. destruct Ht as (x & <- & Hx). auto.
  - cbn [stringify]. rewrite !noChar_app.
    rewrite noChar_join; [reflexivity|reflexivity|].
    cbn [tickFree] in H. rewrite forallb_forall in H.
    rewrite Forall_forall in IH. apply Forall_forall.
    intros t Ht. apply in_flat_map in Ht. destruct Ht as ([k x] & Hin & Ht).
    specialize (H _ Hin). cbn in H. apply andb_prop in H. destruct H as [Hk Hx].
    specialize (IH _ Hin Hx). cbn [snd] in IH.
    assert (Hm : noChar "`" (quote k ++ ":" ++ stringify x) = true)
      by (now rewrite !noChar_app, (quote_noTick _ Hk), IH).
    unfold memberText in Ht.
    destruct x; try (destruct Ht as [<-|[]]; exact Hm). destruct Ht.
Qed.

(** The scan returns whole the text of an object that holds neither a brace
    nor a backtick in its strings, keys and number texts. *)
Lemma extract_plain_object (m : list (string * value)) :
  braceFree (VObj m) = true -> tickFree (VObj m) = true ->
  extractJsonText (stringify (VObj m)) = Ok (stringify (VObj m)).
Proof.
  intros Hb Ht.
  apply (extract_serialized_object _ EmptyString EmptyString m);
    [|reflexivity|exact Hb].
  change (EmptyString ++ stringify (VObj m) ++ EmptyString)
    with (stringify (VObj m) ++ EmptyString).
  rewrite app_empty_r. apply Bare. now apply stringify_noTick.
Qed.

End ExtractionFacts.

Module SanitizerFacts.
Import JS Gemini StringFacts.

Lemma toLowerCase_empty (s : string) :
  String.eqb (toLowerCase s) EmptyString = String.eqb s EmptyString.
Proof. now destruct s. Qed.

(** The callback of the option filter answers as [survives] says, when it
    answers. *)
Lemma keepOption_survives (opt : value) (b : bool) :
  keepOption opt = Ok b -> b = survives opt.
Proof.
  unfold keepOption, survives.
  destruct opt as [| |x|n|s|l|m]; simpl;
    try (intros H; injection H as <-; reflexivity);
    try (destruct x; simpl; intros H; now inversion H);
    try discriminate.
  - destruct n as [z| | | |]; simpl;
      try (destruct (z =? 0)); simpl; intros H; now inversion H.
  - destruct (String.eqb s EmptyString) eqn:Es; simpl.
    + intros H. injection H as <-.
      apply String.eqb_eq in Es. subst s. reflexivity.
    + rewrite toLowerCase_empty.
      destruct (String.eqb (trim s) EmptyString); simpl;
        intros H; now injection H as <-.
Qed.

Lemma filterM_keepOption (raw cleaned : list value) :
  filterM keepOption raw = Ok cleaned -> cleaned = filter survives raw.
Proof.
  revert cleaned. induction raw as [|x raw IH]; simpl; intros cleaned H.
  - now injection H as <-.
  - destruct (keepOption x) as [b|e] eqn:Ek; simpl in H; [|discriminate].
    destruct (filterM keepOption raw) as [rest|e] eqn:Er; simpl in H;
      [|discriminate].
    injection H as <-. rewrite <- (keepOption_survives _ _ Ek), (IH _ eq_refl).
    reflexivity.
Qed.

(** What a successful run of the sanitizer computed. *)
Lemma sanitizeQuestion_Ok (q : value) (q' : QuizQuestion) :
  sanitizeQuestion q = Ok q' ->
  exists rawIdx,
    or_else (prop q "correctOptionIndexes") (VArr []) = VArr rawIdx /\
    let opts := firstn 4 (filter survives (arrayOrEmpty (prop q "options"))) in
    let unique :=
      Array_from_Set
        (filter (validIndex (Z.of_nat (List.length opts) - 1)) rawIdx) in
    options q' = opts /\
    correctOptionIndexes q' =
      (if 0 <? Z.of_nat (List.length unique) then unique else [VNum (Int 0)]) /\
    question q' = prop q "question" /\
    category q' = nullish_or (prop q "category") (VStr "care") /\
    explanation q' = prop q "explanation" /\
    weight q' =
      (if negb (isNumber (prop q "weight")) || Number_isNaN (prop q "weight")
       then VNum (Int (defaultWeight (prop q "category")))
       else prop q "weight") /\
    (if truthy (prop q "id") then Ok (prop q "id")
     else callSlice (prop q "question") 32) = Ok (id q').
Proof.
  unfold sanitizeQuestion. intros H.
  destruct (filterM keepOption (arrayOrEmpty (prop q "options")))
    as [cleaned|e] eqn:Ec; simpl in H; [|discriminate].
  apply filterM_keepOption in Ec. subst cleaned.
  destruct (or_else (prop q "correctOptionIndexes") (VArr []))
    as [| |b|n|s|rawIdx|m] eqn:Ei; simpl in H; try discriminate.
  exists rawIdx. split; [reflexivity|].
  destruct (if truthy (prop q "id") then Ok (prop q "id")
            else callSlice (prop q "question") 32) as [idv|e] eqn:Eid;
    simpl in H; [|discriminate].
  injection H as <-. simpl. repeat split; reflexivity.
Qed.

Lemma Subseq_empty {A : Type} (xs : list A) : Subseq [] xs.
Proof. induction xs; constructor; auto. Qed.

Lemma firstn_Subseq {A : Type} (n : nat) (xs : list A) :
  Subseq (firstn n xs) xs.
Proof.
  revert n. induction xs as [|x xs IH]; intros [|n]; simpl.
  - constructor.
  - constructor.
  - apply Subseq_empty.
  - apply Subseq_keep, IH.
Qed.

Lemma filter_Subseq {A : Type} (f : A -> bool) (xs : list A) :
  Subseq (filter f xs) xs.
Proof.
  induction xs as [|x xs IH]; simpl; [constructor|].
  destruct (f x); [apply Subseq_keep | apply Subseq_skip]; exact IH.
Qed.

Lemma Subseq_trans {A : Type} (xs ys zs : list A) :
  Subseq xs ys -> Subseq ys zs -> Subseq xs zs.
Proof.
  intros H1 H2. revert xs H1.
  induction H2 as [|z ys zs H2 IH|z ys zs H2 IH]; intros xs H1.
  - assumption.
  - apply Subseq_skip. auto.
  - inversion H1; subst; [apply Subseq_skip | apply Subseq_keep]; auto.
Qed.

Lemma Subseq_In {A : Type} (xs ys : list A) (x : A) :
  Subseq xs ys -> In x xs -> In x ys.
Proof.
  induction 1; simpl; intuition.
Qed.

(** The fields that do not come from the quiz. *)
Lemma normalizeParsed_fields (m : list (string * value)) (s : PediatricSummary) :
  normalizeParsed (VObj m) = Ok s ->
  simpleExplanation s = or_else (lookup "simpleExplanation" m) (VStr defaultExplanation)
  /\ whatToDo s = arrayOrEmpty (lookup "whatToDo" m)
  /\ whatNotToDo s = arrayOrEmpty (lookup "whatNotToDo" m)
  /\ redFlags s = arrayOrEmpty (lookup "redFlags" m)
  /\ medications s = arrayOrEmpty (lookup "medications" m)
  /\ followUp s = arrayOrEmpty (lookup "followUp" m)
  /\ expectedCourse s = or_else (lookup "expectedCourse" m) (VStr defaultCourse).
Proof.
  unfold normalizeParsed, coerceSummary. simpl.
  destruct (lookup "quizQuestions" m) as [| |b|n|t|raw|o];
    try (intros H; injection H as <-; simpl; repeat split; reflexivity).
  destruct (mapM sanitizeQuestion (filter wanted raw)) as [qs|e]; simpl;
    [|discriminate].
  intros H; injection H as <-; simpl; repeat split; reflexivity.
Qed.

Lemma arrayField_spec (m : list (string * value)) (s : PediatricSummary)
    (name : string) :
  normalizeParsed (VObj m) = Ok s -> In name arrayFields ->
  arrayField name s = arrayOrEmpty (lookup name m).
Proof.
  intros H Hin. apply normalizeParsed_fields in H.
  destruct H as (_ & H1 & H2 & H3 & H4 & H5 & _).
  unfold arrayFields in Hin. simpl in Hin.
  destruct Hin as [<-|[<-|[<-|[<-|[<-|[]]]]]]; assumption.
Qed.

(** *** The set of correct indexes *)

Lemma setKey_integer (v : value) (z : Z) :
  integerValue v = Some z -> setKey v = VNum (Int z).
Proof.
  destruct v as [| |b|n|t|l|m]; try discriminate.
  destruct n; try discriminate; simpl; congruence.
Qed.

Lemma seen_int (z : Z) (seen : list value) :
  Forall isInt seen ->
  existsb (sameValueZero (VNum (Int z))) seen = true <-> In (VNum (Int z)) seen.
Proof.
  intros Hs. rewrite existsb_exists. split.
  - intros (v & Hin & Hv). rewrite Forall_forall in Hs.
    destruct (Hs _ Hin) as [z' ->]. simpl in Hv.
    apply Z.eqb_eq in Hv. now subst.
  - intros Hin. exists (VNum (Int z)). split; [assumption|].
    simpl. apply Z.eqb_refl.
Qed.

Lemma setAdd_spec (xs : list value) :
  forall seen,
    Forall (fun x => exists z, integerValue x = Some z) xs ->
    Forall isInt seen -> NoDup seen ->
    Forall isInt (setAdd seen xs) /\ NoDup (setAdd seen xs)
    /\ forall v, In v (setAdd seen xs) <->
                 In v seen \/ exists x, In x xs /\ v = setKey x.
Proof.
  induction xs as [|x xs IH]; intros seen Hx Hs Hn; simpl.
  - repeat split; auto. intros [H|(x & [] & _)]; assumption.
  - inversion Hx as [|? ? [z Hz] Hx']; subst.
    rewrite (setKey_integer _ _ Hz).
    destruct (existsb (sameValueZero (VNum (Int z))) seen) eqn:E.
    + destruct (IH seen Hx' Hs Hn) as (H1 & H2 & H3).
      repeat split; auto.
      * intros H. apply H3 in H. destruct H as [H|(y & Hy & ->)]; auto.
        right. exists y. auto.
      * intros [H|(y & [<-|Hy] & ->)].
        -- apply H3. auto.
        -- apply H3. left. rewrite (setKey_integer _ _ Hz).
           now apply seen_int.
        -- apply H3. right. eauto.
    + assert (Hnot : ~ In (VNum (Int z)) seen).
      { intros Hin. apply (seen_int _ _ Hs) in Hin. congruence. }
      destruct (IH (seen ++ [VNum (Int z)])%list Hx') as (H1 & H2 & H3).
      * apply Forall_app. split; [assumption|]. repeat constructor.
        now exists z.
      * apply NoDup_app; auto.
        -- repeat constructor. intros [].
        -- intros a Ha [<-|[]]. contradiction.
      * repeat split; auto.
        -- intros H. apply H3 in H. rewrite in_app_iff in H.
           destruct H as [[H|[<-|[]]]|(y & Hy & ->)]; auto.
           ++ right. exists x. rewrite (setKey_integer _ _ Hz). auto.
           ++ right. exists y. auto.
        -- intros [H|(y & [<-|Hy] & ->)]; apply H3; rewrite in_app_iff.
           ++ auto.
           ++ left. right. rewrite (setKey_integer _ _ Hz). simpl. auto.
           ++ right. eauto.
Qed.

Lemma validIndex_spec (maxIndex : Z) (v : value) :
  validIndex maxIndex v = true <->
  exists z, integerValue v = Some z /\ 0 <= z <= maxIndex.
Proof.
  unfold validIndex. destruct (integerValue v) as [z|].
  - rewrite andb_true_iff, Z.leb_le, Z.leb_le. split.
    + intros H. exists z. auto.
    + intros (z' & Hz & H). now injection Hz as ->.
  - split; [discriminate|]. intros (z & Hz & _). discriminate.
Qed.

(** The deduplicated correct indexes: the integers of the raw list that lie
    in the bounds, each of them once. *)
Lemma unique_indexes_spec (maxIndex : Z) (rawIdx : list value) :
  let unique := Array_from_Set (filter (validIndex maxIndex) rawIdx) in
  NoDup unique
  /\ forall v, In v unique <->
       exists z, v = VNum (Int z) /\ 0 <= z <= maxIndex
                 /\ exists x, In x rawIdx /\ integerValue x = Some z.
Proof.
  intros unique.
  destruct (setAdd_spec (filter (validIndex maxIndex) rawIdx) [])
    as (_ & Hn & Hi).
  - apply Forall_forall. intros x Hx. apply filter_In in Hx.
    destruct Hx as [_ Hx]. apply validIndex_spec in Hx.
    destruct Hx as (z & Hz & _). eauto.
  - constructor.
  - constructor.
  - split; [exact Hn|]. intros v. unfold unique, Array_from_Set.
    rewrite Hi. split.
    + intros [[]|(x & Hx & ->)]. apply filter_In in Hx.
      destruct Hx as [Hin Hv]. apply validIndex_spec in Hv.
      destruct Hv as (z & Hz & Hb). exists z.
      rewrite (setKey_integer _ _ Hz). eauto.
    + intros (z & -> & Hb & x & Hin & Hz). right. exists x. split.
      * apply filter_In. split; [assumption|]. apply validIndex_spec. eauto.
      * now rewrite (setKey_integer _ _ Hz).
Qed.

(** The sanitizer returns for every raw question that has the types of the
    interface: options that are strings, a question that is a string, and
    correct indexes that are an array or are missing. *)
Lemma sanitizeQuestion_returns (q : value) (opts : list string) (text : string) :
  prop q "options" = VArr (map VStr opts) ->
  prop q "question" = VStr text ->
  isArray (or_else (prop q "correctOptionIndexes") (VArr [])) = true ->
  exists q', sanitizeQuestion q = Ok q'.
Proof.
  intros Ho Hq Hi. unfold sanitizeQuestion. rewrite Ho, Hq. cbn [arrayOrEmpty].
  assert (Hf : exists kept, filterM keepOption (map VStr opts) = Ok kept).
  { clear. induction opts as [|o opts IH]; [now exists []|].
    destruct IH as [kept IH]. cbn [map filterM]. rewrite IH.
    assert (Hk : exists b, keepOption (VStr o) = Ok b).
    { unfold keepOption. destruct (negb (truthy (VStr o))); [eauto|].
      destruct (String.eqb (toLowerCase (trim o)) EmptyString); eauto. }
    destruct Hk as [b ->]. cbn [bind]. eauto. }
  destruct Hf as [kept ->]. cbn [bind].
  destruct (or_else (prop q "correctOptionIndexes") (VArr []));
    try discriminate.
  cbn [callFilter bind callSlice].
  destruct (truthy (prop q "id")); cbn [bind]; eauto.
Qed.

(** Example 2 of the specification. *)
Example sanitizer_example :
  exists q', sanitizeQuestion Samples.metaQuestion = Ok q'
    /\ options q' = [VStr "Call the doctor"; VStr "Go to ER"]
    /\ correctOptionIndexes q' = [VNum (Int 0); VNum (Int 1)].
Proof. eexists. repeat split. Qed.

(** A repeated index is kept once and a negative zero is the index 0. *)
Example repeated_index_example :
  exists q', sanitizeQuestion Samples.repeatedIndexQuestion = Ok q'
    /\ correctOptionIndexes q' = [VNum (Int 2); VNum (Int 0)].
Proof. eexists. repeat split. Qed.


End SanitizerFacts.

Module GraderFacts.
Import JS Gemini.

Lemma filter_both {A : Type} (f g : A -> bool) (xs : list A) :
  filter (fun x => f x && g x) xs = filter g (filter f xs).
Proof.
  induction xs as [|x xs IH]; simpl; [reflexivity|].
  destruct (f x); simpl; [destruct (g x)|]; now rewrite IH.
Qed.

Lemma enoughKeywords_spec (matched total : nat) :
  enoughKeywords matched total = true <->
  (Qmin 3 (inject_Z (Z.of_nat total) / 3) <= inject_Z (Z.of_nat matched))%Q.
Proof. unfold enoughKeywords. apply Qle_bool_iff. Qed.

Lemma enoughKeywords_integers (matched total : nat) :
  enoughKeywords matched total = true <->
  (3 <= matched \/ total <= 3 * matched)%nat.
Proof.
  rewrite enoughKeywords_spec, Q.min_le_iff.
  unfold Qle, Qdiv, Qmult, Qinv, inject_Z. simpl.
  rewrite !Z.mul_1_r. split; intros [H|H]; [left|right|left|right]; lia.
Qed.

(** Example 4 of the specification: seven tokens, two of them found, which
    is less than seven thirds. *)
Example fallback_example :
  keywordsOf "avoid juice; avoid soda; avoid greasy food"
  = ["avoid"; "juice"; "avoid"; "soda"; "avoid"; "greasy"; "food"]
  /\ matchedKeywordsOf "avoid juice; avoid soda; avoid greasy food"
                       "no juice or soda"
     = ["juice"; "soda"]
  /\ isCorrect (fallbackGrade "avoid juice; avoid soda; avoid greasy food"
                              "no juice or soda")
     = VBool false.
Proof. repeat split. Qed.

End GraderFacts.

Module IdempotenceFacts.
Import JS Gemini StringFacts SanitizerFacts.

Lemma mapM_Forall2 {A B : Type} (f : A -> result B) (xs : list A) :
  forall ys, mapM f xs = Ok ys -> Forall2 (fun x y => f x = Ok y) xs ys.
Proof.
  induction xs as [|x xs IH]; simpl; intros ys H.
  - injection H as <-. constructor.
  - destruct (f x) as [y|e] eqn:Ef; simpl in H; [|discriminate].
    destruct (mapM f xs) as [rest|e] eqn:Em; simpl in H; [|discriminate].
    injection H as <-. constructor; auto.
Qed.

Lemma mapM_map {A B : Type} (f : A -> result B) (g : B -> A) (ys : list B) :
  Forall (fun y => f (g y) = Ok y) ys -> mapM f (map g ys) = Ok ys.
Proof.
  induction 1 as [|y ys Hy _ IH]; simpl; [reflexivity|].
  now rewrite Hy, IH.
Qed.

Lemma filter_all {A : Type} (f : A -> bool) (xs : list A) :
  Forall (fun x => f x = true) xs -> filter f xs = xs.
Proof.
  induction 1 as [|x xs Hx _ IH]; simpl; [reflexivity|].
  now rewrite Hx, IH.
Qed.

Lemma filterM_all {A : Type} (f : A -> result bool) (xs : list A) :
  Forall (fun x => f x = Ok true) xs -> filterM f xs = Ok xs.
Proof.
  induction 1 as [|x xs Hx _ IH]; simpl; [reflexivity|].
  now rewrite Hx, IH.
Qed.

Lemma survives_keepOption (opt : value) :
  survives opt = true -> keepOption opt = Ok true.
Proof.
  unfold survives, keepOption.
  destruct opt as [| |b|n|s|l|m]; try discriminate.
  intros H. apply andb_prop in H. destruct H as [Ht Hm].
  destruct s as [|c s]; [discriminate|].
  cbn [truthy String.eqb negb]. rewrite toLowerCase_empty.
  apply negb_true_iff in Ht. rewrite Ht. now rewrite Hm.
Qed.

Lemma setAdd_fresh (xs : list value) :
  forall seen,
    Forall isInt xs -> Forall isInt seen -> NoDup (seen ++ xs)%list ->
    setAdd seen xs = (seen ++ xs)%list.
Proof.
  induction xs as [|x xs IH]; intros seen Hx Hs Hn; simpl.
  - now rewrite app_nil_r.
  - inversion Hx as [|? ? [z ->] Hx']; subst. cbn [setKey].
    assert (Hnot : ~ In (VNum (Int z)) seen).
    { intros Hin. apply NoDup_remove_2 in Hn. apply Hn.
      apply in_or_app. now left. }
    destruct (existsb (sameValueZero (VNum (Int z))) seen) eqn:E.
    + apply (seen_int _ _ Hs) in E. contradiction.
    + rewrite IH; auto.
      * now rewrite <- List.app_assoc.
      * apply Forall_app. split; [assumption|]. repeat constructor. now exists z.
      * now rewrite <- List.app_assoc.
Qed.

Lemma questionRead_props (q : QuizQuestion) :
  prop (questionRead q) "id" = id q
  /\ prop (questionRead q) "question" = question q
  /\ prop (questionRead q) "options" = VArr (options q)
  /\ prop (questionRead q) "correctOptionIndexes" = VArr (correctOptionIndexes q)
  /\ prop (questionRead q) "category" = category q
  /\ prop (questionRead q) "explanation" = explanation q
  /\ prop (questionRead q) "weight" = weight q.
Proof.
  unfold questionRead. destruct (explanation q); repeat split; reflexivity.
Qed.

(** Without its members that hold [undefined], a summary serializes to the
    same text. *)
Lemma serialize_summaryRead (s : PediatricSummary) :
  stringify (summaryRead s) = serialize s.
Proof.
  unfold serialize, summaryRead, summaryValue.
  destruct (quizQuestions s) as [qs|]; [|reflexivity].
  assert (Hq : map stringify (map questionRead qs)
               = map stringify (map questionValue qs)).
  { induction qs as [|q qs IH]; [reflexivity|].
    cbn [map]. rewrite IH. f_equal.
    unfold questionRead, questionValue. now destruct (explanation q). }
  cbn. now rewrite Hq.
Qed.

(** The sanitizer establishes [sanitized]. *)
Lemma sanitizeQuestion_sanitized (q : value) (q' : QuizQuestion) :
  wanted q = true -> sanitizeQuestion q = Ok q' -> sanitized q'.
Proof.
  intros Hw H.
  destruct (sanitizeQuestion_Ok _ _ H)
    as (rawIdx & Hr & Ho & Hc & Hq & Hcat & He & Hwt & Hid).
  cbv zeta in Hc. rewrite <- Ho in Hc.
  unfold wanted in Hw. repeat (apply andb_prop in Hw; destruct Hw as [Hw ?]).
  unfold sanitized. repeat split.
  - now rewrite Hq.
  - destruct (truthy (prop q "id")) eqn:Ei.
    + injection Hid as <-. exact Ei.
    + destruct (prop q "question") as [| |b|n|t|l|m]; try discriminate.
      * destruct t; [discriminate|]. now injection Hid as <-.
      * now injection Hid as <-.
  - rewrite Ho. apply Forall_forall. intros x Hx.
    apply (Subseq_In _ _ _ (firstn_Subseq _ _)) in Hx.
    now apply filter_In in Hx.
  - rewrite Ho. apply firstn_le_length.
  - rewrite Hc. destruct (unique_indexes_spec
                            (Z.of_nat (List.length (options q')) - 1) rawIdx)
      as [Hn _].
    destruct (0 <? _); [exact Hn | repeat constructor; intros []].
  - rewrite Hc.
    destruct (Array_from_Set _) as [|v rest]; simpl; discriminate.
  - rewrite Hc. destruct (unique_indexes_spec
                            (Z.of_nat (List.length (options q')) - 1) rawIdx)
      as [_ Hi].
    destruct (0 <? _).
    + apply Forall_forall. intros v Hv. apply Hi in Hv.
      destruct Hv as (z & -> & Hb & _). exists z. split; [reflexivity|]. lia.
    + repeat constructor. exists 0. split; [reflexivity|]. lia.
  - rewrite Hwt. destruct (prop q "weight") as [| |b|n|t|l|m]; try reflexivity.
    now destruct n.
  - rewrite Hwt. destruct (prop q "weight") as [| |b|n|t|l|m]; try reflexivity.
    now destruct n.
  - rewrite Hcat. now destruct (prop q "category").
Qed.

(** The normalizer establishes [normalized]. *)
Lemma normalizeParsed_normalized (parsed : value) (s : PediatricSummary) :
  normalizeParsed parsed = Ok s -> normalized s.
Proof.
  unfold normalizeParsed, coerceSummary. intros H.
  destruct (get parsed "simpleExplanation") as [x|e]; [|discriminate].
  cbn [bind] in H.
  assert (Hx : truthy (or_else x (VStr defaultExplanation)) = true)
    by (unfold or_else; now destruct (truthy x) eqn:E).
  assert (Hy : truthy (or_else (prop parsed "expectedCourse") (VStr defaultCourse))
               = true)
    by (unfold or_else;
        now destruct (truthy (prop parsed "expectedCourse")) eqn:E).
  destruct (prop parsed "quizQuestions") as [| |b|n|t|raw|m];
    try (injection H as <-; repeat split; auto; discriminate).
  destruct (mapM sanitizeQuestion (filter wanted raw)) as [qs|e] eqn:Em;
    [|discriminate].
  cbn [bind] in H. injection H as <-. repeat split; auto.
  cbn [quizQuestions withQuiz]. intros qs' Hq. injection Hq as <-.
  apply mapM_Forall2 in Em.
  assert (Hall : Forall (fun q => wanted q = true) (filter wanted raw))
    by (apply Forall_forall; intros q Hq; now apply filter_In in Hq).
  induction Em as [|q q' l l' Hs _ IH]; constructor.
  - inversion Hall; subst. eapply sanitizeQuestion_sanitized; eauto.
  - inversion Hall; subst. auto.
Qed.

(** Sanitizing again a sanitized question that has two options or more
    changes nothing. *)
Lemma sanitizeQuestion_again (q : QuizQuestion) :
  sanitized q -> (2 <= List.length (options q))%nat ->
  wanted (questionRead q) = true
  /\ sanitizeQuestion (questionRead q) = Ok q.
Proof.
  intros (Hq & Hid & Ho & Hl & Hn & Hne & Hi & Hw & Hnan & Hc) H2.
  destruct (questionRead_props q) as (P1 & P2 & P3 & P4 & P5 & P6 & P7).
  split.
  - unfold wanted. rewrite P2, P3, Hq. cbn [truthy questionRead andb isArray arrayOrEmpty].
    apply Z.leb_le. lia.
  - unfold sanitizeQuestion. rewrite P1, P2, P3, P4, P5, P6, P7.
    cbn [arrayOrEmpty].
    rewrite (filterM_all keepOption (options q)).
    2:{ apply Forall_forall. intros x Hx. apply survives_keepOption.
        rewrite Forall_forall in Ho. auto. }
    cbn [bind]. rewrite (firstn_all2 (n := 4) (options q) Hl).
    unfold or_else. cbn [truthy callFilter bind].
    rewrite filter_all.
    2:{ apply Forall_forall. intros v Hv. rewrite Forall_forall in Hi.
        destruct (Hi v Hv) as (z & -> & Hb). apply validIndex_spec.
        exists z. split; [reflexivity|]. lia. }
    unfold Array_from_Set. rewrite setAdd_fresh; auto.
    2:{ apply Forall_forall. intros v Hv. rewrite Forall_forall in Hi.
        destruct (Hi v Hv) as (z & -> & _). now exists z. }
    cbn [app]. rewrite Hid, Hw, Hnan, Hc. cbn [negb orb bind].
    assert (Hpos : (0 <? Z.of_nat (List.length (correctOptionIndexes q))) = true).
    { apply Z.ltb_lt. destruct (correctOptionIndexes q); [congruence|].
      simpl. lia. }
    rewrite Hpos. now destruct q.
Qed.

(** Normalizing again the value read back from a normalized summary whose
    questions have two options or more changes nothing. *)
Lemma normalizeParsed_again (s : PediatricSummary) :
  normalized s -> twoOptionsEach s ->
  normalizeParsed (summaryRead s) = Ok s.
Proof.
  intros (Hx & Hy & Hq) H2. destruct s as [se wd wn rf md fu ec qq].
  cbn [simpleExplanation expectedCourse quizQuestions] in *.
  destruct qq as [qs|].
  - assert (Hall : Forall (fun q => wanted (questionRead q) = true
                          /\ sanitizeQuestion (questionRead q) = Ok q) qs).
    { apply Forall_forall. intros q Hin. apply sanitizeQuestion_again.
      - specialize (Hq qs eq_refl). rewrite Forall_forall in Hq. auto.
      - apply (H2 qs q eq_refl Hin). }
    unfold normalizeParsed, coerceSummary, summaryRead, or_else.
    cbn [get prop lookup String.eqb Ascii.eqb Bool.eqb bind app
         simpleExplanation whatToDo whatNotToDo redFlags medications followUp
         expectedCourse quizQuestions arrayOrEmpty].
    rewrite Hx, Hy.
    rewrite filter_all.
    2:{ apply Forall_forall. intros v Hv. apply in_map_iff in Hv.
        destruct Hv as (q & <- & Hin). rewrite Forall_forall in Hall.
        apply (Hall q Hin). }
    rewrite mapM_map.
    2:{ apply Forall_forall. intros q Hin. rewrite Forall_forall in Hall.
        apply (Hall q Hin). }
    reflexivity.
  - unfold normalizeParsed, coerceSummary, summaryRead, or_else.
    cbn [get prop lookup String.eqb Ascii.eqb Bool.eqb bind app
         simpleExplanation whatToDo whatNotToDo redFlags medications followUp
         expectedCourse quizQuestions arrayOrEmpty].
    now rewrite Hx, Hy.
Qed.

Lemma normalize_normalized (JSON_parse : string -> option value)
    (responseText : string) (s : PediatricSummary) :
  normalize JSON_parse responseText = Ok s -> normalized s.
Proof.
  unfold normalize. intros H.
  destruct (extractJsonText responseText) as [jsonText|e]; [|discriminate].
  cbn [bind] in H.
  destruct (JSON_parse jsonText) as [parsed|]; [|discriminate].
  now apply (normalizeParsed_normalized parsed).
Qed.

(** The scan returns the serialization whole when no string of the summary
    holds a brace or a backtick; the second run then gives the summary
    again. *)
Lemma renormalize_plain (JSON_parse : string -> option value)
    (responseText : string) (s : PediatricSummary) :
  normalize JSON_parse responseText = Ok s ->
  twoOptionsEach s ->
  braceFree (summaryValue s) = true ->
  tickFree (summaryValue s) = true ->
  JSON_parse (serialize s) = Some (summaryRead s) ->
  normalize JSON_parse (serialize s) = Ok s.
Proof.
  intros H1 H2 Hb Ht H4.
  apply normalize_normalized in H1.
  assert (H3 : extractJsonText (serialize s) = Ok (serialize s)).
  { unfold serialize, summaryValue in *.
    now apply ExtractionFacts.extract_plain_object. }
  unfold normalize. rewrite H3. cbn [bind]. rewrite H4.
  now apply normalizeParsed_again.
Qed.

End IdempotenceFacts.

Module ScanFacts.
Import JS Gemini StringFacts ExtractionFacts.

Lemma indexOf_split (c : ascii) (s : string) (n : nat) :
  indexOf s c = Some n ->
  exists pre rest, s = pre ++ String c rest /\ noChar c pre = true
                   /\ String.length pre = n.
Proof.
  revert n. induction s as [|a s IH]; intros n H; [discriminate|].
  simpl in H. destruct (Ascii.eqb a c) eqn:E.
  - injection H as <-. apply Ascii.eqb_eq in E. subst a.
    exists EmptyString, s. repeat split.
  - destruct (indexOf s c) as [k|]; [|discriminate]. injection H as <-.
    destruct (IH k eq_refl) as (pre & rest & -> & Hp & Hl).
    exists (String a pre), rest. simpl. rewrite E, Hp, Hl. repeat split.
Qed.

Lemma indexOf_none (c : ascii) (s : string) :
  indexOf s c = None <-> noChar c s = true.
Proof.
  induction s as [|a s IH]; simpl; [tauto|].
  destruct (Ascii.eqb a c); simpl.
  - split; discriminate.
  - rewrite <- IH. destruct (indexOf s c); simpl; split; congruence.
Qed.

(** Where the loop stops, a nested text and its closing brace lie behind. *)
Lemma scanBraces_found (s : string) :
  forall (d i j : nat),
    scanBraces s i (Z.of_nat (S d)) = Some j ->
    exists inside post,
      s = inside ++ "}" ++ post /\ nested d inside = true
      /\ j = (i + String.length inside)%nat.
Proof.
  induction s as [|c s IH]; intros d i j H; [discriminate|].
  cbn [scanBraces] in H.
  destruct (Ascii.eqb c "{") eqn:Eo.
  - apply Ascii.eqb_eq in Eo. subst c.
    change (Ascii.eqb "{" "}") with false in H. cbv iota in H.
    replace (Z.of_nat (S d) + 1) with (Z.of_nat (S (S d))) in H by lia.
    destruct (IH _ _ _ H) as (inside & post & -> & Hn & ->).
    exists (String "{" inside), post. repeat split; [exact Hn|simpl; lia].
  - destruct (Ascii.eqb c "}") eqn:Ec.
    + apply Ascii.eqb_eq in Ec. subst c. destruct d as [|d'].
      * change (Z.of_nat 1 - 1 =? 0) with true in H. injection H as <-.
        exists EmptyString, s. repeat split. simpl. lia.
      * replace (Z.of_nat (S (S d')) - 1) with (Z.of_nat (S d')) in H by lia.
        assert (Hz : (Z.of_nat (S d') =? 0) = false) by (apply Z.eqb_neq; lia).
        rewrite Hz in H.
        destruct (IH _ _ _ H) as (inside & post & -> & Hn & ->).
        exists (String "}" inside), post. repeat split; [exact Hn|simpl; lia].
    + destruct (IH _ _ _ H) as (inside & post & -> & Hn & ->).
      exists (String c inside), post. repeat split.
      * simpl. now rewrite Eo, Ec.
      * simpl. lia.
Qed.

(** The three outcomes of the extraction, by what the stripped text is. *)
Lemma extract_cases (raw : string) :
  (noChar "{" (stripFences raw) = true
   /\ extractJsonText raw = Throw (NoJsonObject raw))
  \/ (noChar "{" (stripFences raw) = false
      /\ extractJsonText raw = Throw (IncompleteJson raw))
  \/ (exists pre obj post,
        stripFences raw = pre ++ obj ++ post /\ noChar "{" pre = true
        /\ balancedObject obj /\ extractJsonText raw = Ok obj).
Proof.
  destruct (indexOf (stripFences raw) "{") as [n|] eqn:Ei.
  - destruct (indexOf_split _ _ _ Ei) as (pre & rest & Hs & Hp & Hl).
    assert (Hno : noChar "{" (stripFences raw) = false).
    { destruct (noChar "{" (stripFences raw)) eqn:E; [|reflexivity].
      apply indexOf_none in E. congruence. }
    destruct (scanBraces rest (S (String.length pre)) (Z.of_nat 1))
      as [j|] eqn:Es.
    + destruct (scanBraces_found _ _ _ _ Es) as (inside & post & -> & Hn & ->).
      right. right. exists pre, ("{" ++ inside ++ "}"), post.
      assert (Hshape : stripFences raw = pre ++ ("{" ++ inside ++ "}") ++ post).
      { rewrite Hs. f_equal.
        change (("{" ++ inside ++ "}") ++ post)
          with (String "{" ((inside ++ "}") ++ post)).
        now rewrite app_assoc. }
      assert (Hb : balancedObject ("{" ++ inside ++ "}"))
        by (exists inside; auto).
      repeat split; auto.
      now apply (extract_after_strip raw pre _ post).
    + right. left. split; [exact Hno|].
      unfold extractJsonText. rewrite Ei, Hs, <- Hl, drop_app_length.
      cbn [scanBraces]. change (Ascii.eqb "{" "{") with true.
      change (Ascii.eqb "{" "}") with false. cbv iota.
      change (0 + 1) with (Z.of_nat 1). now rewrite Es.
  - left. split; [now apply indexOf_none|].
    unfold extractJsonText. now rewrite Ei.
Qed.

End ScanFacts.

Module EnvelopeFacts.
Import JS Gemini.

(** Parts that are an array are there when the array is not empty, and
    falsy parts are not there. *)
Lemma hasParts_some (x : value) (rest : list value) :
  hasParts (VArr (x :: rest)) = Ok true.
Proof.
  unfold hasParts. cbn [truthy lengthOf isPositive].
  replace (0 <? Z.of_nat (List.length (x :: rest))) with true; [reflexivity|].
  symmetry. apply Z.ltb_lt. cbn [List.length]. lia.
Qed.

Lemma hasParts_none (parts : value) :
  truthy parts = false \/ parts = VArr [] -> hasParts parts = Ok false.
Proof. unfold hasParts. now intros [-> | ->]. Qed.

(** Parts that are no array count through their [length], which the
    comparison converts to a number: an object with the length "1" has
    parts, its member 0 being the first. *)
Example length_as_text_counts :
  hasParts (VObj [("length", VStr "1"); ("0", VObj [("text", VStr "{}")])])
  = Ok true
  /\ hasParts (VObj [("length", VArr [])]) = Ok false
  /\ hasParts (VObj [("length", VObj [("toString", VNull)])])
     = Throw TypeError.
Proof. repeat split. Qed.

(** The checks that a response with a healthy first candidate passes. *)
Lemma responseTextOf_head (dm cm : list (string * value)) (others : list value) :
  truthy (lookup "error" dm) = false ->
  lookup "candidates" dm = VArr (VObj cm :: others) ->
  isString (lookup "finishReason" cm) "MAX_TOKENS" = false ->
  truthy (lookup "content" cm) = true ->
  responseTextOf (VObj dm) =
  (withParts <- hasParts (prop (lookup "content" cm) "parts") ;;
   responseText <-
     (if withParts
      then textOfParts (prop (lookup "content" cm) "parts")
      else textWithoutParts (VObj dm) (VObj cm)) ;;
   if negb (truthy responseText) || isZero (lengthOf responseText)
   then Throw (CouldNotExtract (VObj dm))
   else match responseText with
        | VStr s => Ok s
        | _ => Throw TypeError
        end).
Proof.
  intros He Hc Hf Ht. unfold responseTextOf. cbn [get prop bind].
  rewrite He, Hc. cbn [truthy negb orb lengthOf isZero first get prop bind].
  rewrite Hf, Ht. destruct others; reflexivity.
Qed.

(** A trimmed text that holds no text is the empty string. *)
Lemma trimmed_text (t : string) :
  t <> EmptyString ->
  (negb (truthy (VStr (trim t))) || isZero (lengthOf (VStr (trim t)))) = true
  <-> trim t = EmptyString.
Proof.
  intros _. destruct (trim t) as [|c s]; cbn; [tauto|].
  split; [|discriminate].
  intros H. first [discriminate H | apply Z.eqb_eq in H; lia].
Qed.

End EnvelopeFacts.

Module FallbackFacts.
Import JS Gemini StringFacts GraderFacts.

Lemma startsWith_iff (s p : string) :
  startsWith s p = true <-> exists post, s = p ++ post.
Proof.
  revert s. induction p as [|a p IH]; intros s.
  - split; [exists s; reflexivity | now destruct s].
  - destruct s as [|b s]; cbn [startsWith].
    + split; [discriminate | intros (post & H); discriminate].
    + rewrite andb_true_iff, Ascii.eqb_eq, IH. split.
      * intros (-> & post & ->). exists post. reflexivity.
      * intros (post & H). injection H as -> ->. eauto.
Qed.

Lemma includes_iff (s p : string) :
  includes s p = true <-> exists pre post, s = pre ++ p ++ post.
Proof.
  induction s as [|c s IH]; cbn [includes].
  - rewrite orb_false_r, startsWith_iff. split.
    + intros (post & H). exists EmptyString, post. exact H.
    + intros (pre & post & H). destruct pre; [eauto|discriminate].
  - rewrite orb_true_iff, startsWith_iff, IH. split.
    + intros [(post & H)|(pre & post & ->)].
      * exists EmptyString, post. exact H.
      * exists (String c pre), post. reflexivity.
    + intros (pre & post & H). destruct pre as [|a pre].
      * left. exists post. exact H.
      * right. injection H as -> ->. eauto.
Qed.




Lemma splitRuns_nonempty (sep : ascii -> bool) (after : bool) (s : string) :
  splitRuns sep after s <> [].
Proof.
  revert after. induction s as [|c s IH]; intros after; simpl; [discriminate|].
  destruct (sep c).
  - destruct after; [apply IH | discriminate].
  - destruct (splitRuns sep false s); discriminate.
Qed.

Lemma keywordsOf_nonempty (correctAnswer : string) :
  (1 <= List.length (keywordsOf correctAnswer))%nat.
Proof.
  unfold keywordsOf.
  pose proof (splitRuns_nonempty keywordSeparator false
                (toLowerCase correctAnswer)) as H.
  destruct (splitRuns _ _ _); [congruence|simpl; lia].
Qed.

Lemma fallback_correct_iff (correctAnswer userAnswer : string) :
  isCorrect (fallbackGrade correctAnswer userAnswer) = VBool true <->
  (3 <= List.length (matchedKeywordsOf correctAnswer userAnswer)
   \/ List.length (keywordsOf correctAnswer)
      <= 3 * List.length (matchedKeywordsOf correctAnswer userAnswer))%nat.
Proof.
  unfold fallbackGrade. cbn [isCorrect].
  rewrite <- enoughKeywords_integers.
  destruct (enoughKeywords _ _); split; congruence.
Qed.

End FallbackFacts.

Module GraderPathFacts.
Import JS Gemini.

(** What a successful round trip of the grader returns. *)
Lemma gradeAttempt_Ok (JSON_parse : string -> option value)
    (response : fetched) (g : Grade) :
  gradeAttempt JSON_parse response = Ok g ->
  exists verdict said,
    g = {| isCorrect := nullish_or verdict (VBool false);
           feedback := or_else said (VStr "Thank you for your answer.") |}.
Proof.
  unfold gradeAttempt. intros H.
  repeat match type of H with
         | bind ?r _ = _ => destruct r; cbn [bind] in H; [|discriminate]
         | (if ?c then _ else _) = _ => destruct c; [discriminate|]
         | (if ?c then _ else _) = _ => destruct c; [|discriminate]
         | match ?v with _ => _ end = _ => destruct v; try discriminate
         end.
  injection H as <-. eauto.
Qed.

End GraderPathFacts.

Module ObjectFacts.
Import JS Gemini Samples StringFacts ExtractionFacts ScanFacts.

(** White space comes off a text up to its first opening brace at most. *)
Lemma trimStart_before_brace (p rest : string) :
  noChar "{" p = true ->
  exists p', trimStart (p ++ String "{" rest) = p' ++ String "{" rest
             /\ noChar "{" p' = true.
Proof.
  intros Hp. induction p as [|c p IH].
  - exists EmptyString. split; reflexivity.
  - simpl in Hp. apply andb_prop in Hp. destruct Hp as [Hc Hp].
    cbn [append trimStart]. destruct (isWhiteSpace c).
    + exact (IH Hp).
    + exists (String c p). split; [reflexivity|]. simpl. now rewrite Hc, Hp.
Qed.

(** A prefix without an opening brace lies before the first opening brace. *)
Lemma prefix_before_brace (p pre rest : string) :
  noChar "{" p = true ->
  startsWith (toLowerCase (take (String.length p) (pre ++ String "{" rest))) p
    = true
  \/ startsWith (pre ++ String "{" rest) p = true ->
  (String.length p <= String.length pre)%nat.
Proof.
  revert pre. induction p as [|a p IH]; intros pre Hp H; [simpl; lia|].
  simpl in Hp. apply andb_prop in Hp. destruct Hp as [Ha Hp].
  destruct pre as [|b pre].
  - exfalso. cbn [append String.length take toLowerCase startsWith] in H.
    change (lowerChar "{") with "{"%char in H.
    apply negb_true_iff in Ha. rewrite Ha in H. cbn [andb] in H. destruct H; discriminate.
  - cbn [append String.length take toLowerCase startsWith] in H.
    assert (H' : startsWith (toLowerCase (take (String.length p)
                                            (pre ++ String "{" rest))) p = true
                 \/ startsWith (pre ++ String "{" rest) p = true).
    { destruct H as [H|H]; apply andb_prop in H; tauto. }
    specialize (IH pre Hp H'). simpl. lia.
Qed.

Lemma drop_in_prefix (n : nat) (pre rest : string) :
  (n <= String.length pre)%nat ->
  drop n (pre ++ rest) = drop n pre ++ rest.
Proof.
  revert pre. induction n as [|n IH]; intros pre H; [reflexivity|].
  destruct pre as [|c pre]; simpl in *; [lia|]. apply IH. lia.
Qed.

Lemma noChar_drop (c : ascii) (n : nat) (s : string) :
  noChar c s = true -> noChar c (drop n s) = true.
Proof.
  revert s. induction n as [|n IH]; intros s H; [exact H|].
  destruct s as [|a s]; [reflexivity|]. simpl in *.
  apply andb_prop in H. apply IH. tauto.
Qed.

Lemma stripOpeningFence_before_brace (pre rest : string) :
  noChar "{" pre = true ->
  exists pre', stripOpeningFence (pre ++ String "{" rest) = pre' ++ String "{" rest
               /\ noChar "{" pre' = true.
Proof.
  intros Hp. unfold stripOpeningFence.
  destruct (startsWith (pre ++ String "{" rest) "```") eqn:E;
    [|exists pre; auto].
  assert (Hl : (3 <= String.length pre)%nat)
    by (apply (prefix_before_brace "```" pre rest); auto).
  rewrite (drop_in_prefix 3 _ _ Hl).
  apply trimStart_before_brace. now apply noChar_drop.
Qed.

Lemma stripJsonFence_before_brace (pre rest : string) :
  noChar "{" pre = true ->
  exists pre', stripJsonFence (pre ++ String "{" rest) = pre' ++ String "{" rest
               /\ noChar "{" pre' = true.
Proof.
  intros Hp. unfold stripJsonFence, startsWithNoCase.
  destruct (startsWith _ "```json") eqn:E; [|exists pre; auto].
  assert (Hl : (7 <= String.length pre)%nat)
    by (apply (prefix_before_brace "```json" pre rest); auto).
  rewrite (drop_in_prefix 7 _ _ Hl).
  apply trimStart_before_brace. now apply noChar_drop.
Qed.

(** A closing fence matched before the first opening brace ends before
    it. *)
Lemma closingFenceAt_before_brace (p rest r : string) :
  noChar "{" p = true ->
  closingFenceAt (p ++ String "{" rest) = Some r ->
  exists p', r = p' ++ String "{" rest /\ noChar "{" p' = true.
Proof.
  intros Hp. unfold closingFenceAt.
  destruct (trimStart_before_brace p rest Hp) as (q & -> & Hq).
  destruct (startsWith (q ++ String "{" rest) "```") eqn:E;
    cbn [andb]; [|discriminate].
  assert (Hl : (3 <= String.length q)%nat)
    by (apply (prefix_before_brace "```" q rest); auto).
  rewrite (drop_in_prefix 3 _ _ Hl).
  destruct (atLineEnd _); [|discriminate].
  intros H; injection H as <-. exists (drop 3 q).
  split; [reflexivity|]. now apply noChar_drop.
Qed.

Lemma startsWith_nil (s : string) : startsWith s EmptyString = true.
Proof. destruct s; reflexivity. Qed.

(** No closing fence is matched inside a text that holds none and ends
    with a closing brace. *)
Lemma closingFenceAt_inside_object (b post : string) :
  fenceFree (b ++ "}") = true ->
  closingFenceAt ((b ++ "}") ++ post) = None.
Proof.
  induction b as [|c b IH]; intros Hf; [reflexivity|].
  cbn [append fenceFree] in Hf. apply andb_prop in Hf. destruct Hf as [Hc Hf].
  unfold closingFenceAt. cbn [append trimStart].
  destruct (isWhiteSpace c) eqn:Ew.
  - exact (IH Hf).
  - apply negb_true_iff in Hc.
    destruct b as [|c2 [|c3 b]]; cbn [append startsWith drop] in *.
    + change (Ascii.eqb "`" "}") with false. now rewrite !andb_false_r.
    + change (Ascii.eqb "`" "}") with false. now rewrite !andb_false_r.
    + rewrite startsWith_nil in *.
      replace (atLineEnd ((b ++ "}") ++ post)) with (lineBreakAt (b ++ "}"))
        by (destruct b; reflexivity).
      now rewrite Hc.
Qed.

Lemma stripClosingFence_object (b post : string) :
  fenceFree (b ++ "}") = true ->
  stripClosingFence ((b ++ "}") ++ post) = (b ++ "}") ++ stripClosingFence post.
Proof.
  induction b as [|c b IH]; intros Hf.
  - rewrite stripClosingFence_unfold.
    rewrite (closingFenceAt_inside_object EmptyString post Hf). reflexivity.
  - rewrite stripClosingFence_unfold.
    rewrite (closingFenceAt_inside_object (String c b) post Hf).
    cbn [append fenceFree] in *. apply andb_prop in Hf. destruct Hf as [_ Hf].
    now rewrite (IH Hf).
Qed.

Lemma stripClosingFence_before_brace (pre inside post : string) :
  noChar "{" pre = true ->
  fenceFree ("{" ++ inside ++ "}") = true ->
  exists pre' post',
    stripClosingFence (pre ++ ("{" ++ inside ++ "}") ++ post)
    = pre' ++ ("{" ++ inside ++ "}") ++ post'
    /\ noChar "{" pre' = true.
Proof.
  intros Hp Hf. induction pre as [|c pre IH].
  - exists EmptyString, (stripClosingFence post). split; [|reflexivity].
    cbn [append].
    exact (stripClosingFence_object (String "{" inside) post Hf).
  - simpl in Hp. apply andb_prop in Hp. destruct Hp as [Hc Hp].
    rewrite stripClosingFence_unfold.
    destruct (closingFenceAt _) as [r|] eqn:E.
    + change (String c pre ++ ("{" ++ inside ++ "}") ++ post)
        with (String c pre ++ String "{" ((inside ++ "}") ++ post)) in E.
      apply closingFenceAt_before_brace in E;
        [|simpl; now rewrite Hc, Hp].
      destruct E as (p' & -> & Hp'). exists p', post. split; [reflexivity|exact Hp'].
    + destruct (IH Hp) as (pre' & post' & Hs & Hp').
      exists (String c pre'), post'. split; [|simpl; now rewrite Hc, Hp'].
      change (String c pre ++ ("{" ++ inside ++ "}") ++ post)
        with (String c (pre ++ ("{" ++ inside ++ "}") ++ post)).
      cbv iota. rewrite Hs. reflexivity.
Qed.

(** The four replacements leave an object without closing fence where it
    is, behind a text with no opening brace. *)
Lemma stripFences_keeps_object (pre inside post : string) :
  noChar "{" pre = true ->
  fenceFree ("{" ++ inside ++ "}") = true ->
  exists pre' post',
    stripFences (pre ++ ("{" ++ inside ++ "}") ++ post)
    = pre' ++ ("{" ++ inside ++ "}") ++ post'
    /\ noChar "{" pre' = true.
Proof.
  intros Hp Hf. unfold stripFences.
  change (pre ++ ("{" ++ inside ++ "}") ++ post)
    with (pre ++ String "{" ((inside ++ "}") ++ post)).
  destruct (stripJsonFence_before_brace pre ((inside ++ "}") ++ post) Hp)
    as (p1 & -> & H1).
  change (p1 ++ String "{" ((inside ++ "}") ++ post))
    with (p1 ++ ("{" ++ inside ++ "}") ++ post).
  destruct (stripClosingFence_before_brace p1 inside post H1 Hf)
    as (p2 & post2 & -> & H2).
  change (p2 ++ ("{" ++ inside ++ "}") ++ post2)
    with (p2 ++ String "{" ((inside ++ "}") ++ post2)).
  destruct (stripOpeningFence_before_brace p2 ((inside ++ "}") ++ post2) H2)
    as (p3 & -> & H3).
  change (p3 ++ String "{" ((inside ++ "}") ++ post2))
    with (p3 ++ ("{" ++ inside ++ "}") ++ post2).
  destruct (stripClosingFence_before_brace p3 inside post2 H3 Hf)
    as (p4 & post4 & -> & H4).
  eauto.
Qed.

(** Where no opening brace comes before it and no closing fence is matched
    inside it, an object text whose braces pair up is what the normalizer
    extracts. *)
Lemma extract_object_whole (pre obj post : string) :
  noChar "{" pre = true ->
  fenceFree obj = true ->
  balancedObject obj ->
  extractJsonText (pre ++ obj ++ post) = Ok obj.
Proof.
  intros Hp Hf (inside & -> & Hn).
  destruct (stripFences_keeps_object pre inside post Hp Hf)
    as (pre' & post' & Hs & Hp').
  apply (extract_after_strip _ pre' _ post' Hs Hp'). now exists inside.
Qed.

Lemma noBreak_app (a b : string) : noBreak (a ++ b) = noBreak a && noBreak b.
Proof.
  unfold noBreak. rewrite !noChar_app.
  destruct (noChar "010" a), (noChar "013" a), (noChar "010" b); reflexivity.
Qed.

Lemma noBreak_join (sep : string) (xs : list string) :
  noBreak sep = true -> Forall (fun x => noBreak x = true) xs ->
  noBreak (join sep xs) = true.
Proof.
  intros Hs H. induction H as [|x xs Hx Hxs IH]; [reflexivity|].
  destruct xs as [|y ys]; [exact Hx|].
  change (join sep (x :: y :: ys)) with (x ++ sep ++ join sep (y :: ys)).
  now rewrite !noBreak_app, Hx, Hs, IH.
Qed.

Lemma quoteChar_noBreak (c : ascii) : noBreak (quoteChar c) = true.
Proof. destruct c as [[] [] [] [] [] [] [] []]; reflexivity. Qed.

Lemma quote_noBreak (s : string) : noBreak (quote s) = true.
Proof.
  unfold quote.
  change (String "034" (quoteBody s ++ String "034" EmptyString))
    with (String "034" EmptyString ++ quoteBody s ++ String "034" EmptyString).
  rewrite !noBreak_app.
  assert (Hb : noBreak (quoteBody s) = true).
  { induction s as [|c s IH]; [reflexivity|].
    cbn [quoteBody]. now rewrite noBreak_app, quoteChar_noBreak, IH. }
  now rewrite Hb.
Qed.

Lemma digits_noBreak (d : Decimal.uint) :
  noBreak (NilEmpty.string_of_uint d) = true.
Proof. induction d; simpl; auto. Qed.

Lemma numberText_noBreak (n : number) :
  breakFree (VNum n) = true -> noBreak (numberText n) = true.
Proof.
  destruct n as [z| |r|neg|]; try reflexivity; [|auto].
  intros _. unfold numberText, noBreak.
  now rewrite !numeral_noChar by (reflexivity || apply integerText_numeral).
Qed.

Lemma stringify_noBreak (v : value) :
  breakFree v = true -> noBreak (stringify v) = true.
Proof.
  induction v as [| |b|n|s|l IH|m IH] using value_induction; intros H.
  - reflexivity.
  - reflexivity.
  - now destruct b.
  - now apply numberText_noBreak.
  - apply quote_noBreak.
  - cbn [stringify]. rewrite !noBreak_app.
    rewrite noBreak_join; [reflexivity|reflexivity|].
    cbn [breakFree] in H. rewrite forallb_forall in H.
    rewrite Forall_forall in IH. apply Forall_forall.
    intros t Ht. apply in_map_iff in Ht. destruct Ht as (x & <- & Hx). auto.
  - cbn [stringify]. rewrite !noBreak_app.
    rewrite noBreak_join; [reflexivity|reflexivity|].
    cbn [breakFree] in H. rewrite forallb_forall in H.
    rewrite Forall_forall in IH. apply Forall_forall.
    intros t Ht. apply in_flat_map in Ht. destruct Ht as ([k x] & Hin & Ht).
    specialize (H _ Hin). cbn in H.
    specialize (IH _ Hin H). cbn [snd] in IH.
    assert (Hm : noBreak (quote k ++ ":" ++ stringify x) = true)
      by (now rewrite !noBreak_app, quote_noBreak, IH).
    unfold memberText in Ht.
    destruct x; try (destruct Ht as [<-|[]]; exact Hm). destruct Ht.
Qed.

Lemma noBreak_fenceFree (s : string) : noBreak s = true -> fenceFree s = true.
Proof.
  assert (Hl : forall t, noBreak t = true -> lineBreakAt t = false).
  { intros [|c t]; [reflexivity|]. unfold noBreak. cbn [noChar lineBreakAt].
    destruct c as [[] [] [] [] [] [] [] []]; try reflexivity;
      cbn [Ascii.eqb Bool.eqb negb andb];
      rewrite ?andb_false_r; intros; discriminate. }
  assert (Hd : forall n t, noBreak t = true -> noBreak (drop n t) = true).
  { intros n t H. unfold noBreak in *. apply andb_prop in H.
    now rewrite !noChar_drop. }
  induction s as [|c s IH]; intros H; [reflexivity|].
  cbn [fenceFree]. rewrite (Hl _ (Hd 3%nat _ H)), andb_false_r. cbn [negb andb].
  apply IH. change (String c s) with (String c EmptyString ++ s) in H.
  rewrite noBreak_app in H. apply andb_prop in H. tauto.
Qed.

(** A text without backticks matches no closing fence. *)
Lemma tickless_fenceFree (s : string) :
  noChar "`" s = true -> fenceFree s = true.
Proof.
  induction s as [|c s IH]; [reflexivity|]. cbn [noChar fenceFree].
  intros H. apply andb_prop in H. destruct H as [Hc Hs].
  rewrite (IH Hs), andb_true_r. apply negb_true_iff in Hc.
  cbn [startsWith]. rewrite Ascii.eqb_sym, Hc. reflexivity.
Qed.

(** The serialization of an object whose strings and keys hold no brace is
    extracted whole, whatever stands around it, when no opening brace comes
    before it. *)
Lemma extract_serialized_anywhere (pre post : string)
    (m : list (string * value)) :
  noChar "{" pre = true ->
  braceFree (VObj m) = true ->
  breakFree (VObj m) = true ->
  extractJsonText (pre ++ stringify (VObj m) ++ post) = Ok (stringify (VObj m)).
Proof.
  intros Hp Hb Hl.
  apply extract_object_whole; auto.
  - apply noBreak_fenceFree. now apply stringify_noBreak.
  - now apply stringify_balanced.
Qed.

(** The serialization of a value holds no closing fence. *)
Lemma serialized_fenceFree (v : value) :
  breakFree v = true -> fenceFree (stringify v) = true.
Proof. intros H. apply noBreak_fenceFree. now apply stringify_noBreak. Qed.

(** Three backticks that end a line inside the braces are taken for a
    closing fence and removed with the white space before them. *)
Lemma fence_in_object_is_removed :
  extractJsonText ("{'a': 1" ++ newline ++ "```" ++ newline ++ "}")
  = Ok ("{'a': 1" ++ newline ++ "}").
Proof. reflexivity. Qed.

(** An opening brace in the prose before the object is where the scan
    starts. *)
Lemma brace_in_prose_is_taken :
  extractJsonText ("Use {braces} with care: " ++ dq "{'a':1}")
  = Ok "{braces}".
Proof. reflexivity. Qed.

End ObjectFacts.

Module TokenFacts.
Import JS Gemini StringFacts GraderFacts FallbackFacts GraderPathFacts.

Lemma keywordSeparator_separator (c : ascii) :
  keywordSeparator c = separator c.
Proof. destruct c as [[] [] [] [] [] [] [] []]; reflexivity. Qed.

Lemma splitRuns_ext (f g : ascii -> bool) (after : bool) (s : string) :
  (forall c, f c = g c) -> splitRuns f after s = splitRuns g after s.
Proof.
  intros H. revert after. induction s as [|c s IH]; intros after;
    [reflexivity|].
  cbn [splitRuns]. rewrite H, !IH. reflexivity.
Qed.

Lemma splitRuns_token (t : string) :
  tokenText t = true -> splitRuns separator false t = [t].
Proof.
  induction t as [|c t IH]; [reflexivity|]. cbn [tokenText splitRuns].
  intros H. apply andb_prop in H. destruct H as [Hc Ht].
  apply negb_true_iff in Hc. rewrite Hc, (IH Ht). reflexivity.
Qed.

Lemma splitRuns_start (rest : string) :
  startsToken rest = true ->
  splitRuns separator true rest = splitRuns separator false rest.
Proof.
  destruct rest as [|c rest]; [reflexivity|]. cbn [startsToken splitRuns].
  intros H. apply negb_true_iff in H. now rewrite H.
Qed.

Lemma splitRuns_run (run rest : string) :
  separatorText run = true -> startsToken rest = true ->
  splitRuns separator true (run ++ rest) = splitRuns separator false rest.
Proof.
  intros Hr Hs. induction run as [|c run IH]; [now apply splitRuns_start|].
  cbn [separatorText] in Hr. apply andb_prop in Hr. destruct Hr as [Hc Hr].
  change (String c run ++ rest) with (String c (run ++ rest)).
  cbn [splitRuns]. rewrite Hc. exact (IH Hr).
Qed.

Lemma splitRuns_more (t run rest : string) :
  tokenText t = true -> separatorRun run = true -> startsToken rest = true ->
  splitRuns separator false (t ++ run ++ rest)
  = t :: splitRuns separator false rest.
Proof.
  intros Ht Hr Hs. induction t as [|c t IH].
  - destruct run as [|c run]; [discriminate|].
    unfold separatorRun in Hr. cbn [String.eqb negb andb separatorText] in Hr.
    apply andb_prop in Hr. destruct Hr as [Hc Hr].
    change (EmptyString ++ String c run ++ rest)
      with (String c (run ++ rest)).
    cbn [splitRuns]. rewrite Hc. now rewrite splitRuns_run.
  - cbn [tokenText] in Ht. apply andb_prop in Ht. destruct Ht as [Hc Ht].
    apply negb_true_iff in Hc.
    change (String c t ++ run ++ rest) with (String c (t ++ run ++ rest)).
    cbn [splitRuns]. rewrite Hc, (IH Ht). reflexivity.
Qed.

Lemma tokenized_unique (s : string) (ts : list string) :
  tokenized s ts -> ts = splitRuns separator false s.
Proof.
  induction 1 as [t Ht|t run rest ts Ht Hr Hs _ IH].
  - symmetry. now apply splitRuns_token.
  - rewrite splitRuns_more by assumption. now rewrite IH.
Qed.

Lemma tokenized_cons (c : ascii) (s t : string) (ts : list string) :
  separator c = false -> tokenized s (t :: ts) ->
  tokenized (String c s) (String c t :: ts).
Proof.
  intros Hc H. inversion H as [t' Ht|t' run rest ts' Ht Hr Hs Hrest]; subst.
  - apply tokenized_last. cbn [tokenText]. now rewrite Hc.
  - change (String c (t ++ run ++ rest)) with (String c t ++ run ++ rest).
    apply tokenized_more; try assumption. cbn [tokenText]. now rewrite Hc.
Qed.

Lemma run_split (s : string) :
  s = leadingRun s ++ afterRun s
  /\ separatorText (leadingRun s) = true
  /\ startsToken (afterRun s) = true.
Proof.
  induction s as [|c s (IH1 & IH2 & IH3)]; [repeat split|].
  cbn [leadingRun afterRun]. destruct (separator c) eqn:Ec.
  - cbn [separatorText]. rewrite Ec, IH2. repeat split; [|exact IH3].
    change (String c (leadingRun s) ++ afterRun s)
      with (String c (leadingRun s ++ afterRun s)).
    now rewrite <- IH1.
  - repeat split. cbn [startsToken]. now rewrite Ec.
Qed.

Lemma tokenized_splitRuns (s : string) :
  tokenized s (splitRuns separator false s)
  /\ tokenized (afterRun s) (splitRuns separator true s).
Proof.
  induction s as [|c s [IH1 IH2]].
  - split; now apply tokenized_last.
  - cbn [splitRuns afterRun]. destruct (separator c) eqn:Ec.
    + split; [|exact IH2].
      destruct (run_split s) as (Hs & Hr & Ha).
      replace (String c s)
        with (EmptyString ++ String c (leadingRun s) ++ afterRun s)
        by (cbn [append]; now rewrite <- Hs).
      apply tokenized_more; try assumption; [reflexivity|].
      unfold separatorRun. cbn [String.eqb negb andb separatorText].
      now rewrite Ec, Hr.
    + assert (H : tokenized (String c s)
                    match splitRuns separator false s with
                    | t :: ts => String c t :: ts
                    | [] => [String c EmptyString]
                    end).
      { destruct (splitRuns separator false s) as [|t ts] eqn:E.
        - exfalso. revert E. apply splitRuns_nonempty.
        - now apply tokenized_cons. }
      split; exact H.
Qed.

(** The pieces the code splits the reference answer into are its tokens,
    and nothing else is. *)
Lemma keywordsOf_tokenized (correctAnswer : string) (ts : list string) :
  tokenized (toLowerCase correctAnswer) ts <-> ts = keywordsOf correctAnswer.
Proof.
  unfold keywordsOf.
  rewrite (splitRuns_ext _ _ _ _ keywordSeparator_separator). split.
  - apply tokenized_unique.
  - intros ->. apply tokenized_splitRuns.
Qed.

Lemma delivers_reply (JSON_parse : string -> option value)
    (response : fetched) (t : string) :
  delivers JSON_parse response t ->
  gradeAttempt JSON_parse response =
  match JSON_parse (stripGraderFences (trim t)) with
  | None => Throw SyntaxError
  | Some parsed =>
      bind (get parsed "isCorrect") (fun verdict =>
      Ok {| isCorrect := nullish_or verdict (VBool false);
            feedback := or_else (prop parsed "feedback")
                                (VStr "Thank you for your answer.") |})
  end.
Proof.
  intros (status & body & dm & cm & pm & others & rest
          & -> & Hb & He & Hc & Ht & Hp & Hx & Hne).
  unfold gradeAttempt, bodyOf. cbn [negb]. rewrite Hb.
  cbn [bind get prop]. rewrite He, Hc.
  cbn [truthy negb orb lengthOf isZero first bind get prop].
  rewrite Ht. cbn [negb]. rewrite Hp.
  cbn [truthy negb orb lengthOf isZero first bind get prop]. rewrite Hx.
  destruct t as [|c t]; [congruence|].
  cbn [truthy callTrim bind List.length Nat.add Z.of_nat].
  change (Z.of_nat (S (List.length others)) =? 0)%Z with false.
  change (Z.of_nat (S (List.length rest)) =? 0)%Z with false.
  cbn [String.eqb negb bind]. reflexivity.
Qed.

Lemma roundTripFails_throws (JSON_parse : string -> option value)
    (response : fetched) :
  roundTripFails JSON_parse response ->
  exists e, gradeAttempt JSON_parse response = Throw e.
Proof.
  intros H.
  destruct H as [|status body|status body Hb|status body dm Hb He
                 |status body dm Hb He Hc|status body dm cm others Hb He Hc Ht
                 |status body dm cm others Hb He Hc Ht Hp
                 |response t Hd Hn|response t Hd Hn].
  - cbn. eauto.
  - cbn. eauto.
  - unfold gradeAttempt, bodyOf. cbn [negb]. rewrite Hb. cbn. eauto.
  - unfold gradeAttempt, bodyOf. cbn [negb]. rewrite Hb.
    cbn [bind get prop]. rewrite He. eauto.
  - unfold gradeAttempt, bodyOf. cbn [negb]. rewrite Hb.
    cbn [bind get prop]. rewrite He.
    destruct Hc as [Hc|Hc]; rewrite Hc; cbn; eauto.
  - unfold gradeAttempt, bodyOf. cbn [negb]. rewrite Hb.
    cbn [bind get prop]. rewrite He, Hc.
    cbn [truthy negb orb lengthOf isZero first bind get prop List.length].
    change (Z.of_nat (S (List.length others)) =? 0)%Z with false.
    rewrite Ht. cbn. eauto.
  - unfold gradeAttempt, bodyOf. cbn [negb]. rewrite Hb.
    cbn [bind get prop]. rewrite He, Hc.
    cbn [truthy negb orb lengthOf isZero first bind get prop List.length].
    change (Z.of_nat (S (List.length others)) =? 0)%Z with false.
    rewrite Ht. cbn [negb].
    destruct Hp as [Hp|Hp]; rewrite Hp; cbn; eauto.
  - rewrite (delivers_reply _ _ _ Hd), Hn. eauto.
  - rewrite (delivers_reply _ _ _ Hd), Hn. cbn. eauto.
Qed.

End TokenFacts.

(** ** The claims *)

Module Claims.
Import JS Gemini Samples Cases StringFacts ExtractionFacts SanitizerFacts.
Import GraderFacts IdempotenceFacts ScanFacts EnvelopeFacts FallbackFacts.
Import GraderPathFacts ObjectFacts TokenFacts.

(** C1, as amended.  Let the raw text be [pre ++ obj ++ post], with no
    opening brace in [pre] and no three backticks followed by a line break
    inside [obj]; fences, backticks and prose may stand anywhere in [pre] and
    [post].  Then the stripping of the fences and the brace scan extract
    exactly [obj] if and only if the braces of [obj] pair up when they are
    counted with no regard to string literals: [obj] opens with a brace and
    its last character is the first brace to close it. *)
Theorem extract_balanced_object (pre obj post : string) :
  noChar "{" pre = true ->
  fenceFree obj = true ->
  (extractJsonText (pre ++ obj ++ post) = Ok obj <-> balancedObject obj).
Proof.
  intros Hp Hf. split.
  - intros H.
    destruct (extract_cases (pre ++ obj ++ post))
      as [[_ H']|[[_ H']|(pre' & obj' & post' & _ & _ & Hb & H')]];
      rewrite H in H'; try discriminate.
    injection H' as ->. exact Hb.
  - now apply extract_object_whole.
Qed.

(** C1 fails as stated: the text of a well-formed object, whose member a
    holds the string made of one closing brace, is cut at the brace inside
    that string. *)
Lemma brace_in_string_cuts_object :
  JSON_stringify braceValue = Some (dq "{'a':'}'}")
  /\ extractJsonText (dq "{'a':'}'}") = Ok (dq "{'a':'}")
  /\ extractJsonText (dq "{'a':'}'}") <> Ok (dq "{'a':'}'}").
Proof. repeat split. discriminate. Qed.

Lemma extract_balanced_object_witness :
  extractJsonText fencedResponse = Ok (dq "{'whatToDo':['Rest {at home}']}")
  /\ extractJsonText prefacedResponse
     = Ok (dq "{'whatToDo':['Rest {at home}']}").
Proof.
  split.
  - apply (proj2 (extract_balanced_object
                    ("```json" ++ newline)
                    (dq "{'whatToDo':['Rest {at home}']}")
                    (newline ++ "```" ++ newline ++ "That is the summary.")
                    eq_refl eq_refl)).
    exists (dq "'whatToDo':['Rest {at home}']"). split; reflexivity.
  - apply (proj2 (extract_balanced_object
                    ("Here is the `summary` you asked for:" ++ newline
                     ++ "```json" ++ newline)
                    (dq "{'whatToDo':['Rest {at home}']}")
                    (newline ++ "```")
                    eq_refl eq_refl)).
    exists (dq "'whatToDo':['Rest {at home}']"). split; reflexivity.
Defined.

(** C2.  For every parsed object the coercion returns a summary, and in
    every summary the normalizer returns each of the five array fields is
    the parsed value when that is an array and the empty sequence
    otherwise, and [simpleExplanation] and [expectedCourse] are the parsed
    value when it is truthy and their fixed default strings otherwise. *)
Theorem coerced_fields (m : list (string * value)) :
  (exists s, coerceSummary (VObj m) = Ok s)
  /\ forall s, normalizeParsed (VObj m) = Ok s ->
       (forall name, In name arrayFields ->
          arrayField name s =
          match lookup name m with VArr l => l | _ => [] end)
       /\ simpleExplanation s =
            (if truthy (lookup "simpleExplanation" m)
             then lookup "simpleExplanation" m else VStr defaultExplanation)
       /\ expectedCourse s =
            (if truthy (lookup "expectedCourse" m)
             then lookup "expectedCourse" m else VStr defaultCourse).
Proof.
  split.
  - unfold coerceSummary. simpl. eauto.
  - intros s H. split; [|split].
    + intros name Hin. now apply arrayField_spec.
    + now apply normalizeParsed_fields in H.
    + now apply normalizeParsed_fields in H.
Qed.

Lemma coerced_fields_witness :
  exists s, normalizeParsed (VObj stringWhatToDo) = Ok s
    /\ whatToDo s = []
    /\ redFlags s = [VStr "Trouble breathing"]
    /\ expectedCourse s = VStr defaultCourse.
Proof.
  eexists. split; [reflexivity|].
  destruct (proj2 (coerced_fields stringWhatToDo) _ eq_refl) as (Ha & _ & Hc).
  split; [exact (Ha "whatToDo" (or_introl eq_refl))|].
  split; [exact (Ha "redFlags" (or_intror (or_intror (or_introl eq_refl))))|].
  exact Hc.
Defined.

(** C3 fails on the code.  A raw question whose two options are both meta
    answers passes the check on the raw option count, loses both options,
    and is returned with no option and the correct index 0, which indexes
    nothing. *)
Theorem only_meta_options_leave_none :
  wanted onlyMetaQuestion = true
  /\ exists q', sanitizeQuestion onlyMetaQuestion = Ok q'
       /\ options q' = []
       /\ correctOptionIndexes q' = [VNum (Int 0)].
Proof. split; [reflexivity|]. eexists. repeat split. Qed.

(** C5, as amended.  Every option whose trimmed, lower-cased text is one of
    the seven listed meta answers is absent from the sanitized options; the
    match is exact, so a variant with trailing punctuation stays. *)
Theorem meta_options_removed (q : value) (q' : QuizQuestion) (s : string) :
  sanitizeQuestion q = Ok q' ->
  listIncludes metaOptions (toLowerCase (trim s)) = true ->
  ~ In (VStr s) (options q').
Proof.
  intros H Hm Hin.
  destruct (sanitizeQuestion_Ok _ _ H) as (rawIdx & _ & Ho & _).
  rewrite Ho in Hin.
  apply (Subseq_In _ _ _ (firstn_Subseq _ _)) in Hin.
  apply filter_In in Hin. destruct Hin as [_ Hs].
  unfold survives in Hs. rewrite Hm in Hs.
  now rewrite andb_false_r in Hs.
Qed.

(** C5 fails as stated: the meta answer written with a full stop after it
    is kept. *)
Lemma punctuated_meta_option_kept :
  exists q', sanitizeQuestion punctuatedQuestion = Ok q'
    /\ options q' = [VStr "Yes"; VStr "No"; VStr "All of the above."].
Proof. eexists. split; reflexivity. Qed.

Lemma meta_options_removed_witness :
  exists q', sanitizeQuestion metaQuestion = Ok q'
    /\ In (VStr "All of the above") (arrayOrEmpty (prop metaQuestion "options"))
    /\ ~ In (VStr "All of the above") (options q').
Proof.
  eexists. split; [reflexivity|]. split; [simpl; tauto|].
  apply (meta_options_removed metaQuestion _ "All of the above" eq_refl eq_refl).
Defined.

(** C6, as amended.  The sanitized options are the first four of the
    options that survive the removal of blank and meta options, in their
    original order: at most four, exactly four when four or more survive,
    and a subsequence of the raw options. *)
Theorem options_clamped (q : value) (q' : QuizQuestion) :
  sanitizeQuestion q = Ok q' ->
  let raw := arrayOrEmpty (prop q "options") in
  options q' = firstn 4 (filter survives raw)
  /\ Subseq (options q') raw
  /\ (List.length (options q') <= 4)%nat
  /\ ((4 <= List.length (filter survives raw))%nat ->
      List.length (options q') = 4%nat).
Proof.
  intros H raw.
  destruct (sanitizeQuestion_Ok _ _ H) as (rawIdx & _ & Ho & _).
  fold raw in Ho. rewrite Ho. split; [reflexivity|]. split; [|split].
  - apply (Subseq_trans _ (filter survives raw)).
    + apply firstn_Subseq.
    + apply filter_Subseq.
  - apply firstn_le_length.
  - intros Hl. rewrite length_firstn. lia.
Qed.

(** C6 fails as stated: of five raw options two are meta answers, and three
    are left, not four. *)
Lemma five_options_leave_three :
  List.length (arrayOrEmpty (prop fiveOptionQuestion "options")) = 5%nat
  /\ exists q', sanitizeQuestion fiveOptionQuestion = Ok q'
       /\ options q' = [VStr "Fever"; VStr "Rash"; VStr "Cough"].
Proof. split; [reflexivity|]. eexists. split; reflexivity. Qed.

Lemma options_clamped_witness :
  exists q', sanitizeQuestion fiveOptionQuestion = Ok q'
    /\ Subseq (options q') (arrayOrEmpty (prop fiveOptionQuestion "options"))
    /\ (List.length (options q') <= 4)%nat.
Proof.
  eexists. split; [reflexivity|].
  destruct (options_clamped fiveOptionQuestion _ eq_refl) as (_ & Hs & Hl & _).
  split; [exact Hs | exact Hl].
Defined.

(** C10.  The coercion is shallow: an expected field that is an array is
    passed on element for element, whatever its elements are. *)
Theorem arrays_pass_through (m : list (string * value)) (s : PediatricSummary)
    (name : string) (l : list value) :
  normalizeParsed (VObj m) = Ok s ->
  In name arrayFields ->
  lookup name m = VArr l ->
  arrayField name s = l.
Proof.
  intros H Hin Hl. rewrite (arrayField_spec _ _ _ H Hin), Hl. reflexivity.
Qed.

Lemma arrays_pass_through_witness :
  exists s, normalizeParsed (VObj looseArrays) = Ok s
    /\ whatToDo s = [VNum (Int 42); VNull]
    /\ medications s = [VObj [("notes", VStr "with food")]].
Proof.
  eexists. split; [reflexivity|]. split.
  - exact (arrays_pass_through looseArrays _ "whatToDo" _ eq_refl
             (or_introl eq_refl) eq_refl).
  - exact (arrays_pass_through looseArrays _ "medications" _ eq_refl
             (or_intror (or_intror (or_intror (or_introl eq_refl)))) eq_refl).
Defined.




(** C8, as amended.  [gradeQuizAnswer] returns a grade in every case.
    When the round trip fails (the request is rejected, the response is not
    ok, its body is no JSON, it carries an error, it has no candidate, no
    content or no part, or the reply is no JSON or is [null]), and whenever
    the body of the [try] throws, the grade is the one of the keyword check.
    A reply that parses to anything but [null] is no failure, whatever its
    shape: the grade is its [isCorrect], false when that is missing, and its
    [feedback], a fixed sentence when that is falsy.  The keyword check
    takes the tokens of the lower-cased reference answer, the pieces between
    its maximal runs of semicolons, commas and white space and nothing
    else; it finds a token when it is longer than three characters and the
    lower-cased answer contains it; and it marks the answer correct
    exactly when the number of tokens found is at least
    [min(3, tokenCount / 3)], [tokenCount] counting all the tokens. *)
Theorem grading_failure_falls_back (JSON_parse : string -> option value)
    (response : fetched)
    (question correctAnswer userAnswer summaryContext : string) :
  let tokens := keywordsOf correctAnswer in
  let kept := filter (fun kw => (3 <? String.length kw)%nat) tokens in
  let found := filter (includes (toLowerCase userAnswer)) kept in
  let enough :=
    (Qmin 3 (inject_Z (Z.of_nat (List.length tokens)) / 3)
     <= inject_Z (Z.of_nat (List.length found)))%Q in
  let grade :=
    gradeQuizAnswer JSON_parse response question correctAnswer userAnswer
                    summaryContext in
  (roundTripFails JSON_parse response ->
   grade = fallbackGrade correctAnswer userAnswer)
  /\ (forall e, gradeAttempt JSON_parse response = Throw e ->
      grade = fallbackGrade correctAnswer userAnswer)
  /\ (forall t parsed,
        delivers JSON_parse response t ->
        JSON_parse (stripGraderFences (trim t)) = Some parsed ->
        parsed <> VNull -> parsed <> VUndefined ->
        grade = {| isCorrect := nullish_or (prop parsed "isCorrect")
                                           (VBool false);
                   feedback := or_else (prop parsed "feedback")
                                 (VStr "Thank you for your answer.") |})
  /\ (forall ts, tokenized (toLowerCase correctAnswer) ts <-> ts = tokens)
  /\ (forall kw, In kw found <->
        In kw tokens /\ (3 < String.length kw)%nat
        /\ exists pre post, toLowerCase userAnswer = pre ++ kw ++ post)
  /\ (isCorrect (fallbackGrade correctAnswer userAnswer) = VBool true
      <-> enough)
  /\ (isCorrect (fallbackGrade correctAnswer userAnswer) = VBool false
      <-> ~ enough).
Proof.
  intros tokens kept found enough grade.
  assert (Hthrow : forall e, gradeAttempt JSON_parse response = Throw e ->
                     grade = fallbackGrade correctAnswer userAnswer).
  { intros e H. unfold grade, gradeQuizAnswer. now rewrite H. }
  split; [|split; [exact Hthrow|]].
  { intros H. destruct (roundTripFails_throws _ _ H) as [e He].
    exact (Hthrow e He). }
  split.
  { intros t parsed Hd Hp Hn Hu. unfold grade, gradeQuizAnswer.
    rewrite (delivers_reply _ _ _ Hd), Hp.
    destruct parsed; try congruence; reflexivity. }
  split; [intros ts; apply keywordsOf_tokenized|].
  split.
  { intros kw. unfold found, kept. rewrite !filter_In, includes_iff.
    rewrite Nat.ltb_lt. tauto. }
  unfold fallbackGrade. cbn [isCorrect].
  unfold matchedKeywordsOf. rewrite filter_both.
  fold tokens. fold kept. fold found.
  pose proof (enoughKeywords_spec (List.length found) (List.length tokens))
    as Hs. fold enough in Hs.
  destruct (enoughKeywords _ _); split; split; intros H; try congruence.
  - now apply Hs.
  - exfalso. apply H. now apply Hs.
  - apply Hs in H. discriminate.
  - intros He. apply Hs in He. discriminate.
Qed.

(** C8 fails as stated: a reply that parses to an object without the
    members asked for is graded as incorrect with the fixed sentence, where
    the keyword check finds the answer correct; and a full stop separates
    no tokens, so that the reference answer is one token which the answer
    does not contain. *)
Lemma malformed_reply_is_graded :
  gradeQuizAnswer bareParser (Response true 200 bareBody)
    "What should your child avoid?" "avoid juice" "avoid juice"
    "Avoid juice."
  = {| isCorrect := VBool false;
       feedback := VStr "Thank you for your answer." |}
  /\ fallbackGrade "avoid juice" "avoid juice"
     = {| isCorrect := VBool true;
          feedback :=
            VStr "Great! You've correctly identified the key points." |}
  /\ keywordsOf "Rest.Fluids.Sleep" = ["rest.fluids.sleep"]
  /\ isCorrect (fallbackGrade "Rest.Fluids.Sleep" "rest, fluids and sleep")
     = VBool false
  /\ isCorrect (fallbackGrade "Rest, Fluids, Sleep" "rest, fluids and sleep")
     = VBool true.
Proof. repeat split. Qed.

Lemma grading_failure_falls_back_witness :
  gradeQuizAnswer noParser NetworkFailure "What should your child avoid?"
    referenceAnswer "no juice or soda" "Avoid juice, soda and greasy food."
  = fallbackGrade referenceAnswer "no juice or soda"
  /\ gradeQuizAnswer noParser (Response true 200 "<html>")
       "What should your child avoid?"
       referenceAnswer "no juice or soda" "Avoid juice, soda and greasy food."
     = fallbackGrade referenceAnswer "no juice or soda"
  /\ gradeQuizAnswer emptyObjectParser (Response true 200 "{}")
       "What should your child avoid?"
       referenceAnswer "no juice or soda" "Avoid juice, soda and greasy food."
     = fallbackGrade referenceAnswer "no juice or soda"
  /\ gradeQuizAnswer bareParser (Response true 200 bareBody)
       "What should your child avoid?"
       referenceAnswer "no juice or soda" "Avoid juice, soda and greasy food."
     = {| isCorrect := VBool false;
          feedback := VStr "Thank you for your answer." |}
  /\ tokenized referenceAnswer
       ["avoid"; "juice"; "avoid"; "soda"; "avoid"; "greasy"; "food"]
  /\ isCorrect (fallbackGrade referenceAnswer "no juice or soda")
     = VBool false.
Proof.
  split; [|split; [|split; [|split; [|split]]]].
  - apply (proj1 (grading_failure_falls_back noParser NetworkFailure
                    "What should your child avoid?" referenceAnswer
                    "no juice or soda" "Avoid juice, soda and greasy food.")).
    apply fails_network.
  - apply (proj1 (grading_failure_falls_back noParser
                    (Response true 200 "<html>")
                    "What should your child avoid?" referenceAnswer
                    "no juice or soda" "Avoid juice, soda and greasy food.")).
    now apply fails_body.
  - apply (proj1 (grading_failure_falls_back emptyObjectParser
                    (Response true 200 "{}")
                    "What should your child avoid?" referenceAnswer
                    "no juice or soda" "Avoid juice, soda and greasy food.")).
    apply (fails_candidates _ _ _ []); [reflexivity|reflexivity|now left].
  - apply (proj1 (proj2 (proj2
             (grading_failure_falls_back bareParser
                (Response true 200 bareBody)
                "What should your child avoid?" referenceAnswer
                "no juice or soda" "Avoid juice, soda and greasy food.")))
             "{}" (VObj [])); try discriminate; [|reflexivity].
    exists 200, bareBody, (envelope bareContent), (candidateOf bareContent),
      [("text", VStr "{}")], [], [].
    repeat split. discriminate.
  - apply (proj2 (proj1 (proj2 (proj2 (proj2
             (grading_failure_falls_back noParser NetworkFailure
                "What should your child avoid?" referenceAnswer
                "no juice or soda" "Avoid juice, soda and greasy food."))))
             _)).
    reflexivity.
  - apply (proj2 (proj2 (proj2 (proj2 (proj2 (proj2 (proj2
             (grading_failure_falls_back noParser NetworkFailure
                "What should your child avoid?" referenceAnswer
                "no juice or soda" "Avoid juice, soda and greasy food.")))))))).
    vm_compute. intros H. now apply H.
Defined.

(** C9, as amended.  Take a response without an error payload whose first
    candidate was not stopped at the token limit and has content.  When the
    parts of the content are an array whose first element is an object: a
    first part with neither a truthy [text] nor a truthy [inlineData] is
    itself serialized and taken as the generated text; and the extraction
    error is raised exactly when what the part offers holds no text, a
    [text] of white space only or an [inlineData] whose [data] is falsy or
    of length 0.  When the content has no parts, falsy or an empty array:
    with no truthy [text] on the candidate nor on the response, the whole
    response is serialized and taken; and the extraction error is raised
    exactly when the [text] that is read is white space only. *)
Theorem unrecognized_shape_serialized
    (dm cm : list (string * value)) (others : list value) (content : value) :
  truthy (lookup "error" dm) = false ->
  lookup "candidates" dm = VArr (VObj cm :: others) ->
  isString (lookup "finishReason" cm) "MAX_TOKENS" = false ->
  lookup "content" cm = content ->
  truthy content = true ->
  (forall pm rest,
     prop content "parts" = VArr (VObj pm :: rest) ->
     (truthy (lookup "text" pm) = false ->
      truthy (lookup "inlineData" pm) = false ->
      responseTextOf (VObj dm) = Ok (stringify (VObj pm)))
     /\ (responseTextOf (VObj dm) = Throw (CouldNotExtract (VObj dm))
         <-> partWithoutText pm))
  /\ (truthy (prop content "parts") = false \/ prop content "parts" = VArr [] ->
      (truthy (lookup "text" cm) = false ->
       truthy (lookup "text" dm) = false ->
       responseTextOf (VObj dm) = Ok (stringify (VObj dm)))
      /\ (responseTextOf (VObj dm) = Throw (CouldNotExtract (VObj dm))
          <-> textWithoutText dm cm)).
Proof.
  intros He Hc Hf Hct Ht.
  pose proof (responseTextOf_head dm cm others He Hc Hf) as Hhead.
  rewrite Hct in Hhead. specialize (Hhead Ht).
  split.
  - intros pm rest Hp. rewrite Hhead, Hp, hasParts_some. cbn [bind].
    unfold textOfParts. cbn [first get prop bind].
    split.
    + intros Hx Hi. rewrite Hx, Hi. reflexivity.
    + unfold partWithoutText, holdsNoText.
      destruct (truthy (lookup "text" pm)) eqn:Hx.
      * destruct (lookup "text" pm) as [| |b|n|t|l|m] eqn:Et;
          try discriminate; cbn [callTrim bind]; try (split;
            [discriminate
            |intros [(t' & Ht' & _)|(Hx' & _)]; discriminate]).
        assert (Hne : t <> EmptyString) by (destruct t; [discriminate|congruence]).
        pose proof (trimmed_text t Hne) as Htr.
        destruct (negb (truthy (VStr (trim t)))
                  || isZero (lengthOf (VStr (trim t)))) eqn:E.
        -- split; [intros _|reflexivity]. left. exists t.
           repeat split; [exact Hne|now apply Htr].
        -- split; [discriminate|].
           intros [(t' & Ht' & _ & Hz)|(Hx' & _)]; [|discriminate].
           injection Ht' as <-. apply Htr in Hz. discriminate.
      * destruct (truthy (lookup "inlineData" pm)) eqn:Hi; cbn [bind].
        -- destruct (negb (truthy (prop (lookup "inlineData" pm) "data"))
                     || isZero (lengthOf (prop (lookup "inlineData" pm) "data")))
             eqn:E.
           ++ split; [intros _; right; repeat split; assumption|reflexivity].
           ++ split.
              ** destruct (prop (lookup "inlineData" pm) "data"); discriminate.
              ** intros [(t' & Ht' & Hne & _)|(_ & _ & Hz)]; [|discriminate].
                 rewrite Ht' in Hx. destruct t'; [congruence|discriminate].
        -- split; [discriminate|].
           intros [(t' & Ht' & Hne & _)|(_ & Hz & _)]; [|discriminate].
           rewrite Ht' in Hx. destruct t'; [congruence|discriminate].
  - intros Hp. rewrite Hhead, (hasParts_none _ Hp). cbn [bind].
    unfold textWithoutParts. cbn [prop].
    split.
    + intros Hx Hy. rewrite Hx, Hy. reflexivity.
    + unfold textWithoutText.
      assert (Hcase : forall v,
        truthy v = true ->
        (bind (callTrim v) (fun responseText =>
           if negb (truthy responseText) || isZero (lengthOf responseText)
           then Throw (CouldNotExtract (VObj dm))
           else match responseText with
                | VStr s => Ok s
                | _ => Throw TypeError
                end) = Throw (CouldNotExtract (VObj dm))
         <-> exists t, v = VStr t /\ t <> EmptyString /\ trim t = EmptyString)).
      { intros v Hv. destruct v as [| |b|n|t|l|m]; try discriminate;
          cbn [callTrim bind];
          try (split; [discriminate|intros (t' & Ht' & _); discriminate]).
        assert (Hne : t <> EmptyString) by (destruct t; [discriminate|congruence]).
        pose proof (trimmed_text t Hne) as Htr.
        destruct (negb (truthy (VStr (trim t)))
                  || isZero (lengthOf (VStr (trim t)))) eqn:E.
        - split; [intros _|reflexivity]. exists t.
          repeat split; [exact Hne|now apply Htr].
        - split; [discriminate|].
          intros (t' & Ht' & _ & Hz). injection Ht' as <-.
          apply Htr in Hz. discriminate. }
      destruct (truthy (lookup "text" cm)) eqn:Hx.
      * rewrite (Hcase _ Hx). split; [intros H; now left|].
        intros [H|[H _]]; [exact H|discriminate].
      * destruct (truthy (lookup "text" dm)) eqn:Hy.
        -- rewrite (Hcase _ Hy). split; [intros H; right; now split|].
           intros [(t' & Ht' & Hne & _)|[_ H]]; [|exact H].
           rewrite Ht' in Hx. destruct t'; [congruence|discriminate].
        -- cbn [bind]. split; [discriminate|].
           intros [(t' & Ht' & Hne & _)|[_ (t' & Ht' & Hne & _)]].
           ++ rewrite Ht' in Hx. destruct t'; [congruence|discriminate].
           ++ rewrite Ht' in Hy. destruct t'; [congruence|discriminate].
Qed.

(** C9 fails as stated: a part with neither text nor inline data raises no
    extraction error; its own serialization becomes the generated text. *)
Lemma unknown_part_is_no_error :
  prop unknownPart "text" = VUndefined
  /\ prop unknownPart "inlineData" = VUndefined
  /\ responseTextOf unknownPartResponse = Ok (dq "{'foo':1}").
Proof. repeat split. Qed.

Lemma unrecognized_shape_serialized_witness :
  responseTextOf unknownPartResponse = Ok (stringify unknownPart)
  /\ responseTextOf noPartsResponse = Ok (stringify noPartsResponse)
  /\ responseTextOf (VObj (envelope blankPartContent))
     = Throw (CouldNotExtract (VObj (envelope blankPartContent)))
  /\ responseTextOf (VObj (envelope dataLessContent))
     = Throw (CouldNotExtract (VObj (envelope dataLessContent))).
Proof.
  split; [|split; [|split]].
  - exact (proj1 (proj1 (unrecognized_shape_serialized
                    (envelope unknownPartContent) (candidateOf unknownPartContent)
                    [] unknownPartContent
                    eq_refl eq_refl eq_refl eq_refl eq_refl)
             [("foo", VNum (Int 1))] [] eq_refl) eq_refl eq_refl).
  - exact (proj1 (proj2 (unrecognized_shape_serialized
                    (envelope noPartsContent) (candidateOf noPartsContent)
                    [] noPartsContent
                    eq_refl eq_refl eq_refl eq_refl eq_refl)
             (or_introl eq_refl)) eq_refl eq_refl).
  - apply (proj2 (proj1 (unrecognized_shape_serialized
                    (envelope blankPartContent) (candidateOf blankPartContent)
                    [] blankPartContent
                    eq_refl eq_refl eq_refl eq_refl eq_refl)
             [("text", VStr "  ")] [] eq_refl)).
    left. exists "  ". repeat split. discriminate.
  - apply (proj2 (proj1 (unrecognized_shape_serialized
                    (envelope dataLessContent) (candidateOf dataLessContent)
                    [] dataLessContent
                    eq_refl eq_refl eq_refl eq_refl eq_refl)
             [("inlineData", VObj [("mimeType", VStr "text/plain")])] []
             eq_refl)).
    right. repeat split.
Defined.

(** C7, as amended.  Normalizing the serialization of a normalized summary
    gives the same summary again, whenever every question of the summary
    has two options or more, the brace scan returns the serialization whole,
    and the parser reads the serialization back as the structure that was
    serialized. *)
Theorem renormalize_identical (JSON_parse : string -> option value)
    (responseText : string) (s : PediatricSummary) :
  normalize JSON_parse responseText = Ok s ->
  twoOptionsEach s ->
  extractJsonText (serialize s) = Ok (serialize s) ->
  JSON_parse (serialize s) = Some (summaryRead s) ->
  normalize JSON_parse (serialize s) = Ok s.
Proof.
  intros H1 H2 H3 H4.
  assert (Hn : normalized s)
    by (now apply (normalize_normalized JSON_parse responseText)).
  unfold normalize. rewrite H3. cbn [bind]. rewrite H4.
  now apply normalizeParsed_again.
Qed.

(** C7 fails as stated: the first run extracts and normalizes an object
    whose two string braces pair up in the order of the text; the
    serialization of the summary puts the closing one first, the second run
    cuts the text there, and the parser rejects the piece. *)
Lemma serialization_cut_at_brace :
  stringify braceOrderParsed = braceOrderText
  /\ normalize braceOrderParser braceOrderText = Ok braceOrderSummary
  /\ extractJsonText (serialize braceOrderSummary)
     = Ok (dq "{'simpleExplanation':'}")
  /\ normalize braceOrderParser (serialize braceOrderSummary)
     = Throw (ParseFailure (serialize braceOrderSummary)).
Proof. repeat split; vm_compute; reflexivity. Qed.

(** The defect behind C3 breaks the second run too: a question that keeps
    one option of two is returned by the first run and dropped by the
    second. *)
Lemma one_option_left_is_dropped :
  stringify oneLeftParsed = oneLeftText
  /\ normalize oneLeftParser oneLeftText = Ok (oneLeftSummary [oneLeftQuestion])
  /\ stringify (summaryRead (oneLeftSummary [oneLeftQuestion]))
     = serialize (oneLeftSummary [oneLeftQuestion])
  /\ normalize oneLeftParser (serialize (oneLeftSummary [oneLeftQuestion]))
     = Ok (oneLeftSummary [])
  /\ oneLeftSummary [] <> oneLeftSummary [oneLeftQuestion].
Proof.
  split; [reflexivity|]. split; [vm_compute; reflexivity|].
  split; [reflexivity|]. split; [vm_compute; reflexivity|]. discriminate.
Qed.

Lemma renormalize_identical_witness :
  normalize twoLeftParser twoLeftText = Ok twoLeftSummary
  /\ normalize twoLeftParser (serialize twoLeftSummary) = Ok twoLeftSummary.
Proof.
  assert (H1 : normalize twoLeftParser twoLeftText = Ok twoLeftSummary)
    by (vm_compute; reflexivity).
  split; [exact H1|].
  apply (renormalize_identical twoLeftParser twoLeftText twoLeftSummary H1).
  - intros qs q Hq Hin. injection Hq as <-.
    destruct Hin as [<-|[]]. simpl. lia.
  - vm_compute. reflexivity.
  - vm_compute. reflexivity.
Defined.

End Claims.

(** ** Further properties of the service *)

Module QuizFacts.
Import JS Gemini SanitizerFacts IdempotenceFacts.



Lemma startsWith_take (n : nat) (t : string) : startsWith t (take n t) = true.
Proof.
  revert n. induction t as [|c t IH]; intros [|n]; simpl; auto.
  now rewrite Ascii.eqb_refl, IH.
Qed.

Lemma length_take (n : nat) (t : string) :
  (String.length (take n t) <= n)%nat.
Proof.
  revert n. induction t as [|c t IH]; intros [|n]; simpl; try lia.
  specialize (IH n). lia.
Qed.

Lemma take_all (n : nat) (t : string) :
  (String.length t <= n)%nat -> take n t = t.
Proof.
  revert n. induction t as [|c t IH]; intros [|n] H; simpl in *;
    try reflexivity; try lia.
  rewrite IH; [reflexivity|lia].
Qed.

End QuizFacts.

Module PageFacts.
Import JS Gemini StringFacts SummaryInput Index.

Lemma allWhiteSpace_app (a b : string) :
  allWhiteSpace (a ++ b) = allWhiteSpace a && allWhiteSpace b.
Proof.
  induction a as [|c a IH]; simpl; [reflexivity|].
  now rewrite IH, andb_assoc.
Qed.

Lemma trimStart_allWhite (a : string) :
  allWhiteSpace a = true -> trimStart a = EmptyString.
Proof.
  induction a as [|c a IH]; simpl; [reflexivity|].
  intros H. apply andb_prop in H. destruct H as [Hc Ha]. now rewrite Hc, IH.
Qed.

Lemma trimEnd_allWhite (a : string) :
  allWhiteSpace a = true -> trimEnd a = EmptyString.
Proof. destruct a as [|c a]; [reflexivity|]. intros H. simpl in *. now rewrite H. Qed.

Lemma trimEnd_white (t pad : string) :
  allWhiteSpace pad = true -> trimEnd (t ++ pad) = trimEnd t.
Proof.
  intros Hp. induction t as [|c t IH].
  - simpl. now rewrite trimEnd_allWhite.
  - change (String c t ++ pad) with (String c (t ++ pad)).
    cbn [trimEnd]. rewrite IH.
    change (allWhiteSpace (String c (t ++ pad)))
      with (allWhiteSpace (String c t ++ pad)).
    now rewrite allWhiteSpace_app, Hp, andb_true_r.
Qed.

(** White space around a text does not change what [trim] leaves. *)
Lemma trim_padded (pad text pad' : string) :
  allWhiteSpace pad = true -> allWhiteSpace pad' = true ->
  trim (pad ++ text ++ pad') = trim text.
Proof.
  intros Hp Hp'. unfold trim. rewrite (trimStart_white _ _ Hp).
  destruct (allWhiteSpace text) eqn:Et.
  - rewrite trimStart_allWhite, (trimStart_allWhite text Et); [reflexivity|].
    now rewrite allWhiteSpace_app, Et, Hp'.
  - now rewrite (trimStart_app _ _ Et), (trimEnd_white _ _ Hp').
Qed.

Lemma length_trimStart (t : string) :
  (String.length (trimStart t) <= String.length t)%nat.
Proof.
  induction t as [|c t IH]; simpl; [lia|].
  destruct (isWhiteSpace c); simpl; lia.
Qed.

Lemma length_trimEnd (t : string) :
  (String.length (trimEnd t) <= String.length t)%nat.
Proof.
  induction t as [|c t IH]; [simpl; lia|].
  cbn [trimEnd]. destruct (allWhiteSpace (String c t)); simpl; lia.
Qed.

Lemma length_trim (t : string) :
  (String.length (trim t) <= String.length t)%nat.
Proof.
  unfold trim. pose proof (length_trimEnd (trimStart t)).
  pose proof (length_trimStart t). lia.
Qed.

End PageFacts.

Module FenceFacts.
Import JS Gemini StringFacts FallbackFacts PageFacts.

Lemma stripFinalFence_unfold (s : string) :
  stripFinalFence s =
  if String.eqb (trimStart s) "```" then EmptyString
  else match s with
       | EmptyString => EmptyString
       | String c s' => String c (stripFinalFence s')
       end.
Proof. destruct s; reflexivity. Qed.

Lemma length_trimStart_app (b rest : string) :
  allWhiteSpace b = false ->
  (String.length rest < String.length (trimStart (b ++ rest)))%nat.
Proof.
  intros H. rewrite (trimStart_app _ _ H), length_app.
  pose proof (trimStart_nonempty b H).
  destruct (trimStart b); [congruence|simpl; lia].
Qed.

(** The final fence comes off a text that does not end in white space. *)
Lemma stripFinalFence_body (body gap : string) :
  trimEnd body = body -> allWhiteSpace gap = true ->
  stripFinalFence (body ++ gap ++ "```") = body.
Proof.
  intros Hb Hg. induction body as [|c body IH].
  - rewrite stripFinalFence_unfold. cbn [append].
    now rewrite (trimStart_white _ _ Hg).
  - cbn [trimEnd] in Hb.
    destruct (allWhiteSpace (String c body)) eqn:Ew; [discriminate|].
    injection Hb as Hb.
    rewrite stripFinalFence_unfold.
    destruct (String.eqb (trimStart (String c body ++ gap ++ "```")) "```") eqn:E.
    + apply String.eqb_eq in E.
      pose proof (length_trimStart_app (String c body) (gap ++ "```") Ew) as Hl.
      rewrite E, length_app in Hl. simpl in Hl. lia.
    + cbn [append]. now rewrite (IH Hb).
Qed.

End FenceFacts.

Module EmailFacts.
Import JS Gemini Email.

Ltac small_cases n :=
  destruct n as [|n];
  [|do 6 (try destruct n as [n|n|])].

Ltac stopped :=
  let H := fresh in
  intros H; injection H as <- <-; left; split; [reflexivity|discriminate].

(** The six-bit values of three bytes, and the bytes read back from them. *)
Lemma sextets (a b c : N) :
  (a < 256 -> b < 256 -> c < 256 ->
   (a / 4 < 64) /\ ((a mod 4) * 16 + b / 16 < 64)
   /\ ((b mod 16) * 4 + c / 64 < 64) /\ (c mod 64 < 64)
   /\ (a / 4) * 4 + ((a mod 4) * 16 + b / 16) / 16 = a
   /\ (((a mod 4) * 16 + b / 16) mod 16) * 16 + ((b mod 16) * 4 + c / 64) / 4 = b
   /\ (((b mod 16) * 4 + c / 64) mod 4) * 64 + c mod 64 = c)%N.
Proof.
  intros. repeat split; zify; Z.to_euclidean_division_equations; lia.
Qed.

Lemma urlChar_safe (n : N) : urlSafe (urlChar n) = true.
Proof. small_cases n; reflexivity. Qed.

Lemma urlChar_not_equals (n : N) : Ascii.eqb (urlChar n) "=" = false.
Proof. small_cases n; reflexivity. Qed.

Lemma base64Value_urlChar (n : N) : (n < 64)%N -> base64Value (urlChar n) = n.
Proof. intros H. small_cases n; try reflexivity; lia. Qed.

Lemma stripPadding_cons (c : ascii) (s : string) :
  Ascii.eqb c "=" = false ->
  stripPadding (String c s) = String c (stripPadding s).
Proof. intros H. cbn [stripPadding allEquals]. now rewrite H. Qed.

Lemma base64url_cons (n : N) (s : string) :
  stripPadding (replaceAll "/" "_" (replaceAll "+" "-" (String (base64Char n) s)))
  = String (urlChar n)
      (stripPadding (replaceAll "/" "_" (replaceAll "+" "-" s))).
Proof.
  change (replaceAll "/" "_" (replaceAll "+" "-" (String (base64Char n) s)))
    with (String (urlChar n) (replaceAll "/" "_" (replaceAll "+" "-" s))).
  apply stripPadding_cons, urlChar_not_equals.
Qed.

Lemma base64url_three (a b c : N) (rest : list N) :
  base64url (a :: b :: c :: rest) =
  String (urlChar (a / 4))
    (String (urlChar ((a mod 4) * 16 + b / 16))
       (String (urlChar ((b mod 16) * 4 + c / 64))
          (String (urlChar (c mod 64)) (base64url rest)))).
Proof. unfold base64url. cbn [base64]. now rewrite !base64url_cons. Qed.

Lemma base64url_two (a b : N) :
  base64url [a; b] =
  String (urlChar (a / 4))
    (String (urlChar ((a mod 4) * 16 + b / 16))
       (String (urlChar ((b mod 16) * 4)) EmptyString)).
Proof. unfold base64url. cbn [base64]. now rewrite !base64url_cons. Qed.

Lemma base64url_one (a : N) :
  base64url [a] =
  String (urlChar (a / 4)) (String (urlChar ((a mod 4) * 16)) EmptyString).
Proof. unfold base64url. cbn [base64]. now rewrite !base64url_cons. Qed.

(** Induction on a list of bytes three at a time. *)
Lemma by_three (P : list N -> Prop) :
  P [] -> (forall a, P [a]) -> (forall a b, P [a; b]) ->
  (forall a b c rest, P rest -> P (a :: b :: c :: rest)) ->
  forall l, P l.
Proof.
  intros H0 H1 H2 H3.
  assert (H : forall l, P l /\ (forall a, P (a :: l))
                        /\ (forall a b, P (a :: b :: l))).
  { induction l as [|x l (IH0 & IH1 & IH2)]; repeat split; auto. }
  intros l. apply H.
Qed.

Lemma base64url_decoded (bytes : list N) :
  Forall (fun b => (b < 256)%N) bytes ->
  base64urlDecode (base64url bytes) = bytes.
Proof.
  induction bytes as [|a|a b|a b c rest IH] using by_three; intros Hb.
  - reflexivity.
  - inversion Hb as [|? ? Ha _]; subst.
    destruct (sextets a 0 0 Ha) as (S1 & S2 & _ & _ & E1 & _); try lia.
    rewrite base64url_one. cbn [base64urlDecode].
    change (0 / 16)%N with 0%N in *. rewrite N.add_0_r in *.
    rewrite !base64Value_urlChar by assumption. now rewrite E1.
  - inversion Hb as [|? ? Ha Hb']; subst. inversion Hb' as [|? ? Hb'' _]; subst.
    destruct (sextets a b 0 Ha Hb'') as (S1 & S2 & S3 & _ & E1 & E2 & _); try lia.
    rewrite base64url_two. cbn [base64urlDecode].
    change (0 / 64)%N with 0%N in *. rewrite N.add_0_r in *.
    rewrite !base64Value_urlChar by assumption. now rewrite E1, E2.
  - inversion Hb as [|? ? Ha Hb1]; subst. inversion Hb1 as [|? ? Hb2 Hb3]; subst.
    inversion Hb3 as [|? ? Hc Hr]; subst.
    destruct (sextets a b c Ha Hb2 Hc) as (S1 & S2 & S3 & S4 & E1 & E2 & E3).
    rewrite base64url_three. cbn [base64urlDecode].
    rewrite !base64Value_urlChar by assumption.
    now rewrite E1, E2, E3, (IH Hr).
Qed.

Lemma utf8_bytes (s : string) : Forall (fun b => (b < 256)%N) (utf8 s).
Proof.
  induction s as [|c s IH]; cbn [utf8]; [constructor|].
  pose proof (N_ascii_bounded c) as Hc. cbv zeta.
  destruct (N_of_ascii c <? 128)%N; repeat constructor; auto;
    zify; Z.to_euclidean_division_equations; lia.
Qed.

Section HandlerFacts.
Variable quizPage : value -> value -> list value -> outcome string.
Variable refreshAccessToken : outcome unit.
Variable gmailSend : string -> outcome value.

(** What [sendEmailViaGmail] did, read off what it returned and handed to
    the Gmail client. *)
Lemma send_cases (env : environment) (to : value) (subject html : string)
    (r : outcome value) (sent : list string) :
  sendEmailViaGmail refreshAccessToken gmailSend env to subject html = (r, sent) ->
  (sent = [] /\ exists t, r = Thrown t)
  \/ exists userEmail toLine,
       isSet (GMAIL_REFRESH_TOKEN env) = true
       /\ GMAIL_USER_EMAIL env = Some userEmail /\ userEmail <> EmptyString
       /\ (exists u, refreshAccessToken = Returned u)
       /\ toText to = Returned toLine
       /\ sent = [encodeMessage (messageText toLine userEmail subject html)]
       /\ r = match gmailSend
                      (encodeMessage (messageText toLine userEmail subject html))
              with
              | Returned sentId => Returned (or_else sentId (VStr "unknown"))
              | Thrown t => Thrown t
              end.
Proof.
  unfold sendEmailViaGmail.
  destruct (isSet (GMAIL_REFRESH_TOKEN env)) eqn:Er; cbn [negb];
    [|intros H; injection H as <- <-; left; eauto].
  destruct refreshAccessToken as [u|t] eqn:Ea;
    [|intros H; injection H as <- <-; left; eauto].
  destruct (GMAIL_USER_EMAIL env) as [[|c userEmail]|] eqn:Eu; cbn [isSet negb];
    try (intros H; injection H as <- <-; left; eauto).
  destruct (toText to) as [toLine|t] eqn:Et;
    [|intros H; injection H as <- <-; left; eauto].
  cbv zeta. cbn [textOf].
  fold (messageText toLine (String c userEmail) subject html).
  intros H. right. exists (String c userEmail), toLine.
  destruct (gmailSend _) as [sentId|t]; injection H as <- <-;
    repeat split; eauto; discriminate.
Qed.

(** What the handler did, read off its reply and the messages it handed to
    the Gmail client. *)
Lemma handler_cases (env : environment) (req : request)
    (r : reply) (sent : list string) :
  handler quizPage refreshAccessToken gmailSend env req = (r, sent) ->
  (sent = [] /\ status r <> 200)
  \/ exists userEmail toLine idText html,
       method req = "POST"
       /\ truthy (prop (body req) "doctorEmail") = true
       /\ callIncludesAt (prop (body req) "doctorEmail") = Returned true
       /\ truthy (prop (body req) "patientId") = true
       /\ isSet (GMAIL_CLIENT_ID env) = true
       /\ isSet (GMAIL_CLIENT_SECRET env) = true
       /\ isSet (GMAIL_REFRESH_TOKEN env) = true
       /\ GMAIL_USER_EMAIL env = Some userEmail /\ userEmail <> EmptyString
       /\ (exists u, refreshAccessToken = Returned u)
       /\ createEmailTemplate quizPage (prop (body req) "patientId")
            (prop (body req) "quizScore") (prop (body req) "quizData")
            (prop (body req) "summary") = Returned html
       /\ toText (prop (body req) "doctorEmail") = Returned toLine
       /\ toText (prop (body req) "patientId") = Returned idText
       /\ sent = [encodeMessage
                    (messageText toLine userEmail (subjectOf idText) html)]
       /\ r = match gmailSend
                      (encodeMessage
                         (messageText toLine userEmail (subjectOf idText) html))
              with
              | Returned sentId =>
                  {| status := 200;
                     json := Success (prop (body req) "patientId")
                                     (or_else sentId (VStr "unknown")) |}
              | Thrown t =>
                  {| status := 500;
                     json := Message (messageOf t
                       "Failed to send email. Please try again later.") |}
              end.
Proof.
  unfold handler.
  destruct (String.eqb (method req) "POST") eqn:Em; cbn [negb]; [|stopped].
  apply String.eqb_eq in Em.
  destruct (body req) eqn:Eb; try stopped;
    (destruct (truthy (prop _ "doctorEmail")) eqn:Ed; cbn [negb]; [|stopped]);
    (destruct (callIncludesAt _) as [[|]|t] eqn:Ei; cbn [negb]; try stopped);
    (destruct (truthy (prop _ "patientId")) eqn:Ep; cbn [negb]; [|stopped]);
    (destruct (isSet (GMAIL_CLIENT_ID env)) eqn:E1; cbn [negb orb]; [|stopped]);
    (destruct (isSet (GMAIL_CLIENT_SECRET env)) eqn:E2; cbn [negb orb];
       [|stopped]);
    (destruct (isSet (GMAIL_REFRESH_TOKEN env)) eqn:E3; cbn [negb orb];
       [|stopped]);
    (destruct (createEmailTemplate _ _ _ _ _) as [html|t] eqn:Et; [|stopped]);
    (destruct (toText (prop _ "patientId")) as [idText|t] eqn:Eid; [|stopped]);
    (destruct (sendEmailViaGmail _ _ _ _ _ _) as [res out] eqn:Es);
    apply send_cases in Es;
    (destruct Es as [[-> [t ->]]
                    |(userEmail & toLine & _ & Hu & Hne & Hr & Ht & -> & ->)];
       [stopped|]);
    intros H; right; exists userEmail, toLine, idText, html;
    fold (subjectOf idText) in *;
    destruct (gmailSend _) as [sentId|t]; injection H as <- <-;
    repeat split; auto.
Qed.

End HandlerFacts.

End EmailFacts.

Module Extras.
Import JS Gemini Samples StringFacts ExtractionFacts SanitizerFacts.
Import GraderFacts IdempotenceFacts ScanFacts EnvelopeFacts QuizFacts.
Import FallbackFacts GraderPathFacts PageFacts FenceFacts.
Import Email EmailFacts Cases.

(** X1.  The extraction returns a text exactly when the stripped text holds,
    behind a part with no opening brace, an object text whose braces pair
    up; that object text is what it returns. *)
Theorem extract_returns_balanced (raw obj : string) :
  extractJsonText raw = Ok obj <->
  exists pre post,
    stripFences raw = pre ++ obj ++ post /\ noChar "{" pre = true
    /\ balancedObject obj.
Proof.
  split.
  - intros H.
    destruct (extract_cases raw)
      as [[_ H']|[[_ H']|(pre & obj' & post & Hs & Hp & Hb & H')]];
      rewrite H in H'; try discriminate.
    injection H' as ->. eauto.
  - intros (pre & post & Hs & Hp & Hb).
    now apply (extract_after_strip raw pre obj post).
Qed.

Lemma extract_returns_balanced_witness :
  extractJsonText fencedResponse = Ok (dq "{'whatToDo':['Rest {at home}']}").
Proof.
  apply (proj2 (extract_returns_balanced fencedResponse
                  (dq "{'whatToDo':['Rest {at home}']}"))).
  exists EmptyString, (newline ++ "That is the summary."). split; [reflexivity|].
  split; [reflexivity|].
  exists (dq "'whatToDo':['Rest {at home}']").
  split; [reflexivity|]. split; reflexivity.
Defined.

(** X2.  The extraction throws the no-object error exactly when the
    stripped text has no opening brace, and the incomplete-object error
    exactly when it has one but no object text whose braces pair up begins
    at the first of them. *)
Theorem extract_errors (raw : string) :
  (extractJsonText raw = Throw (NoJsonObject raw) <->
   noChar "{" (stripFences raw) = true)
  /\ (extractJsonText raw = Throw (IncompleteJson raw) <->
      noChar "{" (stripFences raw) = false
      /\ forall pre obj post,
           stripFences raw = pre ++ obj ++ post -> noChar "{" pre = true ->
           ~ balancedObject obj).
Proof.
  destruct (extract_cases raw)
    as [[Hn H]|[[Hn H]|(pre & obj & post & Hs & Hp & Hb & H)]].
  - split; split; auto.
    + intros H'. rewrite H in H'. discriminate.
    + intros [Hf _]. congruence.
  - split; split.
    + intros H'. rewrite H in H'. discriminate.
    + congruence.
    + intros _. split; [exact Hn|]. intros pre obj post Hs Hp Hb.
      rewrite (extract_after_strip raw pre obj post Hs Hp Hb) in H.
      discriminate.
    + auto.
  - split; split.
    + intros H'. rewrite H in H'. discriminate.
    + intros Hn. rewrite Hs, !noChar_app in Hn.
      destruct Hb as (inside & -> & _). simpl in Hn.
      now rewrite andb_false_r in Hn.
    + intros H'. rewrite H in H'. discriminate.
    + intros [_ Hall]. destruct (Hall pre obj post Hs Hp Hb).
Qed.

(** X3.  The completion client returns a text only from a response with no
    error payload and at least one candidate, the first of which is not cut
    at the token limit and has content; and the text it returns is never
    empty. *)
Theorem returned_text_conditions (data : value) (s : string) :
  responseTextOf data = Ok s ->
  truthy (prop data "error") = false
  /\ truthy (prop data "candidates") = true
  /\ isZero (lengthOf (prop data "candidates")) = false
  /\ isString (prop (first (prop data "candidates")) "finishReason")
              "MAX_TOKENS" = false
  /\ truthy (prop (first (prop data "candidates")) "content") = true
  /\ s <> EmptyString.
Proof.
  unfold responseTextOf. intros H.
  destruct (get data "error") as [err|e] eqn:Ee; [|discriminate].
  assert (Herr : err = prop data "error")
    by (unfold get in Ee; destruct data; try discriminate;
        injection Ee as <-; reflexivity).
  subst err. cbn [bind] in H.
  destruct (truthy (prop data "error")); [discriminate|].
  destruct (truthy (prop data "candidates")); [|discriminate].
  destruct (isZero (lengthOf (prop data "candidates"))); [discriminate|].
  cbn [negb orb] in H.
  set (candidate := first (prop data "candidates")) in *.
  destruct (get candidate "finishReason") as [fr|e] eqn:Ef; [|discriminate].
  assert (Hfr : fr = prop candidate "finishReason")
    by (unfold get in Ef; destruct candidate; try discriminate;
        injection Ef as <-; reflexivity).
  subst fr. cbn [bind] in H.
  destruct (isString (prop candidate "finishReason") "MAX_TOKENS");
    [discriminate|].
  destruct (truthy (prop candidate "content")); [|discriminate].
  cbn [negb] in H.
  match type of H with
  | bind ?r _ = _ => destruct r as [withParts|e]; [|discriminate]
  end.
  cbn [bind] in H.
  match type of H with
  | bind ?r _ = _ => destruct r as [v|e]; [|discriminate]
  end.
  cbn [bind] in H.
  destruct v as [| |b|n|t|l|m];
    try (destruct (negb _ || _); discriminate).
  destruct t as [|c t]; [discriminate|].
  cbn in H. injection H as <-. repeat split. discriminate.
Qed.

Lemma returned_text_conditions_witness :
  responseTextOf (VObj (envelope textContent)) = Ok "{}"
  /\ truthy (prop (VObj (envelope textContent)) "error") = false
  /\ "{}" <> EmptyString.
Proof.
  split; [reflexivity|].
  destruct (returned_text_conditions (VObj (envelope textContent)) "{}" eq_refl)
    as (He & _ & _ & _ & _ & Hs).
  split; [exact He | exact Hs].
Defined.

(** X4.  In a response with a healthy first candidate whose first part holds
    a text, that text is returned trimmed, whatever else the part holds, and
    a text that is only white space is an extraction error. *)
Theorem part_text_is_trimmed
    (dm cm pm : list (string * value)) (others rest : list value) (t : string) :
  truthy (lookup "error" dm) = false ->
  lookup "candidates" dm = VArr (VObj cm :: others) ->
  isString (lookup "finishReason" cm) "MAX_TOKENS" = false ->
  truthy (lookup "content" cm) = true ->
  prop (lookup "content" cm) "parts" = VArr (VObj pm :: rest) ->
  lookup "text" pm = VStr t ->
  t <> EmptyString ->
  responseTextOf (VObj dm) =
  if String.eqb (trim t) EmptyString
  then Throw (CouldNotExtract (VObj dm)) else Ok (trim t).
Proof.
  intros He Hc Hf Ht Hp Hx Hne.
  rewrite (responseTextOf_head dm cm others He Hc Hf Ht), Hp, hasParts_some.
  cbn [bind]. unfold textOfParts. cbn [first get prop bind]. rewrite Hx.
  destruct t as [|c t]; [congruence|]. cbn [truthy String.eqb negb callTrim bind].
  destruct (trim (String c t)) as [|c' t']; reflexivity.
Qed.

Lemma part_text_is_trimmed_witness :
  responseTextOf (VObj (envelope textContent)) =
  if String.eqb (trim " {} ") EmptyString
  then Throw (CouldNotExtract (VObj (envelope textContent)))
  else Ok (trim " {} ").
Proof.
  apply (part_text_is_trimmed (envelope textContent) (candidateOf textContent)
           textPart [] [] " {} ");
    try reflexivity.
  discriminate.
Defined.

(** X5.  Every question in a summary the normalizer returns has a truthy
    text and identifier, at most four options that are all strings, not
    blank and not meta answers, correct indexes that are not empty and have
    no duplicate, a numeric weight and a category; and when at least one
    option is left, every correct index is an integer that indexes an
    option. *)
Theorem returned_question_shape (parsed : value) (s : PediatricSummary)
    (qs : list QuizQuestion) (q : QuizQuestion) :
  normalizeParsed parsed = Ok s ->
  quizQuestions s = Some qs ->
  In q qs ->
  truthy (question q) = true
  /\ truthy (id q) = true
  /\ (List.length (options q) <= 4)%nat
  /\ (forall opt, In opt (options q) ->
        exists t, opt = VStr t /\ trim t <> EmptyString
                  /\ listIncludes metaOptions (toLowerCase (trim t)) = false)
  /\ correctOptionIndexes q <> []
  /\ NoDup (correctOptionIndexes q)
  /\ (options q <> [] ->
      forall v, In v (correctOptionIndexes q) ->
        exists z, v = VNum (Int z)
                  /\ 0 <= z < Z.of_nat (List.length (options q)))
  /\ (exists n, weight q = VNum n /\ n <> NaN)
  /\ category q <> VNull /\ category q <> VUndefined.
Proof.
  intros H Hq Hin.
  destruct (normalizeParsed_normalized _ _ H) as (_ & _ & Hall).
  specialize (Hall qs Hq). rewrite Forall_forall in Hall.
  destruct (Hall q Hin) as (H1 & H2 & H3 & H4 & H5 & H6 & H7 & H8 & H9 & H10).
  repeat split; auto.
  - intros opt Ho. rewrite Forall_forall in H3. specialize (H3 opt Ho).
    unfold survives in H3. destruct opt; try discriminate.
    apply andb_prop in H3. destruct H3 as [Ha Hb].
    exists s0. repeat split.
    + intros E. rewrite E in Ha. discriminate.
    + now apply negb_true_iff in Hb.
  - intros Hne v Hv. rewrite Forall_forall in H7.
    destruct (H7 v Hv) as (z & -> & Hz). exists z. split; [reflexivity|].
    destruct (options q); [congruence|]. simpl List.length in *. lia.
  - destruct (weight q) as [| |b|n|t|l|m]; try discriminate.
    exists n. split; [reflexivity|]. intros ->. discriminate.
  - intros E. rewrite E in H10. discriminate.
  - intros E. rewrite E in H10. discriminate.
Qed.

Lemma returned_question_shape_witness :
  normalizeParsed twoLeftParsed = Ok twoLeftSummary
  /\ (List.length (options twoLeftQuestion) <= 4)%nat
  /\ NoDup (correctOptionIndexes twoLeftQuestion).
Proof.
  split; [reflexivity|].
  destruct (returned_question_shape twoLeftParsed twoLeftSummary
              [twoLeftQuestion] twoLeftQuestion eq_refl eq_refl
              (or_introl eq_refl))
    as (_ & _ & Hl & _ & _ & Hn & _).
  split; [exact Hl | exact Hn].
Defined.

(** X6.  A weight that is a number is passed on as it is, whatever its
    value; any other weight is replaced by 30 for the category redFlag, 25
    for medication, 20 for followUp and 15 for every other category. *)
Theorem weight_defaults (q : value) (q' : QuizQuestion) :
  sanitizeQuestion q = Ok q' ->
  (forall n, prop q "weight" = VNum n -> n <> NaN -> weight q' = VNum n)
  /\ (isNumber (prop q "weight") = false \/ prop q "weight" = VNum NaN ->
      (prop q "category" = VStr "redFlag" -> weight q' = VNum (Int 30))
      /\ (prop q "category" = VStr "medication" -> weight q' = VNum (Int 25))
      /\ (prop q "category" = VStr "followUp" -> weight q' = VNum (Int 20))
      /\ (prop q "category" <> VStr "redFlag" ->
          prop q "category" <> VStr "medication" ->
          prop q "category" <> VStr "followUp" ->
          weight q' = VNum (Int 15))).
Proof.
  intros H.
  destruct (sanitizeQuestion_Ok _ _ H) as (rawIdx & _ & _ & _ & _ & _ & _ & Hw & _).
  split.
  - intros n Hn Hnan. rewrite Hw, Hn. destruct n; try reflexivity. congruence.
  - intros Hbad.
    assert (Hd : weight q' = VNum (Int (defaultWeight (prop q "category")))).
    { rewrite Hw. destruct Hbad as [Hb | Hb]; rewrite Hb; reflexivity. }
    rewrite Hd. unfold defaultWeight. repeat split.
    + intros ->. reflexivity.
    + intros ->. reflexivity.
    + intros ->. reflexivity.
    + intros N1 N2 N3.
      destruct (prop q "category") as [| |b|n|t|l|m]; try reflexivity.
      cbn [isString].
      destruct (String.eqb t "redFlag") eqn:E1;
        [apply String.eqb_eq in E1; congruence|].
      destruct (String.eqb t "medication") eqn:E2;
        [apply String.eqb_eq in E2; congruence|].
      destruct (String.eqb t "followUp") eqn:E3;
        [apply String.eqb_eq in E3; congruence|].
      reflexivity.
Qed.

Lemma weight_defaults_witness :
  exists q', sanitizeQuestion redFlagQuestion = Ok q'
    /\ weight q' = VNum (Int 30).
Proof.
  eexists. split; [reflexivity|].
  exact (proj1 (proj2 (weight_defaults redFlagQuestion _ eq_refl)
                  (or_introl eq_refl)) eq_refl).
Defined.

(** X7.  The identifier of a sanitized question is the identifier it came
    with when that is truthy; otherwise, for a question text that is a
    string, it is the beginning of that text, at most 32 characters long and
    the whole text when the text is no longer. *)
Theorem derived_identifier (q : value) (q' : QuizQuestion) :
  sanitizeQuestion q = Ok q' ->
  (truthy (prop q "id") = true -> id q' = prop q "id")
  /\ (truthy (prop q "id") = false ->
      forall t, prop q "question" = VStr t ->
        exists u, id q' = VStr u /\ startsWith t u = true
                  /\ (String.length u <= 32)%nat
                  /\ ((String.length t <= 32)%nat -> u = t)).
Proof.
  intros H.
  destruct (sanitizeQuestion_Ok _ _ H) as (rawIdx & _ & _ & _ & _ & _ & _ & _ & Hid).
  split.
  - intros Ht. rewrite Ht in Hid. now injection Hid as <-.
  - intros Ht t Hq. rewrite Ht, Hq in Hid. cbn [callSlice] in Hid.
    injection Hid as <-. exists (take 32 t). repeat split.
    + apply startsWith_take.
    + apply length_take.
    + apply take_all.
Qed.

Lemma derived_identifier_witness :
  exists q', sanitizeQuestion redFlagQuestion = Ok q'
    /\ exists u, id q' = VStr u
         /\ startsWith "When should you call the doctor?" u = true
         /\ (String.length u <= 32)%nat.
Proof.
  eexists. split; [reflexivity|].
  destruct (proj2 (derived_identifier redFlagQuestion _ eq_refl) eq_refl
              "When should you call the doctor?" eq_refl)
    as (u & Hu & Hs & Hl & _).
  exists u. split; [exact Hu|]. split; [exact Hs | exact Hl].
Defined.

(** X8.  Derived identifiers are not unique: two questions without an
    identifier whose texts share their first 32 characters are given the
    same identifier, those 32 characters. *)
Theorem derived_identifiers_collide (q1 q2 : value) (a b : QuizQuestion)
    (common rest1 rest2 : string) :
  sanitizeQuestion q1 = Ok a ->
  sanitizeQuestion q2 = Ok b ->
  truthy (prop q1 "id") = false ->
  truthy (prop q2 "id") = false ->
  String.length common = 32%nat ->
  prop q1 "question" = VStr (common ++ rest1) ->
  prop q2 "question" = VStr (common ++ rest2) ->
  id a = VStr common /\ id b = VStr common.
Proof.
  intros Ha Hb Ia Ib Hl Qa Qb.
  destruct (sanitizeQuestion_Ok _ _ Ha) as (? & _ & _ & _ & _ & _ & _ & _ & Hida).
  destruct (sanitizeQuestion_Ok _ _ Hb) as (? & _ & _ & _ & _ & _ & _ & _ & Hidb).
  rewrite Ia, Qa in Hida. rewrite Ib, Qb in Hidb.
  cbn [callSlice] in Hida, Hidb. rewrite <- Hl in Hida, Hidb.
  rewrite take_app_length in Hida, Hidb.
  injection Hida as <-. injection Hidb as <-. auto.
Qed.

Lemma derived_identifiers_collide_witness :
  exists a b,
    sanitizeQuestion (longQuestion " At night?") = Ok a
    /\ sanitizeQuestion (longQuestion " After a fall?") = Ok b
    /\ id a = VStr common32 /\ id b = VStr common32.
Proof.
  eexists. eexists. split; [reflexivity|]. split; [reflexivity|].
  exact (derived_identifiers_collide (longQuestion " At night?")
           (longQuestion " After a fall?") _ _ common32 " At night?"
           " After a fall?" eq_refl eq_refl eq_refl eq_refl eq_refl
           eq_refl eq_refl).
Defined.

(** X9.  The questions of a returned summary are absent exactly when the
    parsed object holds no array of questions; otherwise they are, in their
    order, the sanitized forms of the raw items that have a truthy question
    and at least two raw options, the other items being dropped. *)
Theorem questions_kept_in_order (m : list (string * value))
    (s : PediatricSummary) :
  normalizeParsed (VObj m) = Ok s ->
  match lookup "quizQuestions" m with
  | VArr raw =>
      exists qs, quizQuestions s = Some qs
        /\ Forall2 (fun q q' => sanitizeQuestion q = Ok q')
                   (filter wanted raw) qs
        /\ (List.length qs <= List.length raw)%nat
  | _ => quizQuestions s = None
  end.
Proof.
  unfold normalizeParsed, coerceSummary. cbn [get prop bind].
  destruct (lookup "quizQuestions" m) as [| |b|n|t|raw|o];
    try (intros H; injection H as <-; reflexivity).
  destruct (mapM sanitizeQuestion (filter wanted raw)) as [qs|e] eqn:Em;
    cbn [bind]; [|discriminate].
  intros H; injection H as <-. exists qs. split; [reflexivity|].
  apply mapM_Forall2 in Em. split; [exact Em|].
  rewrite <- (Forall2_length Em). apply filter_length_le.
Qed.

Lemma questions_kept_in_order_witness :
  normalizeParsed (VObj (membersOf twoLeftParsed)) = Ok twoLeftSummary
  /\ exists qs, quizQuestions twoLeftSummary = Some qs
       /\ (List.length qs <= 1)%nat.
Proof.
  split; [reflexivity|].
  destruct (questions_kept_in_order (membersOf twoLeftParsed) twoLeftSummary
              eq_refl) as (qs & Hq & _ & Hl).
  exists qs. split; [exact Hq | exact Hl].
Defined.



(** X11.  Whatever the round trip does, the grade that [gradeQuizAnswer]
    returns has a verdict that is neither null nor undefined and a feedback
    that is truthy. *)
Theorem grade_is_complete (JSON_parse : string -> option value)
    (response : fetched)
    (question correctAnswer userAnswer summaryContext : string) :
  let grade :=
    gradeQuizAnswer JSON_parse response question correctAnswer userAnswer
                    summaryContext in
  isCorrect grade <> VNull /\ isCorrect grade <> VUndefined
  /\ truthy (feedback grade) = true.
Proof.
  cbv zeta. unfold gradeQuizAnswer.
  destruct (gradeAttempt JSON_parse response) as [g|e] eqn:E.
  - destruct (gradeAttempt_Ok _ _ _ E) as (verdict & said & ->).
    cbn [isCorrect feedback]. repeat split.
    + destruct verdict; discriminate.
    + destruct verdict; discriminate.
    + unfold or_else. now destruct (truthy said) eqn:Es.
  - unfold fallbackGrade. cbn [isCorrect feedback].
    repeat split; try discriminate.
    now destruct (enoughKeywords _ _).
Qed.

(** X12.  The keyword check never marks an answer correct that contains
    none of the tokens of the reference answer longer than three
    characters, and always marks one correct that contains three of
    them. *)
Theorem fallback_bounds (correctAnswer userAnswer : string) :
  (isCorrect (fallbackGrade correctAnswer userAnswer) = VBool true ->
   exists kw, In kw (keywordsOf correctAnswer)
              /\ (3 < String.length kw)%nat
              /\ includes (toLowerCase userAnswer) kw = true)
  /\ ((3 <= List.length (matchedKeywordsOf correctAnswer userAnswer))%nat ->
      isCorrect (fallbackGrade correctAnswer userAnswer) = VBool true).
Proof.
  split.
  - intros H. apply fallback_correct_iff in H.
    pose proof (keywordsOf_nonempty correctAnswer) as Hk.
    destruct (matchedKeywordsOf correctAnswer userAnswer) as [|kw rest] eqn:Em;
      [simpl in H; lia|].
    assert (Hin : In kw (matchedKeywordsOf correctAnswer userAnswer))
      by (rewrite Em; now left).
    unfold matchedKeywordsOf in Hin. apply filter_In in Hin.
    destruct Hin as [Hin Hb]. apply andb_prop in Hb. destruct Hb as [Hl Hi].
    exists kw. repeat split; auto. now apply Nat.ltb_lt.
  - intros H. apply fallback_correct_iff. now left.
Qed.

Lemma fallback_bounds_witness :
  (3 <= List.length (matchedKeywordsOf referenceAnswer shortAnswer))%nat
  /\ isCorrect (fallbackGrade referenceAnswer shortAnswer) = VBool true.
Proof.
  assert (H : (3 <= List.length (matchedKeywordsOf referenceAnswer shortAnswer))%nat)
    by (vm_compute; lia).
  split; [exact H|].
  exact (proj2 (fallback_bounds referenceAnswer shortAnswer) H).
Defined.



(** X14.  The input form submits a text exactly as it was typed, and only
    a text of 50 characters or more; white space around a text changes
    nothing to whether it is submitted. *)
Theorem submit_ignores_padding (pad text pad' : string) :
  allWhiteSpace pad = true ->
  allWhiteSpace pad' = true ->
  SummaryInput.handleSubmit (pad ++ text ++ pad') =
    match SummaryInput.handleSubmit text with
    | Some _ => Some (pad ++ text ++ pad')
    | None => None
    end
  /\ forall submitted,
       SummaryInput.handleSubmit text = Some submitted ->
       submitted = text /\ (50 <= String.length text)%nat.
Proof.
  intros Hp Hp'. unfold SummaryInput.handleSubmit.
  rewrite (trim_padded _ _ _ Hp Hp'). split.
  - now destruct (String.length (trim text) <? 50)%nat.
  - intros submitted H.
    destruct (String.length (trim text) <? 50)%nat eqn:E; [discriminate|].
    injection H as <-. split; [reflexivity|].
    apply Nat.ltb_ge in E. pose proof (length_trim text). lia.
Qed.

Lemma submit_ignores_padding_witness :
  SummaryInput.handleSubmit ("  " ++ typedSummary ++ newline) =
  match SummaryInput.handleSubmit typedSummary with
  | Some _ => Some ("  " ++ typedSummary ++ newline)
  | None => None
  end.
Proof.
  exact (proj1 (submit_ignores_padding "  " typedSummary newline
                  eq_refl eq_refl)).
Defined.

(** X15.  In every state the page can reach, the summary, quiz and export
    screens have a summary to show, and some screen is rendered. *)
Theorem page_always_renders (st : Index.state) :
  Index.reachable st ->
  (Index.appState st = Index.summary \/ Index.appState st = Index.quiz
   \/ Index.appState st = Index.export -> Index.hasSummary st = true)
  /\ exists c, Index.rendered st c = true.
Proof.
  intros H.
  assert (Hinv : match Index.appState st with
                 | Index.landing | Index.input => True
                 | _ => Index.hasSummary st = true
                 end).
  { induction H as [|st st' Hr IH Hs]; [exact I|].
    destruct Hs as [st Hc|st Hc|st [r|e]|st Hc|st score answers Hc|st Hc];
      cbn; auto;
      unfold Index.rendered in Hc; destruct (Index.appState st);
      try discriminate; auto. }
  split.
  - intros [E|[E|E]]; rewrite E in Hinv; exact Hinv.
  - unfold Index.rendered. destruct (Index.appState st) eqn:E.
    + exists Index.HeroAndInput. reflexivity.
    + exists Index.HeroAndInput. reflexivity.
    + exists Index.SummaryDisplay. exact Hinv.
    + exists Index.Quiz. exact Hinv.
    + exists Index.PDFExport. exact Hinv.
Qed.

Lemma page_always_renders_witness :
  Index.hasSummary quizState = true
  /\ exists c, Index.rendered quizState c = true.
Proof.
  assert (H : Index.reachable quizState).
  { unfold quizState.
    eapply Index.reach_step;
      [eapply Index.reach_step;
         [eapply Index.reach_step;
            [eapply Index.reach_step;
               [apply Index.reach_initial
               |apply Index.GetStarted; reflexivity]
            |apply Index.Submit; reflexivity]
         |apply Index.Settle]
      |apply Index.StartQuiz; reflexivity]. }
  destruct (page_always_renders quizState H) as [Hs Hr].
  split; [exact (Hs (or_intror (or_introl eq_refl))) | exact Hr].
Defined.

(** X16.  The encoded message holds only letters, digits, hyphens and
    underscores: no plus sign, no slash and no padding is left in it. *)
Theorem encoded_message_is_url_safe (message : string) :
  allChars urlSafe (encodeMessage message) = true.
Proof.
  unfold encodeMessage. fold (base64url (utf8 message)).
  induction (utf8 message) as [|a|a b|a b c rest IH] using by_three.
  - reflexivity.
  - rewrite base64url_one. cbn [allChars]. now rewrite !urlChar_safe.
  - rewrite base64url_two. cbn [allChars]. now rewrite !urlChar_safe.
  - rewrite base64url_three. cbn [allChars]. now rewrite !urlChar_safe, IH.
Qed.

(** X17.  Nothing of a message is lost in its encoding: decoding the
    encoded message as unpadded URL-safe base64 gives the bytes of the
    UTF-8 form of the message. *)
Theorem encoded_message_reads_back (message : string) :
  base64urlDecode (encodeMessage message) = utf8 message.
Proof.
  unfold encodeMessage. fold (base64url (utf8 message)).
  apply base64url_decoded, utf8_bytes.
Qed.

(** X18.  The endpoint answers 200 only to a POST with a truthy doctor
    address that includes an at sign and a truthy patient identifier, with
    the four variables of the environment set, after the token was
    refreshed and Gmail accepted exactly one message; the reply carries the
    patient identifier and the identifier Gmail gave, or the text unknown in
    its place. *)
Theorem success_reply_conditions
    (quizPage : value -> value -> list value -> outcome string)
    (refreshAccessToken : outcome unit) (gmailSend : string -> outcome value)
    (env : environment) (req : request) (r : reply) (sent : list string) :
  handler quizPage refreshAccessToken gmailSend env req = (r, sent) ->
  status r = 200 ->
  method req = "POST"
  /\ truthy (prop (body req) "doctorEmail") = true
  /\ callIncludesAt (prop (body req) "doctorEmail") = Returned true
  /\ truthy (prop (body req) "patientId") = true
  /\ isSet (GMAIL_CLIENT_ID env) = true
  /\ isSet (GMAIL_CLIENT_SECRET env) = true
  /\ isSet (GMAIL_REFRESH_TOKEN env) = true
  /\ isSet (GMAIL_USER_EMAIL env) = true
  /\ (exists u, refreshAccessToken = Returned u)
  /\ exists raw sentId,
       sent = [raw] /\ gmailSend raw = Returned sentId
       /\ json r = Success (prop (body req) "patientId")
                           (or_else sentId (VStr "unknown")).
Proof.
  intros H Hs.
  destruct (handler_cases _ _ _ _ _ _ _ H)
    as [[_ Hn]|(userEmail & toLine & idText & html & Hm & Hd & Hi & Hp & H1 & H2
                & H3 & Hu & Hne & Hr & _ & _ & _ & -> & Hrep)];
    [congruence|].
  repeat (split; [assumption|]).
  split; [rewrite Hu; destruct userEmail; [congruence|reflexivity]|].
  split; [assumption|].
  destruct (gmailSend _) as [sentId|t] eqn:Eg.
  - eexists _, sentId. split; [reflexivity|]. split; [exact Eg|].
    rewrite Hrep. reflexivity.
  - rewrite Hrep in Hs. discriminate.
Qed.

Lemma success_reply_conditions_witness :
  handler plainTemplate (Returned tt) acceptingGmail fullEnvironment goodRequest
    = ({| status := 200; json := Success (VStr "P-7") (VStr "18c2f0") |},
       [encodeMessage goodMessage])
  /\ exists raw sentId,
       [encodeMessage goodMessage] = [raw]
       /\ acceptingGmail raw = Returned sentId
       /\ Success (VStr "P-7") (VStr "18c2f0")
          = Success (VStr "P-7") (or_else sentId (VStr "unknown")).
Proof.
  split; [vm_compute; reflexivity|].
  apply (success_reply_conditions plainTemplate (Returned tt) acceptingGmail
           fullEnvironment goodRequest
           {| status := 200; json := Success (VStr "P-7") (VStr "18c2f0") |}
           [encodeMessage goodMessage]);
    vm_compute; reflexivity.
Defined.

(** X19.  The endpoint hands at most one message to Gmail, and none unless
    the request is a POST with a valid doctor address and a patient
    identifier; the message it hands over reads back as the headers To,
    From, Subject and Content-Type, an empty line and the page, joined by
    line feeds. *)
Theorem message_handed_over_once
    (quizPage : value -> value -> list value -> outcome string)
    (refreshAccessToken : outcome unit) (gmailSend : string -> outcome value)
    (env : environment) (req : request) (r : reply) (sent : list string) :
  handler quizPage refreshAccessToken gmailSend env req = (r, sent) ->
  sent = []
  \/ exists raw toLine userEmail idText html,
       sent = [raw]
       /\ method req = "POST"
       /\ truthy (prop (body req) "doctorEmail") = true
       /\ callIncludesAt (prop (body req) "doctorEmail") = Returned true
       /\ truthy (prop (body req) "patientId") = true
       /\ toText (prop (body req) "doctorEmail") = Returned toLine
       /\ GMAIL_USER_EMAIL env = Some userEmail
       /\ toText (prop (body req) "patientId") = Returned idText
       /\ createEmailTemplate quizPage (prop (body req) "patientId")
            (prop (body req) "quizScore") (prop (body req) "quizData")
            (prop (body req) "summary") = Returned html
       /\ base64urlDecode raw
          = utf8 (messageText toLine userEmail (subjectOf idText) html).
Proof.
  intros H.
  destruct (handler_cases _ _ _ _ _ _ _ H)
    as [[-> _]|(userEmail & toLine & idText & html & Hm & Hd & Hi & Hp & _ & _
                & _ & Hu & _ & _ & Ht & Hto & Hid & -> & _)];
    [now left|].
  right. eexists _, toLine, userEmail, idText, html.
  split; [reflexivity|].
  repeat (split; [assumption|]).
  unfold encodeMessage.
  fold (base64url (utf8 (messageText toLine userEmail (subjectOf idText) html))).
  apply base64url_decoded, utf8_bytes.
Qed.

Lemma message_handed_over_once_witness :
  handler plainTemplate (Returned tt) acceptingGmail fullEnvironment goodRequest
    = ({| status := 200; json := Success (VStr "P-7") (VStr "18c2f0") |},
       [encodeMessage goodMessage])
  /\ ([encodeMessage goodMessage] = []
      \/ exists raw toLine userEmail idText html,
           [encodeMessage goodMessage] = [raw]
           /\ method goodRequest = "POST"
           /\ truthy (prop (body goodRequest) "doctorEmail") = true
           /\ callIncludesAt (prop (body goodRequest) "doctorEmail")
              = Returned true
           /\ truthy (prop (body goodRequest) "patientId") = true
           /\ toText (prop (body goodRequest) "doctorEmail") = Returned toLine
           /\ GMAIL_USER_EMAIL fullEnvironment = Some userEmail
           /\ toText (prop (body goodRequest) "patientId") = Returned idText
           /\ createEmailTemplate plainTemplate
                (prop (body goodRequest) "patientId")
                (prop (body goodRequest) "quizScore")
                (prop (body goodRequest) "quizData")
                (prop (body goodRequest) "summary") = Returned html
           /\ base64urlDecode raw
              = utf8 (messageText toLine userEmail (subjectOf idText) html)).
Proof.
  split; [vm_compute; reflexivity|].
  apply (message_handed_over_once plainTemplate (Returned tt) acceptingGmail
           fullEnvironment goodRequest
           {| status := 200; json := Success (VStr "P-7") (VStr "18c2f0") |}).
  vm_compute; reflexivity.
Defined.

(** X20.  The configuration check of the endpoint does not cover the
    address of the sender: with the three credentials set and that address
    missing, a valid request gets past the check and the refresh of the
    token, and is answered 500 with the message that the address is not
    set, no message being handed to Gmail. *)
Theorem missing_sender_address
    (quizPage : value -> value -> list value -> outcome string)
    (refreshAccessToken : outcome unit) (gmailSend : string -> outcome value)
    (env : environment) (req : request) (html idText : string) :
  method req = "POST" ->
  truthy (prop (body req) "doctorEmail") = true ->
  callIncludesAt (prop (body req) "doctorEmail") = Returned true ->
  truthy (prop (body req) "patientId") = true ->
  isSet (GMAIL_CLIENT_ID env) = true ->
  isSet (GMAIL_CLIENT_SECRET env) = true ->
  isSet (GMAIL_REFRESH_TOKEN env) = true ->
  isSet (GMAIL_USER_EMAIL env) = false ->
  createEmailTemplate quizPage (prop (body req) "patientId")
    (prop (body req) "quizScore") (prop (body req) "quizData")
    (prop (body req) "summary") = Returned html ->
  toText (prop (body req) "patientId") = Returned idText ->
  handler quizPage refreshAccessToken gmailSend env req =
  ({| status := 500;
      json := Message
                match refreshAccessToken with
                | Returned _ => Text "GMAIL_USER_EMAIL is not set"
                | Thrown t =>
                    messageOf t "Failed to send email. Please try again later."
                end |}, []).
Proof.
  intros Hm Hd Hi Hp H1 H2 H3 Hu Ht Hid.
  unfold handler, sendEmailViaGmail. rewrite Hm. cbn [String.eqb negb].
  replace (String.eqb "POST" "POST") with true by reflexivity. cbn [negb].
  destruct (body req) eqn:Eb; try discriminate;
    rewrite Hd, Hi, Hp, H1, H2, H3; cbn [negb orb];
    rewrite Ht, Hid; cbn [negb];
    destruct refreshAccessToken as [u|t]; try reflexivity;
    rewrite Hu; reflexivity.
Qed.

Lemma missing_sender_address_witness :
  handler plainTemplate (Returned tt) acceptingGmail noSenderEnvironment
    goodRequest
  = ({| status := 500; json := Message (Text "GMAIL_USER_EMAIL is not set") |},
     []).
Proof.
  apply (missing_sender_address plainTemplate (Returned tt) acceptingGmail
           noSenderEnvironment goodRequest "<p>Quiz results</p>" "P-7");
    reflexivity.
Defined.

(** X27.  The endpoint does not validate the quiz data: a request that is
    valid as to the doctor address and the patient identifier, with the
    credentials set, but whose quiz data are not an array, is answered 500
    with the message of a type error, and no message is handed to Gmail. *)
Theorem quiz_data_not_validated
    (quizPage : value -> value -> list value -> outcome string)
    (refreshAccessToken : outcome unit) (gmailSend : string -> outcome value)
    (env : environment) (req : request) :
  method req = "POST" ->
  truthy (prop (body req) "doctorEmail") = true ->
  callIncludesAt (prop (body req) "doctorEmail") = Returned true ->
  truthy (prop (body req) "patientId") = true ->
  isSet (GMAIL_CLIENT_ID env) = true ->
  isSet (GMAIL_CLIENT_SECRET env) = true ->
  isSet (GMAIL_REFRESH_TOKEN env) = true ->
  isArray (prop (body req) "quizData") = false ->
  handler quizPage refreshAccessToken gmailSend env req =
  ({| status := 500; json := Message PlatformText |}, []).
Proof.
  intros Hm Hd Hi Hp H1 H2 H3 Hq.
  unfold handler. rewrite Hm.
  replace (String.eqb "POST" "POST") with true by reflexivity. cbn [negb].
  assert (Ht : createEmailTemplate quizPage (prop (body req) "patientId")
                 (prop (body req) "quizScore") (prop (body req) "quizData")
                 (prop (body req) "summary") = Thrown TypeErrorThrown).
  { unfold createEmailTemplate.
    destruct (prop (body req) "quizData"); try reflexivity. discriminate. }
  destruct (body req) eqn:Eb; try discriminate;
    rewrite Hd, Hi, Hp, H1, H2, H3; cbn [negb orb];
    rewrite Ht; reflexivity.
Qed.

Lemma quiz_data_not_validated_witness :
  handler plainTemplate (Returned tt) acceptingGmail fullEnvironment bareRequest
  = ({| status := 500; json := Message PlatformText |}, []).
Proof.
  apply (quiz_data_not_validated plainTemplate (Returned tt) acceptingGmail
           fullEnvironment bareRequest);
    reflexivity.
Defined.

(** X21.  The grader takes a reply out of its fence: for a reply that
    neither begins nor ends with white space, wrapped in a json fence or in
    a plain fence with white space on the inside, what is parsed is the
    reply. *)
Theorem grader_fence_removed (gap body gap' : string) :
  allWhiteSpace gap = true ->
  allWhiteSpace gap' = true ->
  trimStart body = body ->
  trimEnd body = body ->
  stripGraderFences ("```json" ++ gap ++ body ++ gap' ++ "```") = body
  /\ (startsWith ("```" ++ gap ++ body ++ gap' ++ "```") "```json" = false ->
      stripGraderFences ("```" ++ gap ++ body ++ gap' ++ "```") = body).
Proof.
  intros Hg Hg' Hs He.
  assert (Hrest : stripFinalFence (trimStart (gap ++ body ++ gap' ++ "```"))
                  = body).
  { rewrite (trimStart_white _ _ Hg).
    destruct (allWhiteSpace body) eqn:Ew.
    - rewrite (trimStart_allWhite body Ew) in Hs. subst body. cbn [append].
      rewrite (trimStart_white _ _ Hg'). reflexivity.
    - rewrite (trimStart_app _ _ Ew), Hs. now apply stripFinalFence_body. }
  split.
  - unfold stripGraderFences.
    replace (startsWith ("```json" ++ gap ++ body ++ gap' ++ "```") "```json")
      with true by (symmetry; apply startsWith_iff; eauto).
    change (drop 7 ("```json" ++ gap ++ body ++ gap' ++ "```"))
      with (gap ++ body ++ gap' ++ "```").
    exact Hrest.
  - intros Hn. unfold stripGraderFences. rewrite Hn.
    replace (startsWith ("```" ++ gap ++ body ++ gap' ++ "```") "```")
      with true by (symmetry; apply startsWith_iff; eauto).
    change (drop 3 ("```" ++ gap ++ body ++ gap' ++ "```"))
      with (gap ++ body ++ gap' ++ "```").
    exact Hrest.
Qed.

Lemma grader_fence_removed_witness :
  stripGraderFences fencedVerdict = verdictText
  /\ stripGraderFences ("```" ++ newline ++ verdictText ++ newline ++ "```")
     = verdictText.
Proof.
  destruct (grader_fence_removed newline verdictText newline
              eq_refl eq_refl eq_refl eq_refl) as [Hj Hp].
  split; [exact Hj | exact (Hp eq_refl)].
Defined.

(** X22.  When the round trip succeeds and the first part of the first
    candidate holds a text that parses, out of its fence, to an object, the
    grade is the verdict of that object, whatever its type, with false in
    the place of a missing one, and its feedback, with a fixed sentence in
    the place of a falsy one; the answers of the patient are not looked
    at. *)
Theorem model_verdict_passed_on (JSON_parse : string -> option value)
    (status : Z) (body question correctAnswer userAnswer summaryContext : string)
    (dm cm pm gm : list (string * value)) (others rest : list value)
    (t : string) :
  JSON_parse body = Some (VObj dm) ->
  truthy (lookup "error" dm) = false ->
  lookup "candidates" dm = VArr (VObj cm :: others) ->
  truthy (lookup "content" cm) = true ->
  prop (lookup "content" cm) "parts" = VArr (VObj pm :: rest) ->
  lookup "text" pm = VStr t ->
  t <> EmptyString ->
  JSON_parse (stripGraderFences (trim t)) = Some (VObj gm) ->
  gradeQuizAnswer JSON_parse (Response true status body)
    question correctAnswer userAnswer summaryContext =
  {| isCorrect := nullish_or (lookup "isCorrect" gm) (VBool false);
     feedback := or_else (lookup "feedback" gm)
                         (VStr "Thank you for your answer.") |}.
Proof.
  intros Hb He Hc Ht Hp Hx Hne Hg.
  unfold gradeQuizAnswer, gradeAttempt, bodyOf. cbn [negb]. rewrite Hb.
  cbn [bind get prop]. rewrite He, Hc.
  cbn [truthy negb orb lengthOf isZero first bind get prop].
  rewrite Ht. cbn [negb]. rewrite Hp.
  cbn [truthy negb orb lengthOf isZero first bind get prop]. rewrite Hx.
  destruct t as [|c t]; [congruence|].
  cbn [truthy callTrim bind List.length Nat.add Z.of_nat].
  change (Z.of_nat (S (List.length others)) =? 0)%Z with false.
  change (Z.of_nat (S (List.length rest)) =? 0)%Z with false.
  cbn [String.eqb negb bind]. rewrite Hg. reflexivity.
Qed.

Lemma model_verdict_passed_on_witness :
  gradeQuizAnswer verdictParser (Response true 200 verdictBody)
    "What should your child avoid?" referenceAnswer "I do not know"
    "Avoid juice, soda and greasy food."
  = {| isCorrect := VBool true; feedback := VStr "Well done." |}.
Proof.
  apply (model_verdict_passed_on verdictParser 200 verdictBody
           "What should your child avoid?" referenceAnswer "I do not know"
           "Avoid juice, soda and greasy food."
           (envelope verdictContent) (candidateOf verdictContent) verdictPart
           verdictMembers [] [] fencedVerdict);
    try reflexivity.
  discriminate.
Defined.

End Extras.

Module ScoreFacts.
Import JS Email Quiz.
Local Open Scope Z_scope.

Section Sums.
Context {A : Type}.
Lemma fold_left_total (f : A -> Z) (l : list A) (a : Z) :
  fold_left (fun sum x => sum + f x) l a = a + total f l.
Proof.
  revert a. induction l as [|x l IH]; intros a; simpl; [lia|].
  rewrite IH. lia.
Qed.

Lemma total_ext (f g : A -> Z) (l : list A) :
  (forall x, In x l -> f x = g x) -> total f l = total g l.
Proof.
  induction l as [|x l IH]; intros H; simpl; [reflexivity|].
  rewrite (H x (or_introl eq_refl)), IH; [reflexivity|].
  intros y Hy. apply H. now right.
Qed.

Lemma total_zero (f : A -> Z) (l : list A) :
  (forall x, In x l -> f x = 0) -> total f l = 0.
Proof.
  induction l as [|x l IH]; intros H; simpl; [reflexivity|].
  rewrite (H x (or_introl eq_refl)), IH; [reflexivity|].
  intros y Hy. apply H. now right.
Qed.

(** A sum splits along a test. *)
Lemma total_split (p : A -> bool) (f : A -> Z) (l : list A) :
  total f l = total (fun x => if p x then f x else 0) l
              + total f (filter (fun x => negb (p x)) l).
Proof.
  induction l as [|x l IH]; simpl; [reflexivity|].
  destruct (p x); simpl; lia.
Qed.

End Sums.

Lemma totalWeight_total (qs : list QuizQuestion) :
  totalWeight qs = total weight qs.
Proof. unfold totalWeight. now rewrite fold_left_total. Qed.

Lemma earnedWeight_total (qs : list QuizQuestion) (answers : list QuizAnswer) :
  earnedWeight qs answers = total (credit qs) answers.
Proof.
  unfold earnedWeight.
  change (fold_left (fun sum a => sum + credit qs a) answers 0
          = total (credit qs) answers).
  now rewrite fold_left_total.
Qed.

Lemma NoDup_filter_ids (p : QuizAnswer -> bool) (answers : list QuizAnswer) :
  NoDup (map questionId answers) -> NoDup (map questionId (filter p answers)).
Proof.
  induction answers as [|a answers IH]; simpl; intros H; [constructor|].
  inversion H as [|? ? Hn Hr]; subst.
  destruct (p a); simpl; auto.
  constructor; auto.
  intros Hin. apply Hn. apply in_map_iff in Hin.
  destruct Hin as (b & Hb & Hin). apply filter_In in Hin.
  apply in_map_iff. exists b. tauto.
Qed.

(** With distinct answers, the answers to one question earn its weight once
    or not at all. *)
Lemma total_one_question (q : QuizQuestion) (answers : list QuizAnswer) :
  NoDup (map questionId answers) ->
  total (fun a => if String.eqb (id q) (questionId a)
                  then (if truthy (isCorrect a) then weight q else 0)
                  else 0) answers
  = if credited answers q then weight q else 0.
Proof.
  induction answers as [|a answers IH]; simpl; intros H; [reflexivity|].
  inversion H as [|? ? Hn Hr]; subst.
  unfold credited in *. cbn [existsb].
  destruct (String.eqb (id q) (questionId a)) eqn:E.
  - apply String.eqb_eq in E.
    assert (Hrest : forall b, In b answers ->
                      String.eqb (id q) (questionId b) = false).
    { intros b Hb. apply String.eqb_neq. intros Eb. apply Hn.
      rewrite <- E, Eb. now apply in_map. }
    rewrite total_zero
      by (intros b Hb; now rewrite (Hrest b Hb)).
    replace (existsb _ answers) with false.
    + destruct (truthy (isCorrect a)); simpl; lia.
    + symmetry. apply not_true_is_false. intros Hex.
      apply existsb_exists in Hex. destruct Hex as (b & Hb & Hc).
      rewrite (Hrest b Hb) in Hc. discriminate.
  - simpl. now rewrite IH.
Qed.

Lemma credited_filter (q q' : QuizQuestion) (answers : list QuizAnswer) :
  id q <> id q' ->
  credited (filter (fun a => negb (String.eqb (id q) (questionId a))) answers) q'
  = credited answers q'.
Proof.
  intros Hne. unfold credited.
  induction answers as [|a answers IH]; simpl; [reflexivity|].
  destruct (String.eqb (id q) (questionId a)) eqn:E; simpl.
  - apply String.eqb_eq in E.
    replace (String.eqb (id q') (questionId a)) with false; [exact IH|].
    symmetry. apply String.eqb_neq. congruence.
  - now rewrite IH.
Qed.

(** The weight earned, question by question. *)
Lemma earned_by_question (qs : list QuizQuestion) (answers : list QuizAnswer) :
  NoDup (map id qs) ->
  NoDup (map questionId answers) ->
  earnedWeight qs answers
  = total (fun q => if credited answers q then weight q else 0) qs.
Proof.
  rewrite earnedWeight_total. revert answers.
  induction qs as [|q qs IH]; intros answers Hq Ha.
  - simpl. apply total_zero. intros a _. unfold credit. simpl.
    now destruct (truthy (isCorrect a)).
  - inversion Hq as [|? ? Hn Hr]; subst.
    rewrite (total_split (fun a => String.eqb (id q) (questionId a))).
    cbn [total].
    rewrite <- (total_one_question q answers Ha). f_equal.
    + apply total_ext. intros a _. unfold credit. cbn [find].
      destruct (String.eqb (id q) (questionId a)); reflexivity.
    + rewrite (total_ext (credit (q :: qs)) (credit qs)).
      * rewrite (IH _ Hr (NoDup_filter_ids _ _ Ha)).
        apply total_ext. intros q' Hq'.
        rewrite credited_filter; [reflexivity|].
        intros E. apply Hn. rewrite E. now apply in_map.
      * intros a Hin. apply filter_In in Hin. destruct Hin as [_ Hf].
        unfold credit. cbn [find].
        destruct (String.eqb (id q) (questionId a)); [discriminate|reflexivity].
Qed.


Ltac run_outcomes :=
  repeat (cbn [andThen];
          match goal with
          | |- context [andThen ?r _] =>
              lazymatch r with
              | andThen _ _ => fail
              | Returned _ => fail
              | Thrown _ => fail
              | _ => destruct r
              end
          end);
  cbn [andThen].

Lemma generateQuestions_sections (summary : Gemini.PediatricSummary)
    (qs : list QuizQuestion) :
  generateQuestions summary = Returned qs ->
  map (fun q => (id q, weight q)) qs = sections summary.
Proof.
  unfold generateQuestions, sections.
  destruct (isEmpty (Gemini.redFlags summary));
    destruct (isEmpty (Gemini.medications summary));
    destruct (isEmpty (Gemini.whatToDo summary));
    destruct (isEmpty (Gemini.whatNotToDo summary));
    destruct (isEmpty (Gemini.followUp summary));
    cbv zeta; run_outcomes; try discriminate;
    intros H; injection H as <-; reflexivity.
Qed.


Lemma sections_ids (qs : list QuizQuestion) (l : list (string * Z)) :
  map (fun q => (id q, weight q)) qs = l ->
  map id qs = map fst l /\ map weight qs = map snd l.
Proof.
  intros <-. rewrite !map_map. split; reflexivity.
Qed.

Lemma total_map (f : QuizQuestion -> Z) (qs : list QuizQuestion) :
  total f qs = fold_right Z.add 0 (map f qs).
Proof. induction qs as [|q qs IH]; simpl; congruence. Qed.

Lemma Forall_map_weight (P : Z -> Prop) (qs : list QuizQuestion) :
  Forall P (map weight qs) -> Forall (fun q => P (weight q)) qs.
Proof.
  induction qs as [|q qs IH]; simpl; intros H; constructor;
    inversion H; subst; auto.
Qed.

(** What is known of the questions that [generateQuestions] returns. *)
Lemma generated (summary : Gemini.PediatricSummary) (qs : list QuizQuestion) :
  generateQuestions summary = Returned qs ->
  NoDup (map id qs)
  /\ Forall (fun q => ofFive (weight q)) qs
  /\ (List.length qs <= 5)%nat
  /\ totalWeight qs <= 100
  /\ (qs = [] <-> nothingToAsk summary = true).
Proof.
  intros H. apply generateQuestions_sections in H.
  destruct (sections_ids _ _ H) as [Hi Hw].
  rewrite totalWeight_total, total_map, Hw, Hi.
  assert (Hlen : List.length qs = List.length (sections summary))
    by (rewrite <- H; now rewrite length_map).
  rewrite Hlen.
  assert (Hnil : qs = [] <-> sections summary = [])
    by (rewrite <- H; destruct qs; simpl; split; congruence).
  rewrite Hnil.
  assert (Hall : Forall ofFive (map snd (sections summary)) ->
                 Forall (fun q => ofFive (weight q)) qs)
    by (rewrite <- Hw; apply Forall_map_weight).
  clear H Hi Hw Hlen Hnil.
  unfold sections, nothingToAsk in *.
  destruct (isEmpty (Gemini.redFlags summary));
    destruct (isEmpty (Gemini.medications summary));
    destruct (isEmpty (Gemini.whatToDo summary));
    destruct (isEmpty (Gemini.whatNotToDo summary));
    destruct (isEmpty (Gemini.followUp summary));
    cbn in *;
    (split; [repeat constructor; cbn; intuition discriminate|]);
    (split; [apply Hall; repeat constructor; unfold ofFive; lia|]);
    (split; [lia|]); (split; [lia|]);
    split; congruence.
Qed.

Lemma percent_checked :
  forallb (fun b => forallb (fun a => percentOk (5 * Z.of_nat a) (5 * Z.of_nat b))
                            (seq 0 (S b)))
          (seq 1 20) = true.
Proof. vm_compute. reflexivity. Qed.

(** For weights that are multiples of five up to 100, the rounding of the
    doubles is the exact one. *)
Lemma percent_exact (earned total : Z) :
  0 <= earned <= total -> 0 < total <= 100 ->
  (5 | earned) -> (5 | total) ->
  Math_round
    (PrimFloat.mul (PrimFloat.div (toFloat earned) (toFloat total)) (toFloat 100))
  = Int (exactPercent earned total).
Proof.
  intros He Ht [a Ha] [b Hb].
  pose proof percent_checked as H. rewrite forallb_forall in H.
  specialize (H (Z.to_nat b)).
  assert (Hin : In (Z.to_nat b) (seq 1 20)) by (apply in_seq; lia).
  specialize (H Hin). rewrite forallb_forall in H.
  specialize (H (Z.to_nat a)).
  assert (Hin' : In (Z.to_nat a) (seq 0 (S (Z.to_nat b)))) by (apply in_seq; lia).
  specialize (H Hin').
  rewrite !Z2Nat.id in H by lia.
  replace (5 * a) with earned in H by lia.
  replace (5 * b) with total in H by lia.
  unfold percentOk in H.
  destruct (Math_round _) as [z| | | |]; try discriminate.
  apply Z.eqb_eq in H. now subst.
Qed.

Lemma exactPercent_bounds (earned total : Z) :
  0 <= earned <= total -> 0 < total <= 100 ->
  0 <= exactPercent earned total <= 100
  /\ (exactPercent earned total = 100 <-> earned = total)
  /\ (exactPercent earned total = 0 <-> earned = 0).
Proof.
  intros He Ht. unfold exactPercent.
  pose proof (Z.div_mod (200 * earned + total) (2 * total)) as Hd.
  pose proof (Z.mod_pos_bound (200 * earned + total) (2 * total)) as Hm.
  specialize (Hd ltac:(lia)). specialize (Hm ltac:(lia)).
  set (z := (200 * earned + total) / (2 * total)) in *.
  set (r := (200 * earned + total) mod (2 * total)) in *.
  repeat split; try nia.
Qed.

(** The earned weight against the total, for distinct questions with
    positive weights. *)
Lemma credited_total (answers : list QuizAnswer) (qs : list QuizQuestion) :
  Forall (fun q => 0 < weight q) qs ->
  let earned := total (fun q => if credited answers q then weight q else 0) qs in
  0 <= earned <= total weight qs
  /\ (earned = total weight qs <-> forall q, In q qs -> credited answers q = true)
  /\ (earned = 0 <-> forall q, In q qs -> credited answers q = false).
Proof.
  intros Hpos. cbv zeta.
  induction qs as [|q qs IH]; cbn [total].
  - repeat split; try lia; intros _ q [].
  - inversion Hpos as [|? ? Hq Hrest]; subst.
    destruct (IH Hrest) as (Hb & Hall & Hnone).
    destruct (credited answers q) eqn:Ec.
    + split; [lia|]. split.
      * split.
        -- intros E q' [<-|Hin]; [exact Ec|]. apply Hall; [lia|exact Hin].
        -- intros H. f_equal. apply Hall. intros q' Hin. apply H. now right.
      * split; [lia|]. intros H. rewrite (H q (or_introl eq_refl)) in Ec.
        discriminate.
    + split; [lia|]. split.
      * split; [lia|]. intros H. rewrite (H q (or_introl eq_refl)) in Ec.
        discriminate.
      * split.
        -- intros E q' [<-|Hin]; [exact Ec|]. apply Hnone; [lia|exact Hin].
        -- intros H. rewrite Z.add_0_l. apply Hnone. intros q' Hin.
           apply H. now right.
Qed.

Lemma total_divides (f : QuizQuestion -> Z) (qs : list QuizQuestion) :
  Forall (fun q => (5 | f q)) qs -> (5 | total f qs).
Proof.
  induction 1 as [|q qs Hq _ IH]; cbn [total].
  - exists 0. reflexivity.
  - now apply Z.divide_add_r.
Qed.

(** The score of questions with distinct identifiers and weights among the
    five of the quiz, for answers with distinct question identifiers. *)
Lemma score_facts (qs : list QuizQuestion) (answers : list QuizAnswer) :
  NoDup (map id qs) ->
  Forall (fun q => ofFive (weight q)) qs ->
  totalWeight qs <= 100 ->
  qs <> [] ->
  NoDup (map questionId answers) ->
  calculateScore qs answers
  = Int (exactPercent (earnedWeight qs answers) (totalWeight qs))
  /\ 0 <= exactPercent (earnedWeight qs answers) (totalWeight qs) <= 100
  /\ (exactPercent (earnedWeight qs answers) (totalWeight qs) = 100 <->
      forall q, In q qs -> credited answers q = true)
  /\ (exactPercent (earnedWeight qs answers) (totalWeight qs) = 0 <->
      forall q, In q qs -> credited answers q = false).
Proof.
  intros Hn Hw Ht Hne Ha.
  assert (Hpos : Forall (fun q => 0 < weight q) qs)
    by (eapply Forall_impl; [|exact Hw]; unfold ofFive; intros q Hq; lia).
  assert (Hfive : Forall (fun q => (5 | weight q)) qs).
  { eapply Forall_impl; [|exact Hw]. unfold ofFive.
    intros q [->|[->|[->|[->| ->]]]];
      [exists 6|exists 5|exists 4|exists 3|exists 2]; reflexivity. }
  destruct (credited_total answers qs Hpos) as (Hb & Hall & Hnone).
  rewrite <- (earned_by_question qs answers Hn Ha) in Hb, Hall, Hnone.
  rewrite <- totalWeight_total in Hb, Hall.
  assert (Htot : 0 < totalWeight qs).
  { rewrite totalWeight_total. destruct qs as [|q qs']; [congruence|].
    cbn [total]. inversion Hpos as [|? ? Hq Hrest]; subst.
    assert (0 <= total weight qs').
    { clear - Hrest. induction qs' as [|x l IH]; cbn [total]; [lia|].
      inversion Hrest as [|? ? Hx Hl]; subst. specialize (IH Hl). lia. }
    lia. }
  assert (Hde : (5 | earnedWeight qs answers)).
  { rewrite (earned_by_question qs answers Hn Ha). apply total_divides.
    eapply Forall_impl; [|exact Hfive]. intros q Hq. cbv beta.
    destruct (credited answers q); [exact Hq|exists 0; reflexivity]. }
  assert (Hdt : (5 | totalWeight qs))
    by (rewrite totalWeight_total; now apply total_divides).
  destruct (exactPercent_bounds _ _ Hb (conj Htot Ht)) as (Hz & H100 & H0).
  split; [apply percent_exact; auto|]. split; [exact Hz|].
  split; [rewrite H100; exact Hall | rewrite H0; exact Hnone].
Qed.

(** The score of a quiz with no question. *)
Lemma score_of_nothing (answers : list QuizAnswer) :
  calculateScore [] answers = NaN.
Proof.
  unfold calculateScore. rewrite earnedWeight_total, totalWeight_total.
  rewrite total_zero.
  - vm_compute. reflexivity.
  - intros a _. unfold credit. cbn [find]. now destruct (truthy (isCorrect a)).
Qed.

End ScoreFacts.


Module AnsweringFacts.
Import JS Email Quiz.
Local Open Scope Z_scope.

Lemma firstn_snoc (qs : list QuizQuestion) (n : nat) (q : QuizQuestion) :
  nth_error qs n = Some q ->
  firstn (n + 1) qs = (firstn n qs ++ [q])%list.
Proof.
  revert n. induction qs as [|x qs IH]; intros [|n] H; simpl in *;
    try discriminate.
  - now injection H as ->.
  - now rewrite (IH n H).
Qed.

Lemma reachable_invariant (questions : list QuizQuestion) (st : state) :
  reachable questions st -> invariant questions st.
Proof.
  induction 1 as [|st st' Hr IH Hs].
  - unfold invariant, answered, tryAgainShown. simpl.
    repeat split; try lia. intros; discriminate.
  - destruct IH as (Hlen & Hans & Hretry & Htry & Htimer).
    destruct Hs as [st text Hc|st result Hc Hshown Ht|st index Ht|st Hc Hshown].
    + unfold invariant, answered, tryAgainShown in *. simpl.
      repeat split; auto.
    + unfold handleSubmitAnswer.
      destruct (String.eqb (trim (currentAnswer st)) EmptyString);
        [unfold invariant; auto|].
      destruct (nth_error questions (currentIndex st)) as [q|] eqn:Eq;
        [|unfold invariant; auto].
      assert (Hlt : (currentIndex st < List.length questions)%nat)
        by (apply nth_error_Some; congruence).
      unfold answered in Hlen, Hans. rewrite Ht in Hlen, Hans.
      destruct (truthy (Gemini.isCorrect result)) eqn:Ev; cbn [orb].
      * unfold invariant, answered, tryAgainShown. simpl. rewrite Ev.
        repeat split; auto; try lia.
        -- rewrite map_app, Hans, (firstn_snoc _ _ _ Eq), map_app. reflexivity.
        -- intros index H; now injection H as <-.
      * destruct (1 <=? retryCount st)%nat eqn:Er.
        -- apply Nat.leb_le in Er.
           unfold invariant, answered, tryAgainShown. simpl. rewrite Ev.
           repeat split; auto; try lia.
           ++ rewrite map_app, Hans, (firstn_snoc _ _ _ Eq), map_app.
              reflexivity.
           ++ cbn [negb andb]. apply Nat.ltb_ge. lia.
           ++ intros index H; now injection H as <-.
        -- apply Nat.leb_gt in Er.
           unfold invariant, answered, tryAgainShown. simpl.
           rewrite Ev, Ht. repeat split; auto; try lia.
           ++ cbn [negb andb]. apply Nat.ltb_ge. lia.
           ++ intros; discriminate.
    + pose proof (Htimer index Ht) as ->.
      unfold invariant, answered, tryAgainShown in *. simpl.
      rewrite Ht in Hlen, Hans.
      repeat split; auto; try lia. intros; discriminate.
    + congruence.
Qed.

Lemma NoDup_firstn {A : Type} (n : nat) (l : list A) :
  NoDup l -> NoDup (firstn n l).
Proof.
  revert n. induction l as [|x l IH]; intros [|n] H; simpl; try constructor.
  - inversion H as [|? ? Hx Hl]; subst. intros Hin. apply Hx.
    clear - Hin. revert n Hin. induction l as [|y l IHl]; intros [|n] Hin;
      simpl in *; try tauto.
    destruct Hin as [->|Hin]; [now left|right; eauto].
  - inversion H; subst. auto.
Qed.

(** Of answers with distinct question identifiers, one answers a
    question. *)
Lemma same_question (answers : list QuizAnswer) (a b : QuizAnswer) :
  NoDup (map questionId answers) ->
  In a answers -> In b answers -> questionId a = questionId b -> a = b.
Proof.
  induction answers as [|x l IH]; simpl; intros Hn Ha Hb E; [tauto|].
  inversion Hn as [|? ? Hx Hl]; subst.
  destruct Ha as [->|Ha]; destruct Hb as [->|Hb]; auto.
  - destruct Hx. rewrite E. now apply in_map.
  - destruct Hx. rewrite <- E. now apply in_map.
Qed.

(** When every question has its answer, the questions are all credited
    exactly when the answers are all marked correct. *)
Lemma credited_all (qs : list QuizQuestion) (answers : list QuizAnswer) :
  map questionId answers = map id qs ->
  NoDup (map id qs) ->
  (forall q, In q qs -> credited answers q = true) <->
  (forall a, In a answers -> truthy (isCorrect a) = true).
Proof.
  intros Hmap Hn. split.
  - intros H a Ha.
    assert (Hid : In (questionId a) (map id qs))
      by (rewrite <- Hmap; now apply in_map).
    apply in_map_iff in Hid. destruct Hid as (q & Hq & Hin).
    specialize (H q Hin). unfold credited in H.
    apply existsb_exists in H. destruct H as (b & Hb & Hc).
    apply andb_prop in Hc. destruct Hc as [He Ht].
    apply String.eqb_eq in He.
    rewrite <- Hmap in Hn.
    assert (a = b) by (apply (same_question answers); congruence).
    now subst.
  - intros H q Hq.
    assert (Hid : In (id q) (map questionId answers))
      by (rewrite Hmap; now apply in_map).
    apply in_map_iff in Hid. destruct Hid as (a & Ha & Hin).
    unfold credited. apply existsb_exists. exists a. split; [exact Hin|].
    rewrite Ha, String.eqb_refl. cbn [andb]. now apply H.
Qed.

(** With nothing to ask the run is complete at once. *)
Lemma empty_run_complete :
  isComplete [] initial = true /\ calculateScore [] (answers initial) = NaN.
Proof. split; [reflexivity|apply ScoreFacts.score_of_nothing]. Qed.

End AnsweringFacts.

Module QuizExtras.
Import JS Email Quiz ScoreFacts AnsweringFacts Samples Cases.
Import Gemini (normalizeParsed, Ok).
Local Open Scope Z_scope.

(** X23.  The questions the quiz makes of a summary number at most five,
    have identifiers that are pairwise distinct and weights from 10 to 30
    that add up to 100 at most; and there is no question exactly when the
    five lists of the summary are empty. *)
Theorem generated_questions_shape (summary : Gemini.PediatricSummary)
    (qs : list QuizQuestion) :
  generateQuestions summary = Returned qs ->
  NoDup (map id qs)
  /\ (List.length qs <= 5)%nat
  /\ Forall (fun q => 10 <= weight q <= 30) qs
  /\ totalWeight qs <= 100
  /\ (qs = [] <-> nothingToAsk summary = true).
Proof.
  intros H. destruct (generated _ _ H) as (Hn & Hw & Hl & Ht & He).
  repeat split; try tauto.
  eapply Forall_impl; [|exact Hw]. unfold ofFive. intros q Hq. lia.
Qed.

Lemma generated_questions_shape_witness :
  exists qs, generateQuestions fullSummary = Returned qs
    /\ NoDup (map id qs) /\ (List.length qs <= 5)%nat /\ totalWeight qs <= 100.
Proof.
  eexists. split; [reflexivity|].
  destruct (generated_questions_shape fullSummary _ eq_refl)
    as (Hn & Hl & _ & Ht & _).
  split; [exact Hn|]. split; [exact Hl | exact Ht].
Defined.

(** X24.  For the questions made of a summary and answers with pairwise
    distinct question identifiers: when the summary gives no question the
    score is not a number; when it gives one or more, the score is an
    integer from 0 to 100, the percentage of the weight earned in the total
    weight rounded half up, the arithmetic of doubles losing nothing, and
    it is 100 exactly when every question has an answer marked correct, and
    0 exactly when none has. *)
Theorem score_is_exact_percentage (summary : Gemini.PediatricSummary)
    (qs : list QuizQuestion) (answers : list QuizAnswer) :
  generateQuestions summary = Returned qs ->
  NoDup (map questionId answers) ->
  (qs = [] -> calculateScore qs answers = NaN)
  /\ (qs <> [] ->
      exists z,
        calculateScore qs answers = Int z
        /\ z = exactPercent (earnedWeight qs answers) (totalWeight qs)
        /\ 0 <= z <= 100
        /\ (z = 100 <-> forall q, In q qs -> credited answers q = true)
        /\ (z = 0 <-> forall q, In q qs -> credited answers q = false)).
Proof.
  intros H Ha. split; [intros ->; apply score_of_nothing|]. intros Hne.
  destruct (generated _ _ H) as (Hn & Hw & _ & Ht & _).
  destruct (score_facts qs answers Hn Hw Ht Hne Ha) as (Hs & Hb & H100 & H0).
  exists (exactPercent (earnedWeight qs answers) (totalWeight qs)).
  repeat split; solve [assumption | apply H100 | apply H0 | lia].
Qed.

Lemma score_is_exact_percentage_witness :
  exists qs, generateQuestions fullSummary = Returned qs
    /\ exists z, calculateScore qs fullAnswers = Int z /\ 0 <= z <= 100.
Proof.
  eexists. split; [reflexivity|].
  destruct (score_is_exact_percentage fullSummary _ fullAnswers eq_refl)
    as (_ & Hsome).
  - repeat constructor; cbn; intuition discriminate.
  - destruct Hsome as (z & Hz & _ & Hb & _); [discriminate|].
    exists z. split; [exact Hz | exact Hb].
Defined.

(** X25.  A summary whose five lists are empty gives a quiz with no
    question, and the score of a quiz with no question is not a number,
    whatever the answers. *)
Theorem nothing_to_ask_scores_nan (summary : Gemini.PediatricSummary)
    (answers : list QuizAnswer) :
  nothingToAsk summary = true ->
  generateQuestions summary = Returned []
  /\ calculateScore [] answers = NaN.
Proof.
  intros H. unfold nothingToAsk in H.
  repeat (apply andb_prop in H; destruct H as [H ?]).
  split.
  - unfold generateQuestions.
    repeat match goal with E : isEmpty _ = true |- _ => rewrite E; clear E end.
    reflexivity.
  - unfold calculateScore. rewrite earnedWeight_total, totalWeight_total.
    rewrite total_zero.
    + vm_compute. reflexivity.
    + intros a _. unfold credit. cbn [find]. now destruct (truthy (isCorrect a)).
Qed.

Lemma nothing_to_ask_scores_nan_witness :
  generateQuestions (oneLeftSummary []) = Returned []
  /\ calculateScore [] fullAnswers = NaN.
Proof.
  apply (nothing_to_ask_scores_nan (oneLeftSummary []) fullAnswers).
  reflexivity.
Defined.

(** X26.  The normalizer lets through what the quiz cannot take: when the
    first medication of the parsed object is null, the summary is returned
    and the making of the questions throws. *)
Theorem missing_medication_throws (m : list (string * value))
    (s : Gemini.PediatricSummary) (x : value) (rest : list value) :
  Gemini.normalizeParsed (VObj m) = Gemini.Ok s ->
  lookup "medications" m = VArr (x :: rest) ->
  x = VNull \/ x = VUndefined ->
  exists t, generateQuestions s = Thrown t.
Proof.
  intros H Hm Hx. apply SanitizerFacts.normalizeParsed_fields in H.
  destruct H as (_ & _ & _ & _ & Hmed & _).
  rewrite Hm in Hmed. cbn [Gemini.arrayOrEmpty] in Hmed.
  unfold generateQuestions. rewrite Hmed. cbn [isEmpty hd]. cbv zeta.
  assert (Hth : member x "name" = Thrown TypeErrorThrown)
    by (destruct Hx as [-> | ->]; reflexivity).
  rewrite Hth.
  destruct (isEmpty (Gemini.redFlags s)); cbn [andThen].
  - eauto.
  - destruct (callJoin "; " (Gemini.redFlags s)); cbn [andThen]; eauto.
Qed.

Lemma missing_medication_throws_witness :
  exists s, normalizeParsed (VObj nullMedication) = Ok s
    /\ exists t, generateQuestions s = Thrown t.
Proof.
  eexists. split; [reflexivity|].
  apply (missing_medication_throws nullMedication _ VNull [] eq_refl eq_refl).
  left. reflexivity.
Defined.

(** X28.  In a run in which the patient submits an answer only when no
    grading and no timeout is under way, the answers recorded are those to
    the first questions, one each and in their order; the retry count
    never exceeds one; and for questions with distinct identifiers the
    answers have distinct question identifiers. *)
Theorem patient_run_answers_in_order (questions : list QuizQuestion)
    (st : state) :
  reachable questions st ->
  (answered st <= List.length questions)%nat
  /\ map questionId (answers st) = map id (firstn (answered st) questions)
  /\ (retryCount st <= 1)%nat
  /\ (NoDup (map id questions) -> NoDup (map questionId (answers st))).
Proof.
  intros H. destruct (reachable_invariant _ _ H) as (Hl & Ha & Hr & _).
  repeat split; auto.
  intros Hn. rewrite Ha, <- firstn_map. now apply NoDup_firstn.
Qed.

Lemma patient_run_answers_in_order_witness :
  map questionId (answers oneAnswered)
  = map id (firstn (answered oneAnswered) [firstQuestion])
  /\ (retryCount oneAnswered <= 1)%nat.
Proof.
  assert (H : reachable [firstQuestion] oneAnswered).
  { unfold oneAnswered.
    eapply reach_step;
      [eapply reach_step;
         [eapply reach_step;
            [apply reach_initial | apply Typed; reflexivity]
         |apply Submitted; reflexivity]
      |apply TimedOut; reflexivity]. }
  destruct (patient_run_answers_in_order [firstQuestion] oneAnswered H)
    as (_ & Ha & Hr & _).
  split; [exact Ha | exact Hr].
Defined.

(** X29.  In such a run the button that offers another try is never
    shown: once a wrong first answer has come back the retry count is one,
    and the submit button stays in its place. *)
Theorem try_again_never_offered (questions : list QuizQuestion) (st : state) :
  reachable questions st -> tryAgainShown st = false.
Proof.
  intros H. destruct (reachable_invariant _ _ H) as (_ & _ & _ & Ht & _).
  exact Ht.
Qed.

Lemma try_again_never_offered_witness : tryAgainShown oneAnswered = false.
Proof.
  apply (try_again_never_offered [firstQuestion]).
  unfold oneAnswered.
  eapply reach_step;
    [eapply reach_step;
       [eapply reach_step;
          [apply reach_initial | apply Typed; reflexivity]
       |apply Submitted; reflexivity]
    |apply TimedOut; reflexivity].
Defined.

(** X30.  At the end of such a run through the questions made of a
    summary, every question has its answer.  When the summary gives no
    question, the run is at its end from the start and the score is not a
    number; when it gives one or more, the score is an integer from 0 to
    100 that is 100 exactly when every answer was marked correct. *)
Theorem complete_run_score (summary : Gemini.PediatricSummary)
    (qs : list QuizQuestion) (st : state) :
  generateQuestions summary = Returned qs ->
  reachable qs st ->
  isComplete qs st = true ->
  map questionId (answers st) = map id qs
  /\ (qs = [] -> calculateScore qs (answers st) = NaN)
  /\ (qs <> [] ->
      exists z,
        calculateScore qs (answers st) = Int z
        /\ 0 <= z <= 100
        /\ (z = 100 <->
            forall a, In a (answers st) -> truthy (isCorrect a) = true)).
Proof.
  intros H Hr Hc. destruct (generated _ _ H) as (Hn & Hw & _ & Ht & _).
  destruct (reachable_invariant _ _ Hr) as (Hl & Ha & _ & _ & Hti).
  unfold isComplete in Hc. apply Nat.leb_le in Hc.
  assert (Hall : answered st = List.length qs).
  { unfold answered in *. destruct (timer st); lia. }
  rewrite Hall, firstn_all in Ha.
  split; [exact Ha|].
  split; [intros ->; apply score_of_nothing|]. intros Hne.
  assert (Hd : NoDup (map questionId (answers st))) by now rewrite Ha.
  destruct (score_facts qs (answers st) Hn Hw Ht Hne Hd) as (Hs & Hb & H100 & _).
  eexists. split; [exact Hs|]. split; [exact Hb|].
  rewrite H100. now apply credited_all.
Qed.

Lemma complete_run_score_witness :
  exists qs, generateQuestions twoLeftSummary = Returned qs
    /\ exists z, calculateScore qs (answers feverAnswered) = Int z
         /\ 0 <= z <= 100.
Proof.
  eexists. split; [reflexivity|].
  destruct (complete_run_score twoLeftSummary _ feverAnswered eq_refl)
    as (_ & _ & Hsome).
  - unfold feverAnswered.
    eapply reach_step;
      [eapply reach_step;
         [eapply reach_step;
            [apply reach_initial | apply Typed; reflexivity]
         |apply Submitted; reflexivity]
      |apply TimedOut; reflexivity].
  - reflexivity.
  - destruct Hsome as (z & Hz & Hb & _); [discriminate|].
    exists z. split; [exact Hz | exact Hb].
Defined.

End QuizExtras.
